(** * A shallow embedding of the WebGL frame loop of normal-map-solution

    The renderer ([glCanvas]: [linearLight], [setupCanvas], [compileProgram],
    [setUpLights], [setUpTexture], [setUpTextures], [cleanUpTextures],
    [setUpVertexBuffer], [renderLoop], [updateSceneData]) and the texture
    cache ([PPMFileLoader]) are written as
    functions of an explicit [World]: the scene data, the module-level
    counters, the cache of the loader singleton, the console, and the
    graphics context seen as a log of the calls made to it together with an
    oracle for what the driver answers.  A JavaScript [throw] is the [Throw]
    completion of the [JS] monad; state changes made before the throw stay.
    Numbers are exact rationals where the code computes exactly, and
    IEEE 754 doubles where its rounding shows. *)

From Stdlib Require Import ZArith QArith Qround String List SpecFloat.
From stdpp Require Import base strings gmap list pretty.

Local Open Scope Z_scope.
Local Open Scope string_scope.
Local Open Scope list_scope.

(** ** JavaScript numbers

    Canvas sizes, counters, clock readings and the entries of matrices and
    vertex arrays are taken as exact rationals, kept in lowest terms; a
    quotient handed to the context is the exact one, which the code rounds
    once.  Where the code goes on computing with rounded numbers, in the
    elapsed time of the frame counter and in the positions of the lights,
    the numbers are IEEE 754 binary64 values as the Standard Library
    specifies them: [spec_float] with 53 bits of precision and exponents
    below 1024, with its infinities and its NaN. *)

(** [a / b] *)
Definition jsDiv (a b : Q) : Q := Qred (a / b).

(** [a % b]: the remainder has the sign of the dividend. *)
Definition jsRem (a b : Q) : Q :=
  let q := (a / b)%Q in
  Qred (a - b * inject_Z (Z.quot (Qnum q) (Zpos (Qden q)))).

Definition double := spec_float.

Module Double.

Definition NaN : double := S754_nan.

  (** [a + b], [a - b], [a * b], [a / b], rounded to nearest, ties to even. *)
Definition add : double -> double -> double := SFadd 53 1024.
Definition sub : double -> double -> double := SFsub 53 1024.
Definition mul : double -> double -> double := SFmul 53 1024.
Definition div : double -> double -> double := SFdiv 53 1024.

  (** [a < b]; false when either is NaN. *)
Definition ltb : double -> double -> bool := SFltb.

  (** [Number.isFinite(a)]: neither an infinity nor NaN. *)
Definition isFinite (a : double) : bool :=
    match a with
    | S754_zero _ | S754_finite _ _ _ => true
    | S754_infinity _ | S754_nan => false
    end.

  (** The double nearest to a rational, ties to even: the double that has
      the value of the rational when there is one, and how a decimal literal
      is read. *)
Definition ofQ (q : Q) : double :=
    match Qnum q with
    | Z0 => S754_zero false
    | Zpos n =>
        let '(m, e, l) := SFdiv_core_binary 53 1024 (Zpos n) 0 (Zpos (Qden q)) 0 in
        binary_round_aux 53 1024 false m e l
    | Zneg n =>
        let '(m, e, l) := SFdiv_core_binary 53 1024 (Zpos n) 0 (Zpos (Qden q)) 0 in
        binary_round_aux 53 1024 true m e l
    end.

Definition ofZ (z : Z) : double := ofQ (inject_Z z).

End Double.

(** ** Values handed out by the graphics context *)

Definition WebGLShader := nat.
Definition WebGLProgram := nat.
Definition WebGLTexture := nat.
Definition WebGLBuffer := nat.
Definition WebGLUniformLocation := nat.

(** The two ways [setupCanvas] obtains a context. *)
Inductive WebGLRenderingContext := WebGL2 | ExperimentalWebGL.

Inductive GLenum :=
| VERTEX_SHADER | FRAGMENT_SHADER | COMPILE_STATUS | LINK_STATUS
| ARRAY_BUFFER | ELEMENT_ARRAY_BUFFER | STATIC_DRAW
| FLOAT | UNSIGNED_BYTE | UNSIGNED_SHORT
| TEXTURE_2D | TEXTURE_WRAP_S | TEXTURE_WRAP_T | TEXTURE_MIN_FILTER
| REPEAT | LINEAR | RGB | DEPTH_TEST | LINE_LOOP | TRIANGLES
| COLOR_BUFFER_BIT.

(** A 4x4 matrix as the 16 numbers of its Float32Array. *)
Definition Matrix := list Q.

(** What is uploaded to a buffer object. *)
Inductive BufferSource :=
| Float32Array (xs : list Q)
| Uint16Array (xs : list Z).

(** The value uploaded to [uvOffset] is [(Math.sin(2π·turn), 0)]; the sine is
    left symbolic and the fraction of the period is exact. *)
Inductive UvOffset := SinOfTurn (turn : Q).

(** Every call made on the context, with its arguments; calls that return a
    value carry the answer of the driver as [res]. *)
Inductive GLCall :=
| CreateShader (kind : GLenum) (res : option WebGLShader)
| ShaderSource (s : WebGLShader) (src : option string)
| CompileShader (s : WebGLShader)
| GetShaderParameter (s : WebGLShader) (pname : GLenum) (res : bool)
| GetShaderInfoLog (s : WebGLShader)
| CreateProgram (res : option WebGLProgram)
| AttachShader (p : WebGLProgram) (s : WebGLShader)
| LinkProgram (p : WebGLProgram)
| DeleteShader (s : WebGLShader)
| GetProgramParameter (p : WebGLProgram) (pname : GLenum) (res : bool)
| UseProgram (p : WebGLProgram)
| CreateBuffer (res : option WebGLBuffer)
| BindBuffer (target : GLenum) (b : option WebGLBuffer)
| BufferData (target : GLenum) (data : BufferSource) (usage : GLenum)
| GetAttribLocation (p : WebGLProgram) (name : string) (res : Z)
| EnableVertexAttribArray (loc : Z)
| VertexAttribPointer (loc size : Z) (type : GLenum) (normalized : bool)
    (stride offset : Z)
| GetUniformLocation (p : WebGLProgram) (name : string)
    (res : option WebGLUniformLocation)
| Uniform3fv (loc : WebGLUniformLocation) (data : list double)
| Uniform1i (loc : WebGLUniformLocation) (v : Z)
| Uniform2fv (loc : option WebGLUniformLocation) (v : UvOffset)
| UniformMatrix4fv (loc : option WebGLUniformLocation) (transpose : bool)
    (m : Matrix)
| CreateTexture (res : option WebGLTexture)
| ActiveTexture (unit : Z)
| BindTexture (target : GLenum) (t : WebGLTexture)
| TexParameteri (target pname param : GLenum)
| TexImage2D (target : GLenum) (level : Z) (internalformat : GLenum)
    (w h border : Z) (format type : GLenum) (pixels : list Byte.byte)
| GenerateMipmap (target : GLenum)
| DeleteTexture (t : WebGLTexture)
| Viewport (x y w h : Q)
| ClearColor (r g b a : Q)
| Clear (mask : GLenum)
| Enable (cap : GLenum)
| DrawElements (mode : GLenum) (count : Z) (type : GLenum) (offset : Z)
| Flush
| Finish.

(** What the driver answers.  Object creation is asked per allocation
    attempt; compile and link status, info logs and locations are asked per
    object, so any behaviour of a real driver is one such oracle. *)
Record Driver := {
  allocates : nat -> bool;
  compileStatus : WebGLShader -> bool;
  shaderInfoLog : WebGLShader -> string;
  linkStatus : WebGLProgram -> bool;
  uniformLocation : WebGLProgram -> string -> option WebGLUniformLocation;
  attribLocation : WebGLProgram -> string -> Z;
  canvasWidth : Z;
  canvasHeight : Z
}.

(** ** The collaborators whose classes the renderer only uses

    Of the classes that glCanvas imports only PPMFileLoader is among the
    sources.  The others are records of the fields that glCanvas reads or
    writes; what their methods do is taken from the spec, as said at each. *)

(** A decoded image: [PPM] with its [width], [height] and optional [data]. *)
Record PPM := {
  ppmWidth : Z;
  ppmHeight : Z;
  ppmData : option (list Byte.byte)
}.

(** [GLPointLight]: the two arrays its constructor is given. *)
Record GLPointLight := {
  position : list double;
  color : list double
}.

(** Modelled from the spec: the class GLLights is not among the sources; the
    spec says the light set is an ordered sequence of point lights that
    exposes flattened position and colour arrays, light i at [3i, 3i+3).
    An array is given by the numbers it is made of, in their order; how the
    class stores them is its own affair. *)
Definition GLLights := list GLPointLight.

Definition getPositionsFloat32 (ls : GLLights) : list double :=
  concat (map position ls).

Definition getColorsFloat32 (ls : GLLights) : list double :=
  concat (map color ls).

(** Modelled from the spec: the class Camera is not among the sources.  The
    spec says the camera provides the view and projection matrices,
    recomputed from the viewport dimensions on demand, has setters for the
    viewport width and height, a perspective flag and a solid/wireframe
    flag.  How a camera computes its matrices is its own affair: the two
    computations are fields, functions of the viewport width and height. *)
Record Camera := {
  usePerspective : bool;
  renderSolid : bool;
  viewPortWidth : Z;
  viewPortHeight : Z;
  computeProjectionMatrix : Z -> Z -> Matrix;
  computeViewMatrix : Z -> Z -> Matrix
}.

(** [camera.projectionMatrix] and [camera.viewMatrix]: computed, when asked
    for, from the viewport dimensions the camera has then. *)
Definition projectionMatrix (c : Camera) : Matrix :=
  computeProjectionMatrix c (viewPortWidth c) (viewPortHeight c).

Definition viewMatrix (c : Camera) : Matrix :=
  computeViewMatrix c (viewPortWidth c) (viewPortHeight c).

(** Modelled from the spec and from its uses: the class ModelGL is not among
    the sources.  The fields are those that glCanvas reads or writes; the
    getters [getVertexShaderName()], [getFragmentShaderName()] and
    [getModelMatrix()] read the field of their name. *)
Record ModelGL := {
  vertexShaderName : string;
  fragmentShaderName : string;
  renderingProgram : option WebGLProgram;
  hasDiffuseMap : bool;
  hasNormalMap : bool;
  diffuseTexture : option WebGLTexture;
  normalTexture : option WebGLTexture;
  textures : gmap string string;
  packedVertexBuffer : list Q;
  vertexIndices : list Z;
  vertexStride : Z;
  textureOffset : Z;
  normalOffset : Z;
  numTriangles : option nat;
  modelMatrix : Matrix
}.

Definition set_renderingProgram (p : option WebGLProgram) (m : ModelGL) : ModelGL :=
  {| vertexShaderName := vertexShaderName m;
     fragmentShaderName := fragmentShaderName m;
     renderingProgram := p;
     hasDiffuseMap := hasDiffuseMap m;
     hasNormalMap := hasNormalMap m;
     diffuseTexture := diffuseTexture m;
     normalTexture := normalTexture m;
     textures := textures m;
     packedVertexBuffer := packedVertexBuffer m;
     vertexIndices := vertexIndices m;
     vertexStride := vertexStride m;
     textureOffset := textureOffset m;
     normalOffset := normalOffset m;
     numTriangles := numTriangles m;
     modelMatrix := modelMatrix m |}.

Definition set_diffuseTexture (t : option WebGLTexture) (m : ModelGL) : ModelGL :=
  {| vertexShaderName := vertexShaderName m;
     fragmentShaderName := fragmentShaderName m;
     renderingProgram := renderingProgram m;
     hasDiffuseMap := hasDiffuseMap m;
     hasNormalMap := hasNormalMap m;
     diffuseTexture := t;
     normalTexture := normalTexture m;
     textures := textures m;
     packedVertexBuffer := packedVertexBuffer m;
     vertexIndices := vertexIndices m;
     vertexStride := vertexStride m;
     textureOffset := textureOffset m;
     normalOffset := normalOffset m;
     numTriangles := numTriangles m;
     modelMatrix := modelMatrix m |}.

Definition set_normalTexture (t : option WebGLTexture) (m : ModelGL) : ModelGL :=
  {| vertexShaderName := vertexShaderName m;
     fragmentShaderName := fragmentShaderName m;
     renderingProgram := renderingProgram m;
     hasDiffuseMap := hasDiffuseMap m;
     hasNormalMap := hasNormalMap m;
     diffuseTexture := diffuseTexture m;
     normalTexture := t;
     textures := textures m;
     packedVertexBuffer := packedVertexBuffer m;
     vertexIndices := vertexIndices m;
     vertexStride := vertexStride m;
     textureOffset := textureOffset m;
     normalOffset := normalOffset m;
     numTriangles := numTriangles m;
     modelMatrix := modelMatrix m |}.

(** [camera.setViewPortWidth(w)] and [camera.setViewPortHeight(h)], from the
    spec as well: the dimension is stored, and the matrices asked for
    afterwards are computed from it. *)
Definition setViewPortWidth (w : Z) (c : Camera) : Camera :=
  {| usePerspective := usePerspective c;
     renderSolid := renderSolid c;
     viewPortWidth := w;
     viewPortHeight := viewPortHeight c;
     computeProjectionMatrix := computeProjectionMatrix c;
     computeViewMatrix := computeViewMatrix c |}.

Definition setViewPortHeight (h : Z) (c : Camera) : Camera :=
  {| usePerspective := usePerspective c;
     renderSolid := renderSolid c;
     viewPortWidth := viewPortWidth c;
     viewPortHeight := h;
     computeProjectionMatrix := computeProjectionMatrix c;
     computeViewMatrix := computeViewMatrix c |}.

(** [SceneData]: the process-wide holder. *)
Record SceneData := {
  glContext : option WebGLRenderingContext;
  model : option ModelGL;
  camera : option Camera;
  lights : option GLLights;
  width : Z;
  height : Z;
  sceneFrameNumber : nat
}.

(** What a [fetch] of the loader resolves to. *)
Inductive FetchResult :=
| NetworkError (e : string)
| Response (ok : bool) (body : string).

Inductive ConsoleLine :=
| ConsoleLog (s : string)
| ConsoleError (s : string).

(** ** The world *)

Record World := {
  sceneData : SceneData;
  (* let fps, lastTime, frameNumber of glCanvas *)
  fps : nat;
  lastTime : Q;
  frameNumber : nat;
  (* ShaderManager *)
  shaderSourceCodeMap : gmap string string;
  (* the PPMFileLoader singleton *)
  modelCache : gmap string PPM;
  (* the graphics context *)
  driver : Driver;
  glCalls : list GLCall;
  glNext : nat;
  (* the host: console, performance.now, fetch, requestAnimationFrame *)
  console : list ConsoleLine;
  clock : nat -> Q;
  clockReads : nat;
  network : string -> FetchResult;
  parsePPM : string -> PPM;
  fetched : list string;
  animationFrames : nat
}.

(** Field updates of [SceneData] and [World]. *)

Definition set_model (m : option ModelGL) (s : SceneData) : SceneData :=
  {| glContext := glContext s; model := m; camera := camera s;
     lights := lights s; width := width s; height := height s;
     sceneFrameNumber := sceneFrameNumber s |}.

Definition set_camera (c : option Camera) (s : SceneData) : SceneData :=
  {| glContext := glContext s; model := model s; camera := c;
     lights := lights s; width := width s; height := height s;
     sceneFrameNumber := sceneFrameNumber s |}.

Definition set_sceneFrameNumber (n : nat) (s : SceneData) : SceneData :=
  {| glContext := glContext s; model := model s; camera := camera s;
     lights := lights s; width := width s; height := height s;
     sceneFrameNumber := n |}.

Definition set_sceneData (s : SceneData) (w : World) : World :=
  {| sceneData := s;
     fps := fps w; lastTime := lastTime w; frameNumber := frameNumber w;
     shaderSourceCodeMap := shaderSourceCodeMap w; modelCache := modelCache w;
     driver := driver w; glCalls := glCalls w; glNext := glNext w;
     console := console w; clock := clock w; clockReads := clockReads w;
     network := network w; parsePPM := parsePPM w; fetched := fetched w;
     animationFrames := animationFrames w |}.

Definition set_counters (f : nat) (t : Q) (n : nat) (w : World) : World :=
  {| sceneData := sceneData w;
     fps := f; lastTime := t; frameNumber := n;
     shaderSourceCodeMap := shaderSourceCodeMap w; modelCache := modelCache w;
     driver := driver w; glCalls := glCalls w; glNext := glNext w;
     console := console w; clock := clock w; clockReads := clockReads w;
     network := network w; parsePPM := parsePPM w; fetched := fetched w;
     animationFrames := animationFrames w |}.

Definition set_modelCache (c : gmap string PPM) (w : World) : World :=
  {| sceneData := sceneData w;
     fps := fps w; lastTime := lastTime w; frameNumber := frameNumber w;
     shaderSourceCodeMap := shaderSourceCodeMap w; modelCache := c;
     driver := driver w; glCalls := glCalls w; glNext := glNext w;
     console := console w; clock := clock w; clockReads := clockReads w;
     network := network w; parsePPM := parsePPM w; fetched := fetched w;
     animationFrames := animationFrames w |}.

Definition set_gl (calls : list GLCall) (next : nat) (w : World) : World :=
  {| sceneData := sceneData w;
     fps := fps w; lastTime := lastTime w; frameNumber := frameNumber w;
     shaderSourceCodeMap := shaderSourceCodeMap w; modelCache := modelCache w;
     driver := driver w; glCalls := calls; glNext := next;
     console := console w; clock := clock w; clockReads := clockReads w;
     network := network w; parsePPM := parsePPM w; fetched := fetched w;
     animationFrames := animationFrames w |}.

Definition set_console (c : list ConsoleLine) (w : World) : World :=
  {| sceneData := sceneData w;
     fps := fps w; lastTime := lastTime w; frameNumber := frameNumber w;
     shaderSourceCodeMap := shaderSourceCodeMap w; modelCache := modelCache w;
     driver := driver w; glCalls := glCalls w; glNext := glNext w;
     console := c; clock := clock w; clockReads := clockReads w;
     network := network w; parsePPM := parsePPM w; fetched := fetched w;
     animationFrames := animationFrames w |}.

Definition set_clockReads (n : nat) (w : World) : World :=
  {| sceneData := sceneData w;
     fps := fps w; lastTime := lastTime w; frameNumber := frameNumber w;
     shaderSourceCodeMap := shaderSourceCodeMap w; modelCache := modelCache w;
     driver := driver w; glCalls := glCalls w; glNext := glNext w;
     console := console w; clock := clock w; clockReads := n;
     network := network w; parsePPM := parsePPM w; fetched := fetched w;
     animationFrames := animationFrames w |}.

Definition set_fetched (l : list string) (w : World) : World :=
  {| sceneData := sceneData w;
     fps := fps w; lastTime := lastTime w; frameNumber := frameNumber w;
     shaderSourceCodeMap := shaderSourceCodeMap w; modelCache := modelCache w;
     driver := driver w; glCalls := glCalls w; glNext := glNext w;
     console := console w; clock := clock w; clockReads := clockReads w;
     network := network w; parsePPM := parsePPM w; fetched := l;
     animationFrames := animationFrames w |}.

Definition set_animationFrames (n : nat) (w : World) : World :=
  {| sceneData := sceneData w;
     fps := fps w; lastTime := lastTime w; frameNumber := frameNumber w;
     shaderSourceCodeMap := shaderSourceCodeMap w; modelCache := modelCache w;
     driver := driver w; glCalls := glCalls w; glNext := glNext w;
     console := console w; clock := clock w; clockReads := clockReads w;
     network := network w; parsePPM := parsePPM w; fetched := fetched w;
     animationFrames := n |}.

(** ** The monad of JavaScript statements *)

Inductive Completion (A : Type) :=
| Normal (a : A)
| Throw (e : string).
Arguments Normal {A} a.
Arguments Throw {A} e.

Definition JS (A : Type) : Type := World -> Completion A * World.

#[global] Instance JS_ret : MRet JS := fun A a w => (Normal a, w).

#[global] Instance JS_bind : MBind JS := fun A B k m w =>
  match m w with
  | (Normal a, w') => k a w'
  | (Throw e, w') => (Throw e, w')
  end.

Definition throw {A} (e : string) : JS A := fun w => (Throw e, w).
Definition get : JS World := fun w => (Normal w, w).
Definition modify (f : World -> World) : JS unit := fun w => (Normal tt, f w).

(** The state in which a statement leaves the world, and its completion. *)
Definition after {A} (m : JS A) (w : World) : World := (m w).2.
Definition completion {A} (m : JS A) (w : World) : Completion A := (m w).1.

(** *** The host *)

Definition console_log (s : string) : JS unit :=
  modify (fun w => set_console (console w ++ [ConsoleLog s]) w).

Definition console_error (s : string) : JS unit :=
  modify (fun w => set_console (console w ++ [ConsoleError s]) w).

(** [performance.now()]: each read takes the next value of the clock. *)
Definition performance_now : JS Q :=
  fun w => (Normal (clock w (clockReads w)), set_clockReads (S (clockReads w)) w).

(** [requestAnimationFrame(renderLoop)]: one more frame is scheduled. *)
Definition requestAnimationFrame : JS unit :=
  modify (fun w => set_animationFrames (S (animationFrames w)) w).

(** *** The scene *)

Definition getModel : JS (option ModelGL) := fun w => (Normal (model (sceneData w)), w).
Definition getCamera : JS (option Camera) := fun w => (Normal (camera (sceneData w)), w).

Definition putModel (m : option ModelGL) : JS unit :=
  modify (fun w => set_sceneData (set_model m (sceneData w)) w).

Definition putCamera (c : option Camera) : JS unit :=
  modify (fun w => set_sceneData (set_camera c (sceneData w)) w).

(** *** The graphics context *)

(** A call that returns nothing: it is appended to the log. *)
Definition glCall (c : GLCall) : JS unit :=
  modify (fun w => set_gl (glCalls w ++ [c]) (glNext w) w).

(** A creation call: the driver allocates the next handle or answers null. *)
Definition glCreate (call : option nat -> GLCall) : JS (option nat) :=
  fun w =>
    let res := if allocates (driver w) (glNext w) then Some (glNext w) else None in
    (Normal res, set_gl (glCalls w ++ [call res]) (S (glNext w)) w).

(** A query: the answer of the driver is returned and logged. *)
Definition glQuery {A} (answer : Driver -> A) (call : A -> GLCall) : JS A :=
  fun w =>
    let res := answer (driver w) in
    (Normal res, set_gl (glCalls w ++ [call res]) (glNext w) w).

(** ** PPMFileLoader *)

Module PPMFileLoader.

Definition URLPrefix : string := "http://localhost:8080/objects/".

  (** [loadIntoCache]: the promise chain run to its settlement.  A cache hit
      resolves to the cached image.  Otherwise the file is fetched; a
      response that is ok is parsed and stored under the path, any failure is
      logged by the [catch], and the promise resolves to undefined either
      way, since the awaited chain is not returned. *)
Definition loadIntoCache (textureFilePath : string) : JS (option PPM) :=
    w ← get;
    match modelCache w !! textureFilePath with
    | Some image =>
        console_log (textureFilePath +:+ " already loaded");;
        mret (Some image)
    | None =>
        console_log (">>>>>>>loading into cache" +:+ textureFilePath);;
        let fullPath := URLPrefix +:+ textureFilePath in
        console_log fullPath;;
        modify (fun w => set_fetched (fetched w ++ [fullPath]) w);;
        match network w fullPath with
        | Response true data =>
            let image := parsePPM w data in
            modify (fun w => set_modelCache (<[textureFilePath := image]> (modelCache w)) w);;
            console_log (">>>>>>>loaded into cache " +:+ textureFilePath);;
            mret None
        | Response false _ =>
            console_log "Error: Network response was not ok";;
            mret None
        | NetworkError e =>
            console_log e;;
            mret None
        end
    end.

  (** [loadFile]: [has] then [get] on the cache. *)
Definition loadFile (textureFilePath : string) : JS (option PPM) :=
    w ← get;
    match modelCache w !! textureFilePath with
    | Some image =>
        console_log (textureFilePath +:+ " already loaded");;
        mret (Some image)
    | None => mret None
    end.

End PPMFileLoader.

(** ** glCanvas *)

(** [sceneData.model.f = v]: a write through the scene's model. *)
Definition updateModel (f : ModelGL -> ModelGL) : JS unit :=
  fun w =>
    match model (sceneData w) with
    | Some m => (Normal tt, set_sceneData (set_model (Some (f m)) (sceneData w)) w)
    | None => (Throw "TypeError: sceneData.model is null", w)
    end.

(** [camera.setViewPortWidth(v)]: a method that changes the scene's camera. *)
Definition updateCamera (f : Camera -> Camera) : JS unit :=
  fun w =>
    match camera (sceneData w) with
    | Some c => (Normal tt, set_sceneData (set_camera (Some (f c)) (sceneData w)) w)
    | None => (Throw "TypeError: camera is null", w)
    end.

Definition showSource (src : option string) : string :=
  default "undefined" src.

Definition compileProgram (gl : option WebGLRenderingContext) : JS (option WebGLProgram) :=
  m ← getModel;
  match m with
  | None => mret None
  | Some m =>
  match renderingProgram m with
  | Some p => mret (Some p)
  | None =>
  c ← getCamera;
  match c with
  | None => mret None
  | Some _ =>
  match gl with
  | None => mret None
  | Some _ =>
  let vertexShaderName := vertexShaderName m in
  let fragmentShaderName := fragmentShaderName m in
  console_log ("Compiling " +:+ vertexShaderName +:+ " and " +:+ fragmentShaderName);;
  (* the vertex shader *)
  vertexShaderProgram ← glCreate (CreateShader VERTEX_SHADER);
  match vertexShaderProgram with
  | None => throw "Failed to create vertex shader"
  | Some vertexShaderProgram =>
  w ← get;
  let vertexShader := shaderSourceCodeMap w !! vertexShaderName in
  glCall (ShaderSource vertexShaderProgram vertexShader);;
  glCall (CompileShader vertexShaderProgram);;
  vertexShaderCompiled ←
    glQuery (fun d => compileStatus d vertexShaderProgram)
            (GetShaderParameter vertexShaderProgram COMPILE_STATUS);
  if negb vertexShaderCompiled then
    console_log (showSource vertexShader);;
    console_log ("tried to compile " +:+ vertexShaderName);;
    info ← glQuery (fun d => shaderInfoLog d vertexShaderProgram)
                   (fun _ => GetShaderInfoLog vertexShaderProgram);
    console_log info;;
    console_error "Failed to compile vertex shader";;
    mret None
  else
  (* the fragment shader *)
  fragmentShaderObject ← glCreate (CreateShader FRAGMENT_SHADER);
  match fragmentShaderObject with
  | None => throw "Failed to create fragment shader"
  | Some fragmentShaderObject =>
  let fragmentShader := shaderSourceCodeMap w !! fragmentShaderName in
  glCall (ShaderSource fragmentShaderObject fragmentShader);;
  glCall (CompileShader fragmentShaderObject);;
  fragmentShaderCompiled ←
    glQuery (fun d => compileStatus d fragmentShaderObject)
            (GetShaderParameter fragmentShaderObject COMPILE_STATUS);
  if negb fragmentShaderCompiled then
    console_log (showSource fragmentShader);;
    console_log ("tried to compile " +:+ fragmentShaderName);;
    info ← glQuery (fun d => shaderInfoLog d fragmentShaderObject)
                   (fun _ => GetShaderInfoLog fragmentShaderObject);
    console_log info;;
    console_error "Failed to compile fragment shader";;
    mret None
  else
  (* the program *)
  shaderProgram ← glCreate CreateProgram;
  match shaderProgram with
  | None => throw "Failed to create shader program"
  | Some shaderProgram =>
  glCall (AttachShader shaderProgram vertexShaderProgram);;
  glCall (AttachShader shaderProgram fragmentShaderObject);;
  glCall (LinkProgram shaderProgram);;
  glCall (DeleteShader vertexShaderProgram);;
  glCall (DeleteShader fragmentShaderObject);;
  shaderProgramLinked ←
    glQuery (fun d => linkStatus d shaderProgram)
            (GetProgramParameter shaderProgram LINK_STATUS);
  if negb shaderProgramLinked then
    console_error "Failed to link shader program";;
    mret None
  else
  (* cache the shader program *)
  updateModel (set_renderingProgram (Some shaderProgram));;
  mret (Some shaderProgram)
  end end end end end end end.

Definition setUpLights (gl : option WebGLRenderingContext)
    (shaderProgram : WebGLProgram) : JS unit :=
  match gl with
  | None => mret tt
  | Some _ =>
  w ← get;
  match lights (sceneData w) with
  | None => mret tt
  | Some lights =>
  m ← getModel;
  match m with
  | None => throw "TypeError: sceneData.model is null"
  | Some m =>
  if negb (String.eqb (vertexShaderName m) "vertexTextureNormalNormalMapShader") then
    mret tt
  else
  lightPositionsLocation ←
    glQuery (fun d => uniformLocation d shaderProgram "lightsUniform")
            (GetUniformLocation shaderProgram "lightsUniform");
  match lightPositionsLocation with
  | None => throw "Failed to get the storage location of hack"
  | Some lightPositionsLocation =>
  glCall (Uniform3fv lightPositionsLocation (getPositionsFloat32 lights));;
  lightColorsLocation ←
    glQuery (fun d => uniformLocation d shaderProgram "lightColors")
            (GetUniformLocation shaderProgram "lightColors");
  match lightColorsLocation with
  | None => throw "Failed to get the storage location of lightColor"
  | Some lightColorsLocation =>
  glCall (Uniform3fv lightColorsLocation (getColorsFloat32 lights))
  end end end end end.

(** [model] is, at every call, the scene's model: the parameter is that
    object and its fields are read from the world. *)
Definition setUpTexture (gl : option WebGLRenderingContext)
    (shaderProgram : WebGLProgram) (textureUnit : Z)
    (textureType samplerName : string) : JS (option WebGLTexture) :=
  match gl with
  | None => mret None
  | Some _ =>
  model ← getModel;
  match model with
  | None => mret None
  | Some model =>
  texCoordLocation ←
    glQuery (fun d => attribLocation d shaderProgram "textureCoord")
            (GetAttribLocation shaderProgram "textureCoord");
  (if (texCoordLocation =? -1)%Z
   then console_log "Failed to get the storage location of texCoord"
   else mret tt);;
  glCall (EnableVertexAttribArray texCoordLocation);;
  glCall (VertexAttribPointer texCoordLocation 2 FLOAT false
            (vertexStride model) (textureOffset model));;
  texture ← glCreate CreateTexture;
  match texture with
  | None => console_log "Failed to create the texture object";; mret None
  | Some texture =>
  glCall (ActiveTexture textureUnit);;
  glCall (BindTexture TEXTURE_2D texture);;
  glCall (TexParameteri TEXTURE_2D TEXTURE_WRAP_S REPEAT);;
  glCall (TexParameteri TEXTURE_2D TEXTURE_WRAP_T REPEAT);;
  glCall (TexParameteri TEXTURE_2D TEXTURE_MIN_FILTER LINEAR);;
  let diffuseTextureName := textures model !! textureType in
  ppmIMG ← match diffuseTextureName with
           | Some name => PPMFileLoader.loadFile name
           | None => mret None
           end;
  match ppmIMG with
  | None => console_log "ppmFile is undefined";; mret None
  | Some ppmIMG =>
  match ppmData ppmIMG with
  | None => console_log "ppmFile.data is undefined";; mret None
  | Some data =>
  textureLocation ←
    glQuery (fun d => uniformLocation d shaderProgram samplerName)
            (GetUniformLocation shaderProgram samplerName);
  match textureLocation with
  | None =>
      throw ("The sampler name " +:+ samplerName +:+ " was not found in the program")
  | Some textureLocation =>
  glCall (Uniform1i textureLocation textureUnit);;
  glCall (TexImage2D TEXTURE_2D 0 RGB (ppmWidth ppmIMG) (ppmHeight ppmIMG) 0
            RGB UNSIGNED_BYTE data);;
  glCall (GenerateMipmap TEXTURE_2D);;
  mret (Some texture)
  end end end end end end.

Definition period : Q := 25000.

(** The block of [setUpTextures] for the diffuse map. *)
Definition setUpTextures_diffuse (gl : option WebGLRenderingContext)
    (shaderProgram : WebGLProgram) (model : ModelGL) : JS unit :=
  if hasDiffuseMap model then
    (match diffuseTexture model with
     | None =>
         t ← setUpTexture gl shaderProgram 0 "map_Kd" "textureSampler";
         updateModel (set_diffuseTexture t)
     | Some _ => mret tt
     end);;
    t ← (m ← getModel;
         match m with
         | Some m => mret (diffuseTexture m)
         | None => throw "TypeError: model is null"
         end);
    match t with
    | None =>
        throw "Failed to set up diffuse texture, it was expected to be there but it was not"
    | Some _ => mret tt
    end
  else mret tt.

(** The block of [setUpTextures] for the normal map and its moving offset. *)
Definition setUpTextures_normal (gl : option WebGLRenderingContext)
    (shaderProgram : WebGLProgram) (model : ModelGL) : JS unit :=
  if hasNormalMap model then
    (match normalTexture model with
     | None =>
         t ← setUpTexture gl shaderProgram 1 "map_Bump" "normalSampler";
         updateModel (set_normalTexture t)
     | Some _ => mret tt
     end);;
    t ← (m ← getModel;
         match m with
         | Some m => mret (normalTexture m)
         | None => throw "TypeError: model is null"
         end);
    match t with
    | None =>
        throw "Failed to set up normal texture, it was expected to be there but it was not"
    | Some _ =>
    uvOffsetLocation ←
      glQuery (fun d => uniformLocation d shaderProgram "uvOffset")
              (GetUniformLocation shaderProgram "uvOffset");
    now ← performance_now;
    let now := jsRem now period in
    let turn := jsDiv now period in
    glCall (Uniform2fv uvOffsetLocation (SinOfTurn turn))
    end
  else mret tt.

Definition setUpTextures (gl : option WebGLRenderingContext)
    (shaderProgram : WebGLProgram) : JS bool :=
  match gl with
  | None => mret false
  | Some _ =>
  model ← getModel;
  match model with
  | None => mret false
  | Some model =>
  setUpTextures_diffuse gl shaderProgram model;;
  setUpTextures_normal gl shaderProgram model;;
  mret true
  end end.

Definition cleanUpTextures (gl : option WebGLRenderingContext) : JS unit :=
  match gl with
  | None => mret tt
  | Some _ =>
  model ← getModel;
  match model with
  | None => mret tt
  | Some model =>
  (if hasDiffuseMap model then
     match diffuseTexture model with
     | Some t =>
         glCall (DeleteTexture t);;
         updateModel (set_diffuseTexture None)
     | None => mret tt
     end
   else mret tt);;
  if hasNormalMap model then
    match normalTexture model with
    | Some t =>
        glCall (DeleteTexture t);;
        updateModel (set_normalTexture None)
    | None => mret tt
    end
  else mret tt
  end end.

Definition setUpVertexBuffer (shaderProgram : WebGLProgram) : JS unit :=
  model ← getModel;
  match model with
  | None => throw "TypeError: model is null"
  | Some model =>
  positionBuffer ← glCreate CreateBuffer;
  glCall (BindBuffer ARRAY_BUFFER positionBuffer);;
  glCall (BufferData ARRAY_BUFFER (Float32Array (packedVertexBuffer model)) STATIC_DRAW);;
  indexBuffer ← glCreate CreateBuffer;
  glCall (BindBuffer ELEMENT_ARRAY_BUFFER indexBuffer);;
  glCall (BufferData ELEMENT_ARRAY_BUFFER (Uint16Array (vertexIndices model)) STATIC_DRAW);;
  positionLocation ←
    glQuery (fun d => attribLocation d shaderProgram "position")
            (GetAttribLocation shaderProgram "position");
  glCall (EnableVertexAttribArray positionLocation);;
  glCall (VertexAttribPointer positionLocation 3 FLOAT false (vertexStride model) 0)
  end.

(** [s.includes(sub)] *)
Definition includes (sub s : string) : bool :=
  match String.index 0 sub s with
  | Some _ => true
  | None => false
  end.

(** [for (let i = 0; i < n; i++) body(i)], with the number of tests of the
    loop condition as fuel. *)
Fixpoint forLoop (fuel : nat) (i n : nat) (body : nat -> JS unit) : JS unit :=
  match fuel with
  | O => mret tt
  | S fuel =>
      if (i <? n)%nat then body i;; forLoop fuel (S i) n body else mret tt
  end.

(** *** The steps of [renderLoop] *)

(** The normal attribute, for a vertex shader whose name includes Normal. *)
Definition renderLoop_normal (shaderProgram : WebGLProgram) (model : ModelGL) : JS unit :=
  if includes "Normal" (vertexShaderName model) then
    normalLocation ←
      glQuery (fun d => attribLocation d shaderProgram "normal")
              (GetAttribLocation shaderProgram "normal");
    glCall (EnableVertexAttribArray normalLocation);;
    glCall (VertexAttribPointer normalLocation 3 FLOAT false
              (vertexStride model) (normalOffset model))
  else mret tt.

(** The camera and model matrices. *)
Definition renderLoop_matrices (shaderProgram : WebGLProgram) : JS unit :=
  w ← get;
  updateCamera (setViewPortWidth (width (sceneData w)));;
  updateCamera (setViewPortHeight (height (sceneData w)));;
  c ← getCamera;
  match c with
  | None => throw "TypeError: camera is null"
  | Some camera =>
  projectionMatrixLocation ←
    glQuery (fun d => uniformLocation d shaderProgram "projectionMatrix")
            (GetUniformLocation shaderProgram "projectionMatrix");
  glCall (UniformMatrix4fv projectionMatrixLocation false (projectionMatrix camera));;
  viewMatrixLocation ←
    glQuery (fun d => uniformLocation d shaderProgram "viewMatrix")
            (GetUniformLocation shaderProgram "viewMatrix");
  glCall (UniformMatrix4fv viewMatrixLocation false (viewMatrix camera));;
  m ← getModel;
  match m with
  | None => throw "TypeError: model is null"
  | Some model =>
  modelMatrixLocation ←
    glQuery (fun d => uniformLocation d shaderProgram "modelMatrix")
            (GetUniformLocation shaderProgram "modelMatrix");
  glCall (UniformMatrix4fv modelMatrixLocation false (modelMatrix model))
  end end.

(** [sceneData.frameNumber++] *)
Definition nextSceneFrameNumber : JS nat :=
  fun w =>
    let n := sceneFrameNumber (sceneData w) in
    (Normal n, set_sceneData (set_sceneFrameNumber (S n) (sceneData w)) w).

(** The full-canvas viewport and the clear colour. *)
Definition renderLoop_clear : JS unit :=
  w ← get;
  let cw := canvasWidth (driver w) in
  let ch := canvasHeight (driver w) in
  glCall (Viewport 0 0 (inject_Z cw) (inject_Z ch));;
  n ← nextSceneFrameNumber;
  let color := jsDiv (inject_Z (Z.of_nat n mod 255)) 255 in
  glCall (ClearColor color (1 # 5) (3 # 5) (1 # 10)).

(** The viewport of the frame. *)
Definition renderLoop_viewport : JS unit :=
  w ← get;
  let cw := canvasWidth (driver w) in
  let ch := canvasHeight (driver w) in
  match camera (sceneData w) with
  | None => throw "TypeError: sceneData.camera is null"
  | Some camera =>
  if negb (usePerspective camera) then
    let squareSize := cw in
    let squareSize := if (cw >? ch)%Z then ch else squareSize in
    let xOffset := jsDiv (inject_Z (cw - squareSize)) 2 in
    let yOffset := jsDiv (inject_Z (ch - squareSize)) 2 in
    glCall (Viewport xOffset yOffset (inject_Z squareSize) (inject_Z squareSize))
  else
    glCall (Viewport 0 0 (inject_Z cw) (inject_Z ch))
  end.

(** The draw calls. *)
Definition renderLoop_draw : JS unit :=
  w ← get;
  match camera (sceneData w), model (sceneData w) with
  | Some camera, Some model =>
      if negb (renderSolid camera) then
        let n := default 0%nat (numTriangles model) in
        forLoop (S n) 0 n (fun i =>
          let index := (Z.of_nat i * 3)%Z in
          glCall (DrawElements LINE_LOOP 3 UNSIGNED_SHORT (index * 2)))
      else
        glCall (DrawElements TRIANGLES (Z.of_nat (length (vertexIndices model)))
                  UNSIGNED_SHORT 0)
  | _, _ => throw "TypeError: camera or model is null"
  end.

(** [a - b] of two numbers kept as rationals: the difference of the doubles,
    rounded as a double is. *)
Definition jsSub (a b : Q) : double := Double.sub (Double.ofQ a) (Double.ofQ b).

(** [a > b] for a double and a whole number. *)
Definition jsGt (a : double) (b : Z) : bool := Double.ltb (Double.ofZ b) a.

(** The frame counter and the frames per second. *)
Definition renderLoop_fps : JS unit :=
  modify (fun w => set_counters (fps w) (lastTime w) (S (frameNumber w)) w);;
  now ← performance_now;
  w ← get;
  if jsGt (jsSub now (lastTime w)) 1000 then
    modify (fun w => set_counters (frameNumber w) (lastTime w) (frameNumber w) w);;
    w ← get;
    console_log ("FPS: " +:+ pretty (fps w));;
    modify (fun w => set_counters (fps w) (lastTime w) 0 w);;
    modify (fun w => set_counters (fps w) now (frameNumber w) w)
  else mret tt.

Definition renderLoop : JS unit :=
  w ← get;
  match glContext (sceneData w) with
  | None => mret tt
  | Some gl =>
  match model (sceneData w) with
  | None => mret tt
  | Some model =>
  match camera (sceneData w) with
  | None => mret tt
  | Some _ =>
  shaderProgram ← compileProgram (Some gl);
  match shaderProgram with
  | None => mret tt
  | Some shaderProgram =>
  glCall (UseProgram shaderProgram);;
  setUpVertexBuffer shaderProgram;;
  setUpLights (Some gl) shaderProgram;;
  setUpTextures (Some gl) shaderProgram;;
  renderLoop_normal shaderProgram model;;
  renderLoop_matrices shaderProgram;;
  renderLoop_clear;;
  renderLoop_viewport;;
  glCall (Enable DEPTH_TEST);;
  renderLoop_draw;;
  glCall Flush;;
  glCall Finish;;
  renderLoop_fps;;
  requestAnimationFrame
  end end end end.

(** The model handed to [updateSceneData] is a reference: null, the very
    object that the scene holds (the caller hands [sceneData.model] back),
    or another object, given by its fields. *)
Inductive ModelRef :=
| NullModel
| SceneModel
| OtherModel (m : ModelGL).

(** The object behind a reference, as it is when the reference is used. *)
Definition deref (r : ModelRef) : JS (option ModelGL) :=
  fun w =>
    (Normal match r with
            | NullModel => None
            | SceneModel => model (sceneData w)
            | OtherModel m => Some m
            end, w).

(** [updateSceneData].  [cleanUpTextures] writes to the object the scene
    holds, so a model that is this object is stored as the clean-up left it.
    Nothing writes to the camera before it is stored: [camera] is the object
    passed as it is at the call. *)
Definition updateSceneData (model : ModelRef) (camera : option Camera) : JS unit :=
  w ← get;
  cleanUpTextures (glContext (sceneData w));;
  putCamera camera;;
  model ← deref model;
  putModel model;;
  match model, camera with
  | Some _, Some _ => renderLoop
  | _, _ => mret tt
  end.

(** ** What a statement did *)

(** The calls a statement made on the graphics context, oldest first. *)
Definition issued {A} (m : JS A) (w : World) : list GLCall :=
  drop (length (glCalls w)) (glCalls (after m w)).

(** The lines a statement wrote on the console. *)
Definition logged {A} (m : JS A) (w : World) : list ConsoleLine :=
  drop (length (console w)) (console (after m w)).

Definition isDraw (c : GLCall) : bool :=
  match c with DrawElements _ _ _ _ => true | _ => false end.


Definition isUniformWrite (c : GLCall) : bool :=
  match c with
  | Uniform3fv _ _ | Uniform1i _ _ | Uniform2fv _ _ | UniformMatrix4fv _ _ _ => true
  | _ => false
  end.

(** ** A concrete scene *)

Module Sample.

  (** A driver on which everything succeeds, for an 800x600 canvas. *)
Definition willing : Driver :=
    {| allocates := fun _ => true;
       compileStatus := fun _ => true;
       shaderInfoLog := fun _ => "";
       linkStatus := fun _ => true;
       uniformLocation := fun _ name => Some (String.length name);
       attribLocation := fun _ name => Z.of_nat (String.length name);
       canvasWidth := 800;
       canvasHeight := 600 |}.

  (** A driver whose shader compiler rejects every source. *)
Definition rejecting : Driver :=
    {| allocates := fun _ => true;
       compileStatus := fun _ => false;
       shaderInfoLog := fun _ => "ERROR: 0:1: syntax error";
       linkStatus := fun _ => true;
       uniformLocation := fun _ name => Some (String.length name);
       attribLocation := fun _ name => Z.of_nat (String.length name);
       canvasWidth := 800;
       canvasHeight := 600 |}.

  (** A driver whose programs declare no uniform at all. *)
Definition bare : Driver :=
    {| allocates := fun _ => true;
       compileStatus := fun _ => true;
       shaderInfoLog := fun _ => "";
       linkStatus := fun _ => true;
       uniformLocation := fun _ _ => None;
       attribLocation := fun _ _ => (-1)%Z;
       canvasWidth := 600;
       canvasHeight := 800 |}.

  (** A driver whose programs declare every uniform but the samplers. *)
Definition unsampled : Driver :=
    {| allocates := fun _ => true;
       compileStatus := fun _ => true;
       shaderInfoLog := fun _ => "";
       linkStatus := fun _ => true;
       uniformLocation := fun _ name =>
         if includes "Sampler" name then None else Some (String.length name);
       attribLocation := fun _ name => Z.of_nat (String.length name);
       canvasWidth := 800;
       canvasHeight := 600 |}.

  (** A driver whose programs declare every uniform but [normalSampler]. *)
Definition flat : Driver :=
    {| allocates := fun _ => true;
       compileStatus := fun _ => true;
       shaderInfoLog := fun _ => "";
       linkStatus := fun _ => true;
       uniformLocation := fun _ name =>
         if String.eqb name "normalSampler" then None else Some (String.length name);
       attribLocation := fun _ name => Z.of_nat (String.length name);
       canvasWidth := 800;
       canvasHeight := 600 |}.

Definition brick : PPM :=
    {| ppmWidth := 1; ppmHeight := 1;
       ppmData := Some [Byte.xff; Byte.x80; Byte.x00] |}.

  (** A quad of two triangles with a diffuse map and a normal map. *)
Definition quad : ModelGL :=
    {| vertexShaderName := "vertexTextureNormalNormalMapShader";
       fragmentShaderName := "fragmentTextureNormalNormalMapShader";
       renderingProgram := None;
       hasDiffuseMap := true;
       hasNormalMap := true;
       diffuseTexture := None;
       normalTexture := None;
       textures := {[ "map_Kd" := "brick.ppm"; "map_Bump" := "brick_normal.ppm" ]};
       packedVertexBuffer := [];
       vertexIndices := [0; 1; 2; 0; 2; 3]%Z;
       vertexStride := 32;
       textureOffset := 12;
       normalOffset := 20;
       numTriangles := Some 2%nat;
       modelMatrix := [] |}.

  (** The same quad without maps, for a vertex shader of the given name. *)
Definition unmapped (vertexShader : string) : ModelGL :=
    {| vertexShaderName := vertexShader;
       fragmentShaderName := "fragmentTextureNormalShader";
       renderingProgram := None;
       hasDiffuseMap := false;
       hasNormalMap := false;
       diffuseTexture := None;
       normalTexture := None;
       textures := ∅;
       packedVertexBuffer := [];
       vertexIndices := [0; 1; 2; 0; 2; 3]%Z;
       vertexStride := 32;
       textureOffset := 12;
       normalOffset := 20;
       numTriangles := Some 2%nat;
       modelMatrix := [] |}.

  (** The shader pair of the sources: textured, lit by the vertex normals. *)
Definition plain : ModelGL := unmapped "vertexTextureNormalShader".

  (** Cameras whose projection matrix shows the viewport it was computed
      for. *)
Definition ortho : Camera :=
    {| usePerspective := false; renderSolid := true;
       viewPortWidth := 0; viewPortHeight := 0;
       computeProjectionMatrix := fun w h => [inject_Z w; inject_Z h];
       computeViewMatrix := fun _ _ => [] |}.

Definition wire : Camera :=
    {| usePerspective := true; renderSolid := false;
       viewPortWidth := 0; viewPortHeight := 0;
       computeProjectionMatrix := fun w h => [inject_Z w; inject_Z h];
       computeViewMatrix := fun _ _ => [] |}.

Definition twoLights : GLLights :=
    [ {| position := Double.ofZ <$> [5; 5; -5]; color := Double.ofZ <$> [1; 1; 1] |};
      {| position := Double.ofZ <$> [-5; 5; 5]; color := Double.ofZ <$> [1; 0; 0] |} ].

Definition scene (m : ModelGL) (c : Camera) : SceneData :=
    {| glContext := Some WebGL2; model := Some m; camera := Some c;
       lights := Some twoLights; width := 800; height := 600;
       sceneFrameNumber := 0 |}.

  (** A world at start-up: nothing compiled, nothing logged, a clock that
      reads [t] whenever asked, and the given texture cache. *)
Definition world (d : Driver) (m : ModelGL) (c : Camera)
      (cache : gmap string PPM) (t : Q) : World :=
    {| sceneData := scene m c;
       fps := 0; lastTime := 0; frameNumber := 0;
       shaderSourceCodeMap := ∅;
       modelCache := cache;
       driver := d; glCalls := []; glNext := 0;
       console := [];
       clock := fun _ => t; clockReads := 0;
       network := fun _ => NetworkError "TypeError: Failed to fetch";
       parsePPM := fun _ => brick;
       fetched := [];
       animationFrames := 0 |}.

Definition warm : gmap string PPM :=
    {[ "brick.ppm" := brick; "brick_normal.ppm" := brick ]}.

End Sample.

(** ** What the steps of a frame leave alone *)

Definition forgetProgram (m : ModelGL) : ModelGL :=
  set_renderingProgram None m.

Definition forgetHandles (m : ModelGL) : ModelGL :=
  set_normalTexture None (set_diffuseTexture None (set_renderingProgram None m)).

Definition forgetViewPort (c : Camera) : Camera :=
  setViewPortHeight 0 (setViewPortWidth 0 c).

(** The world without the log of the context and without the console. *)
Definition forgetGL (w : World) : World :=
  set_console [] (set_gl [] 0 w).

(** All that compiling, binding the program and filling buffers and light
    uniforms may change is the context, the console and the cached program. *)
Definition compileFrame (w : World) : World :=
  forgetGL
    (set_sceneData
       (set_model (forgetProgram <$> model (sceneData w)) (sceneData w)) w).

(** All that the set-up of a frame may change: the above, the texture
    handles, the view port of the camera, the scene's frame number and the
    number of clock readings. *)
Definition setupFrame (w : World) : World :=
  set_clockReads 0
    (forgetGL
       (set_sceneData
          (set_sceneFrameNumber 0
             (set_camera (forgetViewPort <$> camera (sceneData w))
                (set_model (forgetHandles <$> model (sceneData w)) (sceneData w))))
          w)).

(** A statement respects a relation on worlds when every run of it, whether
    it completes or throws, ends in a world related to the one it started in. *)
Definition respects (R : World → World → Prop) {A} (m : JS A) : Prop :=
  ∀ w, R w (after m w).

(** [f] has the same value after as before. *)
Definition stable {T} (f : World → T) (w w' : World) : Prop := f w' = f w.

(** The log only grows, and by calls that are not draw calls. *)
Definition drawsNothing (w w' : World) : Prop :=
  ∃ l, glCalls w' = (glCalls w ++ l)%list ∧ filter isDraw l = [].

(** The steps of [renderLoop] from the viewport on. *)
Definition renderLoop_finish : JS unit :=
  renderLoop_viewport;;
  glCall (Enable DEPTH_TEST);;
  renderLoop_draw;;
  glCall Flush;;
  glCall Finish;;
  renderLoop_fps;;
  requestAnimationFrame.

(** The viewport call of a frame on a canvas of [cw] by [ch]. *)
Definition frameViewport (c : Camera) (cw ch : Z) : GLCall :=
  if usePerspective c then Viewport 0 0 (inject_Z cw) (inject_Z ch)
  else Viewport (jsDiv (inject_Z (cw - Z.min cw ch)) 2)
                (jsDiv (inject_Z (ch - Z.min cw ch)) 2)
                (inject_Z (Z.min cw ch)) (inject_Z (Z.min cw ch)).

(** The draw calls of a frame. *)
Definition frameDraws (c : Camera) (m : ModelGL) : list GLCall :=
  if renderSolid c then
    [DrawElements TRIANGLES (Z.of_nat (length (vertexIndices m))) UNSIGNED_SHORT 0]
  else
    map (fun i => DrawElements LINE_LOOP 3 UNSIGNED_SHORT (2 * (3 * Z.of_nat i)))
        (seq 0 (default 0%nat (numTriangles m))).

(** The set-up of a frame may change the context, the console, the handles,
    the view port and the clock, and it draws nothing. *)
Definition setupOnly (w w' : World) : Prop :=
  stable setupFrame w w' ∧ drawsNothing w w'.

(** The steps of [renderLoop] between the program and the viewport. *)
Definition renderLoop_setup (gl : WebGLRenderingContext)
    (shaderProgram : WebGLProgram) (model : ModelGL) : JS unit :=
  glCall (UseProgram shaderProgram);;
  setUpVertexBuffer shaderProgram;;
  setUpLights (Some gl) shaderProgram;;
  setUpTextures (Some gl) shaderProgram;;
  renderLoop_normal shaderProgram model;;
  renderLoop_matrices shaderProgram;;
  renderLoop_clear.

(** The guard of [renderLoop] passes: context, model and camera are there. *)
Definition ready (w : World) (gl : WebGLRenderingContext) (m : ModelGL)
    (c : Camera) : Prop :=
  glContext (sceneData w) = Some gl
  ∧ model (sceneData w) = Some m
  ∧ camera (sceneData w) = Some c.

(** How a call of [renderLoop] can end. *)
Inductive FrameOutcome (w : World) : Prop :=
| Idle :
    glContext (sceneData w) = None ∨ model (sceneData w) = None
      ∨ camera (sceneData w) = None →
    renderLoop w = (Normal tt, w) →
    FrameOutcome w
| NoProgram gl m c w1 :
    ready w gl m c →
    compileProgram (Some gl) w = (Normal None, w1) →
    renderLoop w = (Normal tt, w1) →
    setupOnly w w1 →
    FrameOutcome w
| Thrown gl m c e w' :
    ready w gl m c →
    renderLoop w = (Throw e, w') →
    setupOnly w w' →
    FrameOutcome w
| Completed gl m c p w1 ws :
    ready w gl m c →
    compileProgram (Some gl) w = (Normal (Some p), w1) →
    renderLoop_setup gl p m w1 = (Normal tt, ws) →
    setupOnly w ws →
    renderLoop w = renderLoop_finish ws →
    FrameOutcome w.

(** A call of [m] ended with one more frame scheduled. *)
Definition rescheduled {A} (m : JS A) (w : World) : Prop :=
  animationFrames (after m w) = S (animationFrames w).

(** The 60th frame of a window, rendered when the clock reads 1000 and the
    window started at 0. *)
Definition sixtiethFrameAt1000 : World :=
  set_counters 0 0 59
    (Sample.world Sample.willing Sample.plain Sample.ortho ∅ 1000).

(** The same frame, one time unit later. *)
Definition sixtiethFrameAt1001 : World :=
  set_counters 0 0 59
    (Sample.world Sample.willing Sample.plain Sample.ortho ∅ 1001).

(** The 60th frame of a window that started when the clock read the double
    nearest to 0.1, rendered when it reads the double nearest to 1000.1. *)
Definition sixtiethFrameFromATenth : World :=
  set_counters 0 (7205759403792794 # 72057594037927936) 59
    (Sample.world Sample.willing Sample.plain Sample.ortho ∅
       (8796972631510221 # 8796093022208)).


(** The pixel data of the texture of kind [textureType] is not in the cache
    of the loader: no name, no cached image, or an image without data. *)
Definition textureDataMissing (w : World) (m : ModelGL) (textureType : string) : Prop :=
  match textures m !! textureType with
  | None => True
  | Some name =>
      match modelCache w !! name with
      | None => True
      | Some ppmIMG => ppmData ppmIMG = None
      end
  end.

(** The pixel data of the texture of kind [textureType] is in the cache. *)
Definition textureDataCached (w : World) (m : ModelGL) (textureType : string) : Prop :=
  ∃ name ppmIMG data,
    textures m !! textureType = Some name
    ∧ modelCache w !! name = Some ppmIMG
    ∧ ppmData ppmIMG = Some data.

(** The invariant of the data model: a texture handle is non-null only for a
    map that the model has.  A model comes to the renderer with null
    handles, and the renderer writes a handle only under the flag of its
    map. *)
Definition handlesUnderFlags (m : ModelGL) : Prop :=
  (diffuseTexture m ≠ None → hasDiffuseMap m = true)
  ∧ (normalTexture m ≠ None → hasNormalMap m = true).

(** The model of the scene, if there is one, satisfies the invariant. *)
Definition sceneHandlesUnderFlags (w : World) : Prop :=
  ∀ m, model (sceneData w) = Some m → handlesUnderFlags m.

(** The statement kept the invariant. *)
Definition keepsHandlesUnderFlags (w w' : World) : Prop :=
  sceneHandlesUnderFlags w → sceneHandlesUnderFlags w'.

(** The diffuse block of [setUpTextures] has nothing to fail on: there is no
    diffuse map, or its texture is there, or the texture can be made (its
    data is cached, the program declares the sampler and the driver gives
    the objects asked for). *)
Definition diffuseSettled (w : World) (p : WebGLProgram) (m : ModelGL) : Prop :=
  hasDiffuseMap m = true → diffuseTexture m = None →
  textureDataCached w m "map_Kd"
  ∧ uniformLocation (driver w) p "textureSampler" ≠ None
  ∧ ∀ n, allocates (driver w) n = true.

(** The console only grows. *)
Definition logsGrow (w w' : World) : Prop :=
  ∃ l, console w' = console w ++ l.

(** [setUpLights] will not throw: if the vertex shader is the one of the
    gate and there are lights, the program declares both light uniforms. *)
Definition lightsDeclared (w : World) (p : WebGLProgram) (m : ModelGL) : Prop :=
  vertexShaderName m = "vertexTextureNormalNormalMapShader" →
  lights (sceneData w) ≠ None →
  uniformLocation (driver w) p "lightsUniform" ≠ None
  ∧ uniformLocation (driver w) p "lightColors" ≠ None.

(** The steps of the set-up from the textures on, and from the lights on. *)
Definition renderLoop_fromTextures (gl : WebGLRenderingContext)
    (shaderProgram : WebGLProgram) (model : ModelGL) : JS unit :=
  setUpTextures (Some gl) shaderProgram;;
  renderLoop_normal shaderProgram model;;
  renderLoop_matrices shaderProgram;;
  renderLoop_clear.

Definition renderLoop_fromLights (gl : WebGLRenderingContext)
    (shaderProgram : WebGLProgram) (model : ModelGL) : JS unit :=
  setUpLights (Some gl) shaderProgram;;
  renderLoop_fromTextures gl shaderProgram model.

(** The frame is not cut short: [renderLoop] returns and is rescheduled. *)
Definition runsToItsEnd (w : World) : Prop :=
  completion renderLoop w = Normal tt ∧ rescheduled renderLoop w.

(** ** The rest of glCanvas: the light set, the canvas and the page *)

Definition set_lights (l : option GLLights) (s : SceneData) : SceneData :=
  {| glContext := glContext s; model := model s; camera := camera s;
     lights := l; width := width s; height := height s;
     sceneFrameNumber := sceneFrameNumber s |}.

Definition set_glContext (gl : option WebGLRenderingContext) (s : SceneData) : SceneData :=
  {| glContext := gl; model := model s; camera := camera s;
     lights := lights s; width := width s; height := height s;
     sceneFrameNumber := sceneFrameNumber s |}.

Definition set_width (v : Z) (s : SceneData) : SceneData :=
  {| glContext := glContext s; model := model s; camera := camera s;
     lights := lights s; width := v; height := height s;
     sceneFrameNumber := sceneFrameNumber s |}.

Definition set_height (v : Z) (s : SceneData) : SceneData :=
  {| glContext := glContext s; model := model s; camera := camera s;
     lights := lights s; width := width s; height := v;
     sceneFrameNumber := sceneFrameNumber s |}.

(** [sceneData.lights.addPointLight(light)].  Modelled from the spec, as
    [GLLights] is: the light set is ordered by insertion. *)
Definition addPointLight (light : GLPointLight) : JS unit :=
  fun w =>
    match lights (sceneData w) with
    | Some ls =>
        (Normal tt, set_sceneData (set_lights (Some (ls ++ [light])) (sceneData w)) w)
    | None => (Throw "TypeError: sceneData.lights is null", w)
    end.

(** [point[i]] of a point given as the array of its coordinates.  A
    coordinate that is not there reads as undefined, which is NaN as soon as
    it is added or subtracted. *)
Definition coord (point : list double) (i : nat) : double := nth i point Double.NaN.

(** The light that iteration [i] of [linearLight] makes. *)
Definition linearLight_light (point1 : list double) (deltaX deltaY deltaZ : double)
    (i : Z) (color : list double) : GLPointLight :=
  {| position := [Double.add (coord point1 0) (Double.mul (Double.ofZ i) deltaX);
                  Double.add (coord point1 1) (Double.mul (Double.ofZ i) deltaY);
                  Double.add (coord point1 2) (Double.mul (Double.ofZ i) deltaZ)];
     color := color |}.

(** [for (let i = 0; i <= lights; i++)], with the number of tests of the loop
    condition as fuel. *)
Fixpoint linearLight_loop (fuel : nat) (i lights : Z) (body : Z -> JS unit) : JS unit :=
  match fuel with
  | O => mret tt
  | S fuel =>
      if (i <=? lights)%Z then body i;; linearLight_loop fuel (i + 1) lights body
      else mret tt
  end.

(** [linearLight].  [lights] is a whole number, as at its one call, and the
    counter [i] is one too: below 2^53, where [i++] is exact.  The
    coordinates are computed as the source computes them, in doubles. *)
Definition linearLight (point1 point2 : list double) (lights : Z)
    (color : list double) : JS unit :=
  let deltaX := Double.div (Double.sub (coord point2 0) (coord point1 0))
                  (Double.sub (Double.ofZ lights) (Double.ofZ 1)) in
  let deltaY := Double.div (Double.sub (coord point2 1) (coord point1 1))
                  (Double.sub (Double.ofZ lights) (Double.ofZ 1)) in
  let deltaZ := Double.div (Double.sub (coord point2 2) (coord point1 2))
                  (Double.sub (Double.ofZ lights) (Double.ofZ 1)) in
  linearLight_loop (S (Z.to_nat (lights + 1))) 0 lights (fun i =>
    let light := linearLight_light point1 deltaX deltaY deltaZ i color in
    addPointLight light).

(** The world with the light set [ls]. *)
Definition withLights (ls : GLLights) (w : World) : World :=
  set_sceneData (set_lights (Some ls) (sceneData w)) w.

(** The statements that glCanvas runs when the module is loaded. *)
Definition glCanvas_lights : JS unit :=
  linearLight (Double.ofQ <$> [-10; 1 # 2; -5]%Q) (Double.ofQ <$> [10; 1 # 2; -5]%Q) 30
    (Double.ofZ <$> [1; 1; 1]);;
  addPointLight {| position := Double.ofZ <$> [5; 5; -5];
                   color := Double.ofZ <$> [1; 1; 1] |};;
  addPointLight {| position := Double.ofZ <$> [-5; 5; -5];
                   color := Double.ofZ <$> [1; 1; 1] |};;
  addPointLight {| position := Double.ofZ <$> [-5; 5; 5];
                   color := Double.ofZ <$> [1; 1; 1] |};;
  addPointLight {| position := Double.ofZ <$> [5; 5; 5];
                   color := Double.ofZ <$> [1; 1; 1] |}.

(** A canvas element: which kinds of context [getContext] gives for it. *)
Record HTMLCanvasElement := {
  webgl2 : bool;
  experimental_webgl : bool
}.

Definition getContext (canvas : HTMLCanvasElement) (contextId : string)
    : option WebGLRenderingContext :=
  if String.eqb contextId "webgl2" then
    if webgl2 canvas then Some WebGL2 else None
  else if String.eqb contextId "experimental-webgl" then
    if experimental_webgl canvas then Some ExperimentalWebGL else None
  else None.

(** The page around the renderer: the elements of the document by id, the
    alerts shown so far, and the world of the renderer. *)
Record Page := {
  document : gmap string HTMLCanvasElement;
  alerts : list string;
  world : World
}.

Definition alert (msg : string) (p : Page) : Page :=
  {| document := document p; alerts := alerts p ++ [msg]; world := world p |}.

(** A statement of the renderer run on the page; none of those of
    [setupCanvas] throws. *)
Definition run (m : JS unit) (p : Page) : Page :=
  {| document := document p; alerts := alerts p; world := after m (world p) |}.

(** [setupCanvas].  The canvas found is the one the context draws on: its
    size is the one the driver reports for [gl.canvas]. *)
Definition setupCanvas (p : Page) : Page :=
  match glContext (sceneData (world p)) with
  | Some _ => p
  | None =>
  match document p !! "glCanvas" with
  | None => alert "Canvas not found" p
  | Some canvas =>
  let gl := match getContext canvas "webgl2" with
            | Some gl => Some gl
            | None => getContext canvas "experimental-webgl"
            end in
  match gl with
  | None => alert "WebGL not supported" p
  | Some gl =>
  run (modify (fun w =>
         set_sceneData (set_width (canvasWidth (driver w)) (sceneData w)) w);;
       modify (fun w =>
         set_sceneData (set_height (canvasHeight (driver w)) (sceneData w)) w);;
       modify (fun w => set_sceneData (set_glContext (Some gl) (sceneData w)) w);;
       glCall (ClearColor 1 0 1 1);;
       glCall (Clear COLOR_BUFFER_BIT)) p
  end end end.

(** The fraction of the period of 25 seconds that [setUpTextures] makes of
    a reading of the clock: [now % period / period]. *)
Definition uvTurn (now : Q) : Q := jsDiv (jsRem now period) period.

(** What a statement leaves of the clock and the driver. *)
Definition clockFace (w : World) : (nat → Q) * nat * Driver :=
  (clock w, clockReads w, driver w).

(** What the steps of a frame before the matrices leave alone in the scene:
    all of it but the model. *)
Definition sceneFixed (w : World)
    : option WebGLRenderingContext * option Camera * option GLLights * Z * Z * nat :=
  (glContext (sceneData w), camera (sceneData w), lights (sceneData w),
   width (sceneData w), height (sceneData w), sceneFrameNumber (sceneData w)).

(** The model of the scene without its texture handles: what the steps of a
    frame after [compileProgram] leave alone in the model. *)
Definition forgetTextures (m : ModelGL) : ModelGL :=
  set_normalTexture None (set_diffuseTexture None m).

Definition modelButTextures (w : World) : option ModelGL :=
  forgetTextures <$> model (sceneData w).

(** ** Kinds of calls *)

Definition isClear (c : GLCall) : bool :=
  match c with Clear _ => true | _ => false end.

Definition isDeleteTexture (c : GLCall) : bool :=
  match c with DeleteTexture _ => true | _ => false end.

Definition isDeleteShader (c : GLCall) : bool :=
  match c with DeleteShader _ => true | _ => false end.

Definition isCreateBuffer (c : GLCall) : bool :=
  match c with CreateBuffer _ => true | _ => false end.

Definition isCreateTexture (c : GLCall) : bool :=
  match c with CreateTexture _ => true | _ => false end.

(** A creation call that the driver answered with null. *)
Definition isFailedCreate (c : GLCall) : bool :=
  match c with
  | CreateShader _ None | CreateProgram None => true
  | _ => false
  end.

Definition isBufferCall (c : GLCall) : bool :=
  match c with
  | CreateBuffer _ | BindBuffer _ _ | BufferData _ _ _ => true
  | _ => false
  end.

Definition isTexImage2D (c : GLCall) : bool :=
  match c with TexImage2D _ _ _ _ _ _ _ _ _ => true | _ => false end.

(** The calls of each step of the set-up of a frame, by entry point. *)
Definition compileCall (c : GLCall) : bool :=
  match c with
  | CreateShader _ _ | ShaderSource _ _ | CompileShader _
  | GetShaderParameter _ _ _ | GetShaderInfoLog _ | CreateProgram _
  | AttachShader _ _ | LinkProgram _ | DeleteShader _
  | GetProgramParameter _ _ _ => true
  | _ => false
  end.

Definition vertexBufferCall (c : GLCall) : bool :=
  match c with
  | CreateBuffer _ | BindBuffer _ _ | BufferData _ _ _
  | EnableVertexAttribArray _ | VertexAttribPointer _ _ _ _ _ _ => true
  | GetAttribLocation _ name _ => String.eqb name "position"
  | _ => false
  end.

Definition lightCall (c : GLCall) : bool :=
  match c with
  | GetUniformLocation _ _ _ | Uniform3fv _ _ => true
  | _ => false
  end.

Definition textureCall (c : GLCall) : bool :=
  match c with
  | EnableVertexAttribArray _ | VertexAttribPointer _ _ _ _ _ _
  | CreateTexture _ | ActiveTexture _ | BindTexture _ _ | TexParameteri _ _ _
  | GetUniformLocation _ _ _ | Uniform1i _ _ | TexImage2D _ _ _ _ _ _ _ _ _
  | GenerateMipmap _ | Uniform2fv _ _ => true
  | GetAttribLocation _ name _ => String.eqb name "textureCoord"
  | _ => false
  end.

Definition normalCall (c : GLCall) : bool :=
  match c with
  | EnableVertexAttribArray _ | VertexAttribPointer _ _ _ _ _ _ => true
  | GetAttribLocation _ name _ => String.eqb name "normal"
  | _ => false
  end.

Definition matrixCall (c : GLCall) : bool :=
  match c with
  | GetUniformLocation _ _ _ | UniformMatrix4fv _ _ _ => true
  | _ => false
  end.

Definition finishCall (c : GLCall) : bool :=
  match c with
  | Viewport _ _ _ _ | ClearColor _ _ _ _ | Enable _ | DrawElements _ _ _ _
  | Flush | Finish => true
  | _ => false
  end.

(** The query for the location of the normal attribute. *)
Definition isNormalQuery (c : GLCall) : bool :=
  match c with
  | GetAttribLocation _ name _ => String.eqb name "normal"
  | _ => false
  end.

(** A call that a frame makes only to build what the model then keeps:
    compiling and linking, creating a texture, uploading an image. *)
Definition buildCall (c : GLCall) : bool :=
  compileCall c || isCreateTexture c || isTexImage2D c.

(** The scene holds a model that has its program and a texture for each of
    its maps. *)
Definition warmedUp (w : World) : Prop :=
  ∃ m p, model (sceneData w) = Some m
    ∧ renderingProgram m = Some p
    ∧ (hasDiffuseMap m = true → diffuseTexture m ≠ None)
    ∧ (hasNormalMap m = true → normalTexture m ≠ None).

(** The statement kept the model and built nothing. *)
Definition reuses (w w' : World) : Prop :=
  warmedUp w →
  model (sceneData w') = model (sceneData w)
  ∧ ∃ l, glCalls w' = glCalls w ++ l ∧ filter buildCall l = [].

(** The statement made these calls and no other: the log grew by calls
    that all satisfy [P]. *)
Definition issuesOnly (P : GLCall → bool) (w w' : World) : Prop :=
  ∃ l, glCalls w' = glCalls w ++ l ∧ forallb P l = true.

(** Neither a clear of the canvas nor the deletion of a texture. *)
Definition keepsCanvasAndTextures (c : GLCall) : bool :=
  negb (isClear c || isDeleteTexture c).

(** The [deleteTexture] calls that [cleanUpTextures] makes for a scene. *)
Definition cleanUpCalls (s : SceneData) : list GLCall :=
  match glContext s, model s with
  | Some _, Some m =>
      (if hasDiffuseMap m
       then from_option (λ t, [DeleteTexture t]) [] (diffuseTexture m) else [])
      ++ (if hasNormalMap m
          then from_option (λ t, [DeleteTexture t]) [] (normalTexture m) else [])
  | _, _ => []
  end.

(** The model as [cleanUpTextures] leaves it: the handles of the maps it
    has are null. *)
Definition cleaned (m : ModelGL) : ModelGL :=
  let m1 := if hasDiffuseMap m
            then match diffuseTexture m with
                 | Some _ => set_diffuseTexture None m
                 | None => m
                 end
            else m in
  if hasNormalMap m
  then match normalTexture m with
       | Some _ => set_normalTexture None m1
       | None => m1
       end
  else m1.

(** The object that [updateSceneData] stores for a reference, on a scene
    [s]: the scene's own object is stored as the clean-up leaves it. *)
Definition storedModel (r : ModelRef) (s : SceneData) : option ModelGL :=
  match r with
  | NullModel => None
  | SceneModel =>
      match glContext s with
      | Some _ => cleaned <$> model s
      | None => model s
      end
  | OtherModel m => Some m
  end.

(** ** The steps of a frame that runs to its end

    The program [p], the world after each step of [renderLoop] and the calls
    each step made, up to the viewport; the rest of the frame is
    [renderLoop_finish]. *)
Inductive FrameTrace (w : World) (gl : WebGLRenderingContext) (m : ModelGL)
    (c : Camera) : Prop :=
| frameTrace (p : WebGLProgram)
    (compiled buffered lit textured normalled placed cleared : World)
    (lc lv ll lt ln lm lcl : list GLCall) :
    compileProgram (Some gl) w = (Normal (Some p), compiled) →
    glCalls compiled = glCalls w ++ lc →
    setUpVertexBuffer p
      (set_gl (glCalls compiled ++ [UseProgram p]) (glNext compiled) compiled)
      = (Normal tt, buffered) →
    glCalls buffered = (glCalls compiled ++ [UseProgram p]) ++ lv →
    setUpLights (Some gl) p buffered = (Normal tt, lit) →
    glCalls lit = glCalls buffered ++ ll →
    setUpTextures (Some gl) p lit = (Normal true, textured) →
    glCalls textured = glCalls lit ++ lt →
    renderLoop_normal p m textured = (Normal tt, normalled) →
    glCalls normalled = glCalls textured ++ ln →
    renderLoop_matrices p normalled = (Normal tt, placed) →
    glCalls placed = glCalls normalled ++ lm →
    renderLoop_clear placed = (Normal tt, cleared) →
    glCalls cleared = glCalls placed ++ lcl →
    renderLoop w = renderLoop_finish cleared →
    issued renderLoop w
      = lc ++ [UseProgram p] ++ lv ++ ll ++ lt ++ ln ++ lm ++ lcl
          ++ [frameViewport c (canvasWidth (driver w)) (canvasHeight (driver w));
              Enable DEPTH_TEST]
          ++ frameDraws c m ++ [Flush; Finish] →
    FrameTrace w gl m c.

(** ** More concrete worlds *)

(** The world at start-up of a page whose server answers every fetch with
    one small image file. *)
Definition served : World :=
  {| sceneData := Sample.scene Sample.quad Sample.ortho;
     fps := 0; lastTime := 0; frameNumber := 0;
     shaderSourceCodeMap := ∅;
     modelCache := ∅;
     driver := Sample.willing; glCalls := []; glNext := 0;
     console := [];
     clock := fun _ => 0%Q; clockReads := 0;
     network := fun _ => Response true "P3 1 1 255 255 128 0";
     parsePPM := fun _ => Sample.brick;
     fetched := [];
     animationFrames := 0 |}.

(** The quad of the samples with both of its textures bound. *)
Definition boundQuad : ModelGL :=
  set_normalTexture (Some 4%nat) (set_diffuseTexture (Some 3%nat) Sample.quad).

(** The world of the samples after 300 frames, on a canvas that the page has
    resized to 640x480 since [setupCanvas] stored 800x600. *)
Definition resized : Driver :=
  {| allocates := allocates Sample.willing;
     compileStatus := compileStatus Sample.willing;
     shaderInfoLog := shaderInfoLog Sample.willing;
     linkStatus := linkStatus Sample.willing;
     uniformLocation := uniformLocation Sample.willing;
     attribLocation := attribLocation Sample.willing;
     canvasWidth := 640;
     canvasHeight := 480 |}.

Definition frame300 : World :=
  set_sceneData
    (set_sceneFrameNumber 300 (Sample.scene Sample.quad Sample.ortho))
    (Sample.world resized Sample.quad Sample.ortho Sample.warm 0).

(** The same world before [setupCanvas]: the scene has no context. *)
Definition contextless : World :=
  set_sceneData (set_glContext None (sceneData served)) served.

(** A page whose canvas gives only the experimental context. *)
Definition oldBrowser : Page :=
  {| document := {[ "glCanvas" := {| webgl2 := false; experimental_webgl := true |} ]};
     alerts := [];
     world := contextless |}.

(** A page without the canvas element. *)
Definition emptyPage : Page :=
  {| document := ∅; alerts := []; world := contextless |}.

(** * Properties *)

(** ** Reasoning about statements *)

Lemma bind_Normal {A B} (m : JS A) (k : A -> JS B) w a w' :
  m w = (Normal a, w') → (m ≫= k) w = k a w'.
Proof. intros H. unfold mbind, JS_bind. by rewrite H. Qed.

Lemma bind_Throw {A B} (m : JS A) (k : A -> JS B) w e w' :
  m w = (Throw e, w') → (m ≫= k) w = (Throw e, w').
Proof. intros H. unfold mbind, JS_bind. by rewrite H. Qed.

Ltac js_unfold :=
  unfold issued, logged in *; unfold after, completion,
    mbind, JS_bind, mret, JS_ret, throw, get, modify,
    console_log, console_error, performance_now, requestAnimationFrame,
    getModel, getCamera, putModel, putCamera, updateModel,
    glCall, glCreate, glQuery in *; cbn beta in *.

(** ** PPMFileLoader *)

(** C10. For every path and every state of the loader, [loadFile] returns
    the cached image when the path is in the cache and undefined when it is
    not; in both cases the cache is left as it was and nothing is fetched (on
    a miss the whole world is left as it was, on a hit a line is logged). *)
Theorem loadFile_is_cache_lookup (textureFilePath : string) (w : World) :
  completion (PPMFileLoader.loadFile textureFilePath) w
    = Normal (modelCache w !! textureFilePath)
  ∧ modelCache (after (PPMFileLoader.loadFile textureFilePath) w) = modelCache w
  ∧ fetched (after (PPMFileLoader.loadFile textureFilePath) w) = fetched w
  ∧ issued (PPMFileLoader.loadFile textureFilePath) w = []
  ∧ after (PPMFileLoader.loadFile textureFilePath) w
      = match modelCache w !! textureFilePath with
        | Some _ =>
            set_console
              (console w ++ [ConsoleLog (textureFilePath +:+ " already loaded")]) w
        | None => w
        end.
Proof.
  unfold PPMFileLoader.loadFile. js_unfold.
  destruct (modelCache w !! textureFilePath) as [image|]; simpl;
    rewrite drop_all; done.
Qed.

(** By contrast [loadIntoCache] does go to the network on a miss. *)
Lemma loadIntoCache_miss_fetches (textureFilePath : string) (w : World) :
  modelCache w !! textureFilePath = None →
  fetched (after (PPMFileLoader.loadIntoCache textureFilePath) w)
    = (fetched w ++ [PPMFileLoader.URLPrefix +:+ textureFilePath])%list.
Proof.
  intros Hmiss. unfold PPMFileLoader.loadIntoCache. js_unfold.
  rewrite Hmiss. simpl.
  destruct (network w _) as [e|[] body]; reflexivity.
Qed.

(** ** Footprints

    A statement respects a preorder on worlds when every run, whether it
    completes or throws, ends in a world related to the one it started in.
    Statements are sequenced by [≫=], so it is enough to look at the leaves. *)

Section Respects.
Variable R : World → World → Prop.
Hypothesis R_refl : ∀ w, R w w.
Hypothesis R_trans : ∀ w1 w2 w3, R w1 w2 → R w2 w3 → R w1 w3.

Lemma respects_ret {A} (a : A) : respects R (mret a).
  Proof. intros w. apply R_refl. Qed.

Lemma respects_throw {A} e : respects R (@throw A e).
  Proof. intros w. apply R_refl. Qed.

Lemma respects_get : respects R get.
  Proof. intros w. apply R_refl. Qed.

Lemma respects_bind {A B} (m : JS A) (k : A → JS B) :
    respects R m → (∀ a, respects R (k a)) → respects R (m ≫= k).
  Proof.
    intros Hm Hk w. specialize (Hm w). unfold after, mbind, JS_bind in *.
    destruct (m w) as [[a|e] w1]; simpl in *; [|done].
    eapply R_trans; [exact Hm|]. apply (Hk a w1).
  Qed.
End Respects.

(** The tactic walks a statement down to its leaves; [leaf] closes them. *)
Ltac respects_walk rfl trs leaf :=
  repeat lazymatch goal with
    | |- respects _ (mret _) => apply (respects_ret _ rfl)
    | |- respects _ (throw _) => apply (respects_throw _ rfl)
    | |- respects _ get => apply (respects_get _ rfl)
    | |- respects _ (_ ≫= _) => apply (respects_bind _ trs); [| intros ?]
    | |- respects _ (match ?x with _ => _ end) => destruct x
    | |- respects _ (let _ := _ in _) => cbv zeta
    | |- respects _ _ => solve [leaf]
    end.

Lemma stable_refl {T} (f : World → T) w : stable f w w.
Proof. reflexivity. Qed.

Lemma stable_trans {T} (f : World → T) w1 w2 w3 :
  stable f w1 w2 → stable f w2 w3 → stable f w1 w3.
Proof. unfold stable. congruence. Qed.

Lemma drawsNothing_refl w : drawsNothing w w.
Proof. exists []. by rewrite app_nil_r. Qed.

Lemma drawsNothing_trans w1 w2 w3 :
  drawsNothing w1 w2 → drawsNothing w2 w3 → drawsNothing w1 w3.
Proof.
  intros (l1 & H1 & F1) (l2 & H2 & F2). exists (l1 ++ l2)%list.
  rewrite H2, H1, <- app_assoc, filter_app, F1, F2. done.
Qed.

Lemma drawsNothing_issued {A} (m : JS A) w :
  drawsNothing w (after m w) →
  glCalls (after m w) = (glCalls w ++ issued m w)%list
  ∧ filter isDraw (issued m w) = [].
Proof.
  intros (l & H & F). unfold issued. rewrite H, drop_app_length. done.
Qed.

(** Projections of updated records, and nothing else. *)
Ltac js_simpl :=
  cbn [fst snd
       sceneData fps lastTime frameNumber shaderSourceCodeMap modelCache driver
       glCalls glNext console clock clockReads network parsePPM fetched
       animationFrames
       glContext model camera lights width height sceneFrameNumber
       set_sceneData set_counters set_modelCache set_gl set_console
       set_clockReads set_fetched set_animationFrames
       set_model set_camera set_sceneFrameNumber
       vertexShaderName fragmentShaderName renderingProgram hasDiffuseMap
       hasNormalMap diffuseTexture normalTexture textures packedVertexBuffer
       vertexIndices vertexStride textureOffset normalOffset numTriangles
       modelMatrix set_renderingProgram set_diffuseTexture set_normalTexture
       usePerspective renderSolid viewPortWidth viewPortHeight
       computeProjectionMatrix computeViewMatrix
       setViewPortWidth setViewPortHeight
       forgetProgram forgetHandles forgetViewPort
       fmap option_fmap option_map negb] in *.

Ltac js_leaf :=
  js_unfold; unfold updateModel, updateCamera, nextSceneFrameNumber; js_simpl;
  repeat match goal with
         | |- context [match model (sceneData ?w) with _ => _ end] =>
             let H := fresh "Hmodel" in
             destruct (model (sceneData w)) eqn:H; js_simpl; rewrite ?H
         | |- context [match camera (sceneData ?w) with _ => _ end] =>
             let H := fresh "Hcamera" in
             destruct (camera (sceneData w)) eqn:H; js_simpl; rewrite ?H
         end; js_simpl.

Ltac drawsNothing_leaf :=
  intros ?; unfold after, drawsNothing; js_leaf;
  first [ exists []; split; [js_simpl; rewrite app_nil_r; reflexivity | reflexivity]
        | eexists [_]; split; [js_simpl; reflexivity | reflexivity] ].

Ltac stable_leaf :=
  intros ?; unfold stable, after, compileFrame, setupFrame, forgetGL;
  js_leaf; reflexivity.

Ltac draws_nothing :=
  respects_walk drawsNothing_refl drawsNothing_trans drawsNothing_leaf.

Ltac keeps E :=
  respects_walk (stable_refl E) (stable_trans E) stable_leaf.

(** *** The steps of the set-up draw nothing *)

Lemma compileProgram_drawsNothing gl : respects drawsNothing (compileProgram gl).
Proof. unfold compileProgram. draws_nothing. Qed.

Lemma setUpVertexBuffer_drawsNothing p : respects drawsNothing (setUpVertexBuffer p).
Proof. unfold setUpVertexBuffer. draws_nothing. Qed.

Lemma setUpLights_drawsNothing gl p : respects drawsNothing (setUpLights gl p).
Proof. unfold setUpLights. draws_nothing. Qed.

Lemma setUpTexture_drawsNothing gl p u ty s :
  respects drawsNothing (setUpTexture gl p u ty s).
Proof. unfold setUpTexture, PPMFileLoader.loadFile. draws_nothing. Qed.

Lemma setUpTextures_drawsNothing gl p : respects drawsNothing (setUpTextures gl p).
Proof.
  unfold setUpTextures, setUpTextures_diffuse, setUpTextures_normal.
  respects_walk drawsNothing_refl drawsNothing_trans
    ltac:(idtac; lazymatch goal with
          | |- respects _ (setUpTexture _ _ _ _ _) => apply setUpTexture_drawsNothing
          | |- _ => drawsNothing_leaf
          end).
Qed.

Lemma renderLoop_normal_drawsNothing p m : respects drawsNothing (renderLoop_normal p m).
Proof. unfold renderLoop_normal. draws_nothing. Qed.

Lemma renderLoop_matrices_drawsNothing p : respects drawsNothing (renderLoop_matrices p).
Proof. unfold renderLoop_matrices. draws_nothing. Qed.

Lemma renderLoop_clear_drawsNothing : respects drawsNothing renderLoop_clear.
Proof. unfold renderLoop_clear. draws_nothing. Qed.

Lemma renderLoop_fps_drawsNothing : respects drawsNothing renderLoop_fps.
Proof. unfold renderLoop_fps. draws_nothing. Qed.

(** *** What the steps of the set-up leave alone *)

Lemma compileProgram_compileFrame gl : respects (stable compileFrame) (compileProgram gl).
Proof. unfold compileProgram. keeps compileFrame. Qed.

Lemma setUpVertexBuffer_compileFrame p :
  respects (stable compileFrame) (setUpVertexBuffer p).
Proof. unfold setUpVertexBuffer. keeps compileFrame. Qed.

Lemma setUpLights_compileFrame gl p : respects (stable compileFrame) (setUpLights gl p).
Proof. unfold setUpLights. keeps compileFrame. Qed.

Lemma setupFrame_compileFrame w : setupFrame (compileFrame w) = setupFrame w.
Proof.
  unfold setupFrame, compileFrame. simpl. destruct (model (sceneData w)); reflexivity.
Qed.

Lemma stable_compileFrame_setupFrame w w' :
  stable compileFrame w w' → stable setupFrame w w'.
Proof.
  unfold stable. intros H.
  rewrite <- (setupFrame_compileFrame w'), H. apply setupFrame_compileFrame.
Qed.

Lemma setUpTexture_setupFrame gl p u ty s :
  respects (stable setupFrame) (setUpTexture gl p u ty s).
Proof. unfold setUpTexture, PPMFileLoader.loadFile. keeps setupFrame. Qed.

Lemma setUpTextures_setupFrame gl p : respects (stable setupFrame) (setUpTextures gl p).
Proof.
  unfold setUpTextures, setUpTextures_diffuse, setUpTextures_normal.
  respects_walk (stable_refl setupFrame) (stable_trans setupFrame)
    ltac:(idtac; lazymatch goal with
          | |- respects _ (setUpTexture _ _ _ _ _) => apply setUpTexture_setupFrame
          | |- _ => stable_leaf
          end).
Qed.

Lemma renderLoop_normal_setupFrame p m :
  respects (stable setupFrame) (renderLoop_normal p m).
Proof. unfold renderLoop_normal. keeps setupFrame. Qed.

Lemma renderLoop_matrices_setupFrame p :
  respects (stable setupFrame) (renderLoop_matrices p).
Proof. unfold renderLoop_matrices. keeps setupFrame. Qed.

Lemma renderLoop_clear_setupFrame : respects (stable setupFrame) renderLoop_clear.
Proof. unfold renderLoop_clear. keeps setupFrame. Qed.

(** ** Steps that do not depend on the driver's answers *)

Lemma set_gl_same w : set_gl (glCalls w) (glNext w) w = w.
Proof. by destruct w. Qed.

Lemma issued_app {A} (m : JS A) w l :
  glCalls (after m w) = (glCalls w ++ l)%list → issued m w = l.
Proof. intros H. unfold issued. by rewrite H, drop_app_length. Qed.

Lemma forLoop_calls (call : nat → GLCall) fuel i n w :
  (n - i < fuel)%nat →
  forLoop fuel i n (λ j, glCall (call j)) w
    = (Normal tt, set_gl (glCalls w ++ map call (seq i (n - i))) (glNext w) w).
Proof.
  revert i w. induction fuel as [|fuel IH]; intros i w Hfuel; [lia|].
  simpl. destruct (Nat.ltb_spec i n) as [Hlt|Hge].
  - replace (n - i)%nat with (S (n - S i)) by lia.
    unfold mbind, JS_bind. unfold glCall at 1, modify.
    rewrite IH by lia. js_simpl. simpl seq. simpl map.
    by rewrite <- app_assoc.
  - replace (n - i)%nat with 0%nat by lia. simpl.
    by rewrite app_nil_r, set_gl_same.
Qed.

Lemma gtb_min (cw ch : Z) : (if (cw >? ch)%Z then ch else cw) = Z.min cw ch.
Proof. destruct (Z.gtb_spec cw ch); lia. Qed.

(** The viewport step makes exactly one call. *)
Lemma renderLoop_viewport_run w c :
  camera (sceneData w) = Some c →
  renderLoop_viewport w
    = (Normal tt,
       set_gl (glCalls w ++ [frameViewport c (canvasWidth (driver w))
                               (canvasHeight (driver w))])
              (glNext w) w).
Proof.
  intros Hc. unfold renderLoop_viewport, frameViewport. js_unfold. rewrite Hc.
  destruct (usePerspective c); cbn [negb]; [reflexivity|].
  cbv zeta. by rewrite gtb_min.
Qed.

(** The draw step makes exactly the draw calls of the frame. *)
Lemma renderLoop_draw_run w c m :
  camera (sceneData w) = Some c → model (sceneData w) = Some m →
  renderLoop_draw w
    = (Normal tt, set_gl (glCalls w ++ frameDraws c m) (glNext w) w).
Proof.
  intros Hc Hm. unfold renderLoop_draw, frameDraws.
  unfold get, mbind at 1, JS_bind at 1. rewrite Hc, Hm.
  destruct (renderSolid c); cbn [negb]; [reflexivity|].
  cbv zeta. rewrite forLoop_calls by lia. rewrite Nat.sub_0_r.
  do 3 f_equal. apply map_ext. intros i. f_equal. lia.
Qed.

(** The world after the counters step, by the reading [now] it takes. *)
Lemma renderLoop_fps_run w :
  let now := clock w (clockReads w) in
  let w1 := set_clockReads (S (clockReads w)) w in
  renderLoop_fps w
    = (Normal tt,
       if jsGt (jsSub now (lastTime w)) 1000 then
         set_counters (S (frameNumber w)) now 0
           (set_console
              (console w ++ [ConsoleLog ("FPS: " +:+ pretty (S (frameNumber w)))]) w1)
       else set_counters (fps w) (lastTime w) (S (frameNumber w)) w1).
Proof.
  unfold renderLoop_fps. js_unfold. js_simpl.
  destruct (jsGt (jsSub (clock w (clockReads w)) (lastTime w)) 1000); reflexivity.
Qed.

Lemma bind_glCall {B} c (k : () → JS B) w :
  (glCall c ≫= k) w = k tt (set_gl (glCalls w ++ [c]) (glNext w) w).
Proof. reflexivity. Qed.

(** From the viewport on, a frame cannot fail: it makes the viewport call,
    enables the depth test, draws, flushes, counts and reschedules. *)
Lemma renderLoop_finish_run w c m :
  camera (sceneData w) = Some c → model (sceneData w) = Some m →
  let calls :=
    ([frameViewport c (canvasWidth (driver w)) (canvasHeight (driver w));
      Enable DEPTH_TEST] ++ frameDraws c m ++ [Flush; Finish])%list in
  let w1 := set_gl (glCalls w ++ calls) (glNext w) w in
  renderLoop_finish w
    = (Normal tt, set_animationFrames (S (animationFrames w)) (after renderLoop_fps w1)).
Proof.
  intros Hc Hm calls w1. unfold renderLoop_finish.
  erewrite bind_Normal by (by apply renderLoop_viewport_run).
  rewrite bind_glCall.
  erewrite bind_Normal by (by apply renderLoop_draw_run).
  rewrite !bind_glCall. js_simpl.
  match goal with |- (renderLoop_fps ≫= _) ?w' = _ =>
    replace w' with w1
  end.
  - unfold mbind, JS_bind, after. rewrite (renderLoop_fps_run w1).
    unfold requestAnimationFrame, modify. f_equal. cbn [snd].
    destruct (jsGt _ _); unfold w1; js_simpl; reflexivity.
  - unfold w1, calls. rewrite <- !app_assoc. reflexivity.
Qed.

(** ** The frame as a whole *)

Lemma bind_assoc {A B C} (m : JS A) (k : A → JS B) (h : B → JS C) w :
  ((m ≫= k) ≫= h) w = (m ≫= λ a, k a ≫= h) w.
Proof. unfold mbind, JS_bind. by destruct (m w) as [[a|e] w1]. Qed.

Lemma bind_ext {A B} (m : JS A) (k k' : A → JS B) w :
  (∀ a w1, k a w1 = k' a w1) → (m ≫= k) w = (m ≫= k') w.
Proof. intros H. unfold mbind, JS_bind. by destruct (m w) as [[a|e] w1]. Qed.

Lemma setupOnly_refl w : setupOnly w w.
Proof. split; [apply stable_refl | apply drawsNothing_refl]. Qed.

Lemma setupOnly_trans w1 w2 w3 : setupOnly w1 w2 → setupOnly w2 w3 → setupOnly w1 w3.
Proof.
  intros [S1 D1] [S2 D2].
  split; [by eapply stable_trans | by eapply drawsNothing_trans].
Qed.

Lemma respects_setupOnly {A} (m : JS A) :
  respects (stable setupFrame) m → respects drawsNothing m → respects setupOnly m.
Proof. intros H1 H2 w. split; [apply H1 | apply H2]. Qed.

Lemma respects_compileFrame_setupFrame {A} (m : JS A) :
  respects (stable compileFrame) m → respects (stable setupFrame) m.
Proof. intros H w. apply stable_compileFrame_setupFrame, H. Qed.

Lemma glCall_compileFrame c : respects (stable compileFrame) (glCall c).
Proof. stable_leaf. Qed.

Lemma compileProgram_setupOnly gl : respects setupOnly (compileProgram gl).
Proof.
  apply respects_setupOnly;
    [apply respects_compileFrame_setupFrame, compileProgram_compileFrame
    |apply compileProgram_drawsNothing].
Qed.

Lemma glCall_setupOnly c : isDraw c = false → respects setupOnly (glCall c).
Proof.
  intros Hc. apply respects_setupOnly;
    [apply respects_compileFrame_setupFrame, glCall_compileFrame|].
  intros w. exists [c]. split; [reflexivity|].
  rewrite filter_cons, filter_nil. rewrite Hc. by destruct (decide _).
Qed.

Lemma setUpVertexBuffer_setupOnly p : respects setupOnly (setUpVertexBuffer p).
Proof.
  apply respects_setupOnly;
    [apply respects_compileFrame_setupFrame, setUpVertexBuffer_compileFrame
    |apply setUpVertexBuffer_drawsNothing].
Qed.

Lemma setUpLights_setupOnly gl p : respects setupOnly (setUpLights gl p).
Proof.
  apply respects_setupOnly;
    [apply respects_compileFrame_setupFrame, setUpLights_compileFrame
    |apply setUpLights_drawsNothing].
Qed.

Lemma setUpTextures_setupOnly gl p : respects setupOnly (setUpTextures gl p).
Proof.
  apply respects_setupOnly;
    [apply setUpTextures_setupFrame | apply setUpTextures_drawsNothing].
Qed.

Lemma renderLoop_normal_setupOnly p m : respects setupOnly (renderLoop_normal p m).
Proof.
  apply respects_setupOnly;
    [apply renderLoop_normal_setupFrame | apply renderLoop_normal_drawsNothing].
Qed.

Lemma renderLoop_matrices_setupOnly p : respects setupOnly (renderLoop_matrices p).
Proof.
  apply respects_setupOnly;
    [apply renderLoop_matrices_setupFrame | apply renderLoop_matrices_drawsNothing].
Qed.

Lemma renderLoop_clear_setupOnly : respects setupOnly renderLoop_clear.
Proof.
  apply respects_setupOnly;
    [apply renderLoop_clear_setupFrame | apply renderLoop_clear_drawsNothing].
Qed.

Ltac setup_step :=
  lazymatch goal with
  | |- respects setupOnly (_ ≫= _) =>
      apply (respects_bind _ setupOnly_trans); [|intros _]
  | |- respects setupOnly (glCall _) => apply glCall_setupOnly; reflexivity
  | |- respects setupOnly (setUpVertexBuffer _) => apply setUpVertexBuffer_setupOnly
  | |- respects setupOnly (setUpLights _ _) => apply setUpLights_setupOnly
  | |- respects setupOnly (setUpTextures _ _) => apply setUpTextures_setupOnly
  | |- respects setupOnly (renderLoop_normal _ _) => apply renderLoop_normal_setupOnly
  | |- respects setupOnly (renderLoop_matrices _) => apply renderLoop_matrices_setupOnly
  | |- respects setupOnly renderLoop_clear => apply renderLoop_clear_setupOnly
  end.

Lemma renderLoop_setup_setupOnly gl p m : respects setupOnly (renderLoop_setup gl p m).
Proof. unfold renderLoop_setup. repeat setup_step. Qed.

(** After the guard, [renderLoop] is: the program, the set-up, the rest. *)
Lemma renderLoop_split w gl m c :
  ready w gl m c →
  renderLoop w
    = (compileProgram (Some gl) ≫= λ p,
         match p with
         | None => mret tt
         | Some p => renderLoop_setup gl p m;; renderLoop_finish
         end) w.
Proof.
  intros (Hgl & Hm & Hc). unfold renderLoop.
  unfold get at 1. unfold mbind at 1, JS_bind at 1. rewrite Hgl, Hm, Hc.
  apply bind_ext. intros [p|] w1; [|reflexivity].
  unfold renderLoop_setup, renderLoop_finish.
  repeat (rewrite bind_assoc; apply bind_ext; intros _ ?).
  reflexivity.
Qed.

Lemma renderLoop_outcome w : FrameOutcome w.
Proof.
  destruct (glContext (sceneData w)) as [gl|] eqn:Hgl;
    [destruct (model (sceneData w)) as [m|] eqn:Hm;
       [destruct (camera (sceneData w)) as [c|] eqn:Hc|]|].
  2-4: apply Idle; [auto|];
       unfold renderLoop, get; unfold mbind at 1, JS_bind at 1;
       by rewrite ?Hgl, ?Hm, ?Hc.
  assert (Hready : ready w gl m c) by done.
  pose proof (renderLoop_split w gl m c Hready) as Hsplit.
  pose proof (compileProgram_setupOnly (Some gl) w) as R1. unfold after in R1.
  destruct (compileProgram (Some gl) w) as [[[p|]|e] w1] eqn:Hcompile;
    cbn [snd] in R1.
  - erewrite bind_Normal in Hsplit by exact Hcompile. cbn beta iota in Hsplit.
    pose proof (renderLoop_setup_setupOnly gl p m w1) as R2. unfold after in R2.
    destruct (renderLoop_setup gl p m w1) as [[[]|e] ws] eqn:Hsetup;
      cbn [snd] in R2.
    + erewrite bind_Normal in Hsplit by exact Hsetup.
      eapply Completed; eauto using setupOnly_trans.
    + erewrite bind_Throw in Hsplit by exact Hsetup.
      eapply Thrown; eauto using setupOnly_trans.
  - erewrite bind_Normal in Hsplit by exact Hcompile.
    eapply NoProgram; eauto.
  - erewrite bind_Throw in Hsplit by exact Hcompile.
    eapply Thrown; eauto.
Qed.

(** What [setupOnly] says about the fields the rest of the frame reads. *)
Lemma setupOnly_fields w ws gl m c :
  ready w gl m c → setupOnly w ws →
  ∃ m' c',
    model (sceneData ws) = Some m' ∧ camera (sceneData ws) = Some c'
    ∧ forgetHandles m' = forgetHandles m
    ∧ forgetViewPort c' = forgetViewPort c
    ∧ driver ws = driver w
    ∧ clock ws = clock w
    ∧ animationFrames ws = animationFrames w
    ∧ fps ws = fps w ∧ lastTime ws = lastTime w ∧ frameNumber ws = frameNumber w.
Proof.
  intros (_ & Hm & Hc) [Hs _]. unfold stable in Hs.
  pose proof (f_equal (λ x, model (sceneData x)) Hs) as Hmodel.
  pose proof (f_equal (λ x, camera (sceneData x)) Hs) as Hcamera.
  unfold setupFrame, forgetGL in Hmodel, Hcamera.
  cbn [model camera sceneData set_clockReads set_console set_gl set_sceneData
       set_sceneFrameNumber set_camera set_model] in Hmodel, Hcamera.
  rewrite Hm in Hmodel. rewrite Hc in Hcamera.
  destruct (model (sceneData ws)) as [m'|]; [|discriminate].
  destruct (camera (sceneData ws)) as [c'|]; [|discriminate].
  exists m', c'. apply (inj Some) in Hmodel. apply (inj Some) in Hcamera.
  repeat split; try done.
  - exact (f_equal driver Hs).
  - exact (f_equal clock Hs).
  - exact (f_equal animationFrames Hs).
  - exact (f_equal fps Hs).
  - exact (f_equal lastTime Hs).
  - exact (f_equal frameNumber Hs).
Qed.

Lemma forgetHandles_frameDraws c c' m m' :
  forgetHandles m' = forgetHandles m → forgetViewPort c' = forgetViewPort c →
  frameDraws c' m' = frameDraws c m.
Proof.
  intros Hm Hc. unfold frameDraws.
  rewrite (f_equal renderSolid Hc : renderSolid c' = renderSolid c).
  rewrite (f_equal vertexIndices Hm : vertexIndices m' = vertexIndices m).
  by rewrite (f_equal numTriangles Hm : numTriangles m' = numTriangles m).
Qed.

Lemma forgetViewPort_frameViewport c c' cw ch :
  forgetViewPort c' = forgetViewPort c → frameViewport c' cw ch = frameViewport c cw ch.
Proof.
  intros Hc. unfold frameViewport.
  by rewrite (f_equal usePerspective Hc : usePerspective c' = usePerspective c).
Qed.

(** A call that is not rescheduled did not get beyond the set-up. *)
Lemma renderLoop_not_rescheduled w :
  (∃ w1, renderLoop w = (Normal tt, w1) ∧ setupOnly w w1)
  ∨ (∃ e w1, renderLoop w = (Throw e, w1) ∧ setupOnly w w1)
  ∨ animationFrames (after renderLoop w) = S (animationFrames w).
Proof.
  destruct (renderLoop_outcome w)
    as [Hidle Hr | gl m c w1 Hready Hc Hr Hs | gl m c e w' Hready Hr Hs
       | gl m c p w1 ws Hready Hc Hsetup Hs Hr].
  - left. exists w. split; [done | apply setupOnly_refl].
  - left. by exists w1.
  - right; left. by exists e, w'.
  - right; right.
    destruct (setupOnly_fields w ws gl m c Hready Hs)
      as (m' & c' & Hm' & Hc' & _ & _ & _ & _ & Hfr & _).
    unfold after. rewrite Hr, (renderLoop_finish_run ws c' m' Hc' Hm').
    cbn [snd]. js_simpl. by rewrite Hfr.
Qed.

(** A frame that is rescheduled went through the set-up, which drew nothing,
    and then made exactly the calls of [renderLoop_finish]. *)
Lemma renderLoop_rescheduled w gl m c :
  ready w gl m c →
  animationFrames (after renderLoop w) = S (animationFrames w) →
  ∃ ws pre,
    setupOnly w ws
    ∧ glCalls ws = (glCalls w ++ pre)%list
    ∧ filter isDraw pre = []
    ∧ completion renderLoop w = Normal tt
    ∧ issued renderLoop w
        = (pre ++ [frameViewport c (canvasWidth (driver w)) (canvasHeight (driver w));
                   Enable DEPTH_TEST] ++ frameDraws c m ++ [Flush; Finish])%list
    ∧ after renderLoop w
        = set_animationFrames (S (animationFrames w))
            (after renderLoop_fps
               (set_gl (glCalls w ++ issued renderLoop w) (glNext ws) ws)).
Proof.
  intros Hready Hresched.
  assert (Hfr : ∀ w1, setupOnly w w1 → animationFrames w1 = animationFrames w).
  { intros w1 [Hs _]. exact (f_equal animationFrames Hs). }
  destruct (renderLoop_outcome w)
    as [Hidle Hr | gl' m' c' w1 Hready' Hc Hr Hs | gl' m' c' e w' Hready' Hr Hs
       | gl' m' c' p w1 ws Hready' Hc Hsetup Hs Hr].
  1-3: exfalso; unfold after in Hresched; rewrite Hr in Hresched;
       cbn [snd] in Hresched; rewrite ?Hfr in Hresched by done; lia.
  clear Hready'.
  destruct (setupOnly_fields w ws gl m c Hready Hs)
    as (m1 & c1 & Hm1 & Hc1 & Hfm & Hfc & Hdrv & _ & Hanim & _).
  destruct Hs as [Hstable (pre & Hpre & Hnodraw)].
  exists ws, pre.
  pose proof (renderLoop_finish_run ws c1 m1 Hc1 Hm1) as Hfin. cbv zeta in Hfin.
  rewrite (forgetHandles_frameDraws _ _ _ _ Hfm Hfc) in Hfin.
  rewrite (forgetViewPort_frameViewport _ _ _ _ Hfc), Hdrv, Hanim in Hfin.
  assert (Hcalls : glCalls (after renderLoop w)
            = (glCalls w ++ pre ++
               [frameViewport c (canvasWidth (driver w)) (canvasHeight (driver w));
                Enable DEPTH_TEST] ++ frameDraws c m ++ [Flush; Finish])%list).
  { unfold after. rewrite Hr, Hfin. cbn [snd]. unfold after.
    rewrite (renderLoop_fps_run _). cbv zeta.
    destruct (jsGt _ _); js_simpl; by rewrite Hpre, <- app_assoc. }
  split; [split; [done | by exists pre]|].
  do 2 (split; [done|]).
  split; [unfold completion; by rewrite Hr, Hfin|].
  split; [by apply issued_app|].
  unfold after at 1. rewrite Hr, Hfin. cbn [snd].
  rewrite (issued_app _ _ _ Hcalls), Hpre.
  by rewrite <- !app_assoc.
Qed.

Lemma filter_isDraw_frameDraws c m :
  filter isDraw (frameDraws c m) = frameDraws c m.
Proof.
  unfold frameDraws. destruct (renderSolid c); [reflexivity|].
  induction (seq 0 (default 0%nat (numTriangles m))) as [|i l IH]; [done|].
  simpl map. rewrite filter_cons_True by done. by rewrite IH.
Qed.

Lemma isDraw_frameViewport c cw ch : isDraw (frameViewport c cw ch) = false.
Proof. unfold frameViewport. by destruct (usePerspective c). Qed.

Lemma filter_isDraw_frame pre c m cw ch :
  filter isDraw pre = [] →
  filter isDraw (pre ++ [frameViewport c cw ch; Enable DEPTH_TEST]
                   ++ frameDraws c m ++ [Flush; Finish])
    = frameDraws c m.
Proof.
  intros Hpre. rewrite !filter_app, Hpre, filter_isDraw_frameDraws.
  rewrite filter_cons_False by (rewrite isDraw_frameViewport; auto).
  cbn. by rewrite app_nil_r.
Qed.

(** ** The draw calls *)

(** C5. For every model with [triangleCount] triangles and every frame that
    runs to its end: in wireframe mode the frame issues exactly
    [triangleCount] draw calls, the i-th a line loop of 3 vertices starting at
    index 3i (byte offset 3i·2 for 16-bit indices); in solid mode it issues
    exactly one draw call, an indexed triangle list over all indices. *)
Theorem renderLoop_draw_calls (w : World) gl m c (triangleCount : nat) :
  ready w gl m c →
  numTriangles m = Some triangleCount →
  rescheduled renderLoop w →
  let draws := filter isDraw (issued renderLoop w) in
  (renderSolid c = false →
     length draws = triangleCount
     ∧ draws = map (λ i, DrawElements LINE_LOOP 3 UNSIGNED_SHORT (3 * Z.of_nat i * 2))
                   (seq 0 triangleCount)
     ∧ ∀ i, (i < triangleCount)%nat →
         draws !! i = Some (DrawElements LINE_LOOP 3 UNSIGNED_SHORT (3 * Z.of_nat i * 2)))
  ∧ (renderSolid c = true →
     draws = [DrawElements TRIANGLES (Z.of_nat (length (vertexIndices m)))
                UNSIGNED_SHORT 0]).
Proof.
  intros Hready Hn Hend draws.
  destruct (renderLoop_rescheduled w gl m c Hready Hend)
    as (ws & pre & _ & _ & Hpre & _ & Hissued & _).
  assert (Hdraws : draws = frameDraws c m).
  { unfold draws. rewrite Hissued. by apply filter_isDraw_frame. }
  rewrite Hdraws. unfold frameDraws. rewrite Hn. cbn [default]. unfold id.
  destruct (renderSolid c); (split; [intros [=]|intros [=]]); [reflexivity|].
  assert (Hmap : map (λ i, DrawElements LINE_LOOP 3 UNSIGNED_SHORT (2 * (3 * Z.of_nat i)))
                     (seq 0 triangleCount)
               = map (λ i, DrawElements LINE_LOOP 3 UNSIGNED_SHORT (3 * Z.of_nat i * 2))
                     (seq 0 triangleCount)).
  { apply map_ext. intros i. f_equal. lia. }
  rewrite Hmap. split; [by rewrite length_map, length_seq|].
  split; [done|].
  intros i Hi. rewrite list_lookup_fmap, lookup_seq_lt by done. reflexivity.
Qed.

(** The quad in wireframe: two line loops, at byte offsets 0 and 6. *)
Lemma renderLoop_draw_calls_witness :
  filter isDraw
    (issued renderLoop
       (Sample.world Sample.willing Sample.quad Sample.wire Sample.warm 0))
  = [DrawElements LINE_LOOP 3 UNSIGNED_SHORT 0;
     DrawElements LINE_LOOP 3 UNSIGNED_SHORT 6].
Proof.
  pose (w := Sample.world Sample.willing Sample.quad Sample.wire Sample.warm 0).
  assert (Hready : ready w WebGL2 Sample.quad Sample.wire) by (repeat split).
  assert (Hend : rescheduled renderLoop w) by (vm_compute; reflexivity).
  destruct (renderLoop_draw_calls w WebGL2 Sample.quad Sample.wire 2
              Hready eq_refl Hend) as [Hwire _].
  destruct (Hwire eq_refl) as (_ & Hdraws & _).
  exact Hdraws.
Defined.

(** ** The viewport *)

Lemma jsDiv_exact a b : (jsDiv a b == a / b)%Q.
Proof. apply Qred_correct. Qed.

(** C6. For every canvas of [cw] by [ch] and every frame that runs to its
    end, the viewport call of the frame comes right before the depth test and
    the draw calls.  With an orthographic camera it is the largest centred
    square: side [min cw ch], offsets [(cw − side)/2] and [(ch − side)/2], so
    800x600 gives (100, 0, 600, 600) and 600x800 gives (0, 100, 600, 600).
    With a perspective camera it is the full canvas. *)
Theorem renderLoop_viewport_letterbox (w : World) gl m c :
  ready w gl m c →
  rescheduled renderLoop w →
  let cw := canvasWidth (driver w) in
  let ch := canvasHeight (driver w) in
  ∃ pre viewport,
    issued renderLoop w
      = pre ++ [viewport; Enable DEPTH_TEST]
            ++ filter isDraw (issued renderLoop w) ++ [Flush; Finish]
    ∧ filter isDraw pre = []
    ∧ (usePerspective c = true →
         viewport = Viewport 0 0 (inject_Z cw) (inject_Z ch))
    ∧ (usePerspective c = false →
         ∃ xOffset yOffset squareSize,
           viewport = Viewport xOffset yOffset (inject_Z squareSize) (inject_Z squareSize)
           ∧ squareSize = Z.min cw ch
           ∧ (xOffset == inject_Z (cw - squareSize) / 2)%Q
           ∧ (yOffset == inject_Z (ch - squareSize) / 2)%Q
           ∧ (cw = 800 → ch = 600 → viewport = Viewport 100 0 600 600)
           ∧ (cw = 600 → ch = 800 → viewport = Viewport 0 100 600 600)).
Proof.
  intros Hready Hend cw ch.
  destruct (renderLoop_rescheduled w gl m c Hready Hend)
    as (ws & pre & _ & _ & Hpre & _ & Hissued & _).
  exists pre, (frameViewport c cw ch).
  split; [|split; [done|]].
  { rewrite Hissued at 2. rewrite filter_isDraw_frame by done. exact Hissued. }
  unfold frameViewport. split; intros ->; [reflexivity|].
  eexists _, _, (Z.min cw ch). split; [reflexivity|]. split; [reflexivity|].
  split; [apply jsDiv_exact|]. split; [apply jsDiv_exact|].
  split; intros -> ->; reflexivity.
Qed.

(** The quad on the 800x600 canvas, with the orthographic camera. *)
Lemma renderLoop_viewport_letterbox_witness :
  ∃ pre,
    issued renderLoop
      (Sample.world Sample.willing Sample.quad Sample.ortho Sample.warm 0)
    = pre ++ [Viewport 100 0 600 600; Enable DEPTH_TEST;
              DrawElements TRIANGLES 6 UNSIGNED_SHORT 0; Flush; Finish].
Proof.
  pose (w := Sample.world Sample.willing Sample.quad Sample.ortho Sample.warm 0).
  assert (Hready : ready w WebGL2 Sample.quad Sample.ortho) by (repeat split).
  assert (Hend : rescheduled renderLoop w) by (vm_compute; reflexivity).
  destruct (renderLoop_viewport_letterbox w WebGL2 Sample.quad Sample.ortho
              Hready Hend) as (pre & viewport & Hissued & _ & _ & Hortho).
  destruct (Hortho eq_refl) as (x & y & s & _ & _ & _ & _ & H800 & _).
  exists pre. fold w. rewrite Hissued, (H800 eq_refl eq_refl).
  replace (filter isDraw (issued renderLoop w))
    with [DrawElements TRIANGLES 6 UNSIGNED_SHORT 0] by (vm_compute; reflexivity).
  reflexivity.
Defined.

(** ** The frame counter *)

(** C7, amended. For every frame that runs to its end the frame counter is
    advanced by one; when more than 1000 time units have passed since the
    window start, by the test of the code ([now − lastTime > 1000], a
    subtraction and a comparison of doubles, [now] being the last clock
    reading of the frame), the frames per second are the counter so advanced,
    the counter is reset to 0 and the window starts at [now]; otherwise, so
    also when the difference is exactly 1000, the frames per second and the
    window start stay and the counter stays advanced.  So 60 frames and more
    than 1000 time units report 60 and reset the counter. *)
Theorem renderLoop_fps_window (w : World) gl m c :
  ready w gl m c →
  rescheduled renderLoop w →
  let w' := after renderLoop w in
  let now := clock w (pred (clockReads w')) in
  (jsGt (jsSub now (lastTime w)) 1000 = true →
     fps w' = S (frameNumber w) ∧ frameNumber w' = 0%nat ∧ lastTime w' = now)
  ∧ (jsGt (jsSub now (lastTime w)) 1000 = false →
     fps w' = fps w ∧ frameNumber w' = S (frameNumber w) ∧ lastTime w' = lastTime w)
  ∧ (frameNumber w = 59%nat → jsGt (jsSub now (lastTime w)) 1000 = true →
     fps w' = 60%nat ∧ frameNumber w' = 0%nat).
Proof.
  intros Hready Hend w' now.
  destruct (renderLoop_rescheduled w gl m c Hready Hend)
    as (ws & pre & Hs & _ & _ & _ & _ & Hafter).
  destruct (setupOnly_fields w ws gl m c Hready Hs)
    as (_ & _ & _ & _ & _ & _ & _ & Hclock & _ & Hfps & Hlast & Hframe).
  assert (Hw' : fps w' = (if jsGt (jsSub now (lastTime w)) 1000
                          then S (frameNumber w) else fps w)
              ∧ frameNumber w' = (if jsGt (jsSub now (lastTime w)) 1000
                                  then 0%nat else S (frameNumber w))
              ∧ lastTime w' = (if jsGt (jsSub now (lastTime w)) 1000
                               then now else lastTime w)).
  { assert (Hnow : now = clock ws (clockReads ws)).
    { unfold now, w'. rewrite Hafter. unfold after.
      rewrite (renderLoop_fps_run _). cbv zeta.
      destruct (jsGt _ _); js_simpl; by rewrite Hclock. }
    unfold w'. rewrite Hafter. unfold after. rewrite (renderLoop_fps_run _).
    cbv zeta. js_simpl. rewrite <- Hnow, Hlast, Hframe, Hfps.
    destruct (jsGt (jsSub now (lastTime w)) 1000); js_simpl; done. }
  destruct Hw' as (Hf & Hn & Hl).
  split; [intros Hgt | split; [intros Hle | intros H59 Hgt]].
  - by rewrite Hgt in Hf, Hn, Hl.
  - by rewrite Hle in Hf, Hn, Hl.
  - rewrite Hgt in Hf, Hn. by rewrite Hf, H59.
Qed.

(** The 60th frame, 1001 time units after the window start. *)
Lemma renderLoop_fps_window_witness :
  fps (after renderLoop sixtiethFrameAt1001) = 60%nat
  ∧ frameNumber (after renderLoop sixtiethFrameAt1001) = 0%nat.
Proof.
  assert (Hready : ready sixtiethFrameAt1001 WebGL2 Sample.plain Sample.ortho)
    by (repeat split).
  assert (Hend : rescheduled renderLoop sixtiethFrameAt1001)
    by (vm_compute; reflexivity).
  destruct (renderLoop_fps_window sixtiethFrameAt1001 WebGL2 Sample.plain Sample.ortho
              Hready Hend) as (_ & _ & H60).
  apply H60; [reflexivity | vm_compute; reflexivity].
Defined.

(** C7 as stated fails: when exactly 1000 time units have passed and this is
    the 60th frame of the window, no frames per second are reported and the
    counter is not reset. *)
Lemma renderLoop_fps_at_exactly_1000 :
  let w := sixtiethFrameAt1000 in
  let w' := after renderLoop w in
  rescheduled renderLoop w
  ∧ (clock w (pred (clockReads w')) - lastTime w == 1000)%Q
  ∧ frameNumber w' = 60%nat
  ∧ fps w' = 0%nat
  ∧ ¬ (fps w' = 60%nat ∧ frameNumber w' = 0%nat).
Proof.
  cbv zeta. split; [vm_compute; reflexivity|].
  split; [vm_compute; reflexivity|].
  split; [vm_compute; reflexivity|].
  split; [vm_compute; reflexivity|].
  intros [H _]. vm_compute in H. discriminate.
Qed.

(** The elapsed time is the rounded one: from the double 0.1 to the double
    1000.1 more than 1000 time units pass, the difference of the two doubles
    is the double 1000, and nothing is reported. *)
Lemma renderLoop_fps_rounds_the_elapsed_time :
  let w := sixtiethFrameFromATenth in
  let w' := after renderLoop w in
  let now := clock w (pred (clockReads w')) in
  rescheduled renderLoop w
  ∧ Double.ofQ (lastTime w) = Double.ofQ (1 # 10)
  ∧ Double.ofQ now = Double.ofQ (10001 # 10)
  ∧ (1000 < now - lastTime w)%Q
  ∧ jsSub now (lastTime w) = Double.ofZ 1000
  ∧ frameNumber w' = 60%nat
  ∧ fps w' = 0%nat.
Proof.
  cbv zeta. split; [vm_compute; reflexivity|].
  split; [vm_compute; reflexivity|].
  split; [vm_compute; reflexivity|].
  split; [vm_compute; reflexivity|].
  split; [vm_compute; reflexivity|].
  split; vm_compute; reflexivity.
Qed.

(** ** Running a statement on an arbitrary world *)

(** Unfold the statements of a function body, reduce the projections, and
    bring the log it leaves into the form [glCalls w ++ [c1; ...; cn]]. *)
Ltac js_run :=
  js_unfold; unfold updateModel, updateCamera, nextSceneFrameNumber in *;
  js_simpl; rewrite <- ?app_assoc; cbn [app];
  rewrite ?drop_app_length, ?drop_all.

(** Membership in a log that is written out. *)
Ltac in_log H :=
  repeat (rewrite elem_of_cons in H); rewrite ?elem_of_nil in H;
  intuition (try discriminate; try congruence).

Lemma set_renderingProgram_fresh m p :
  renderingProgram m = None → set_renderingProgram (Some p) m ≠ m.
Proof. intros Hp H. apply (f_equal renderingProgram) in H. cbn in H. congruence. Qed.

(** Closes a goal about a run whose log and result are written out. *)
Ltac run_solver :=
  repeat match goal with
         | |- _ ∧ _ => split
         | |- _ ↔ _ => split
         | |- _ → _ => intro
         | |- ∀ _, _ => intro
         end;
  repeat match goal with
         | H : _ ∈ _ :: _ |- _ => rewrite elem_of_cons in H
         | H : _ ∈ [] |- _ => by apply elem_of_nil in H
         | H : _ ∨ _ |- _ => destruct H
         | H : _ ∧ _ |- _ => destruct H
         | H : ∃ _, _ |- _ => destruct H
         end;
  simplify_eq;
  try done;
  try (exfalso; eapply set_renderingProgram_fresh; eassumption);
  rewrite ?elem_of_cons; eauto 20.

(** ** The program cache *)

(** C9. On every failure path of [compileProgram] (no model; no camera or
    no context while nothing is cached; a shader that does not compile; a
    program that does not link) the result is null and the model is left as
    it was, as it is when object creation throws.  The cached program is
    written exactly when the link status was read as true, and then with the
    program that linked, which is also the result. *)
Theorem compileProgram_failure_keeps_cache
    (gl : option WebGLRenderingContext) (w : World) :
  let r := completion (compileProgram gl) w in
  let w' := after (compileProgram gl) w in
  let new := issued (compileProgram gl) w in
  (model (sceneData w) = None → r = Normal None)
  ∧ (∀ m, model (sceneData w) = Some m → renderingProgram m = None →
       camera (sceneData w) = None ∨ gl = None → r = Normal None)
  ∧ (∀ s, GetShaderParameter s COMPILE_STATUS false ∈ new → r = Normal None)
  ∧ (∀ p, GetProgramParameter p LINK_STATUS false ∈ new → r = Normal None)
  ∧ (r = Normal None ∨ (∃ e, r = Throw e) →
       model (sceneData w') = model (sceneData w))
  ∧ (∀ p, GetProgramParameter p LINK_STATUS true ∈ new ↔
       ∃ m, model (sceneData w) = Some m ∧ renderingProgram m = None
            ∧ model (sceneData w') = Some (set_renderingProgram (Some p) m))
  ∧ (∀ p, GetProgramParameter p LINK_STATUS true ∈ new → r = Normal (Some p)).
Proof.
  cbv zeta. unfold compileProgram.
  destruct (model (sceneData w)) as [m|] eqn:Hm.
  2: { js_run. rewrite Hm. js_run. run_solver. }
  destruct (renderingProgram m) as [p0|] eqn:Hp.
  { js_run. rewrite Hm. js_run. rewrite Hp. js_run. run_solver. }
  destruct (camera (sceneData w)) as [c|] eqn:Hc.
  2: { js_run. rewrite Hm. js_run. rewrite Hp, Hc. js_run. run_solver. }
  destruct gl as [gl|].
  2: { js_run. rewrite Hm. js_run. rewrite Hp, Hc. js_run. run_solver. }
  js_run. rewrite Hm. js_run. rewrite Hp, Hc. js_run.
  destruct (allocates (driver w) (glNext w)); js_run.
  2: { run_solver. }
  destruct (compileStatus (driver w) (glNext w)); js_run.
  2: { run_solver. }
  destruct (allocates (driver w) (S (glNext w))); js_run.
  2: { run_solver. }
  destruct (compileStatus (driver w) (S (glNext w))); js_run.
  2: { run_solver. }
  destruct (allocates (driver w) (S (S (glNext w)))); js_run.
  2: { run_solver. }
  destruct (linkStatus (driver w) (S (S (glNext w)))); js_run.
  2: { run_solver. }
  rewrite Hm. js_run. run_solver.
Qed.

(** A driver that rejects the vertex shader: null, and nothing cached. *)
Lemma compileProgram_failure_keeps_cache_witness :
  let w := Sample.world Sample.rejecting Sample.quad Sample.ortho Sample.warm 0 in
  completion (compileProgram (Some WebGL2)) w = Normal None
  ∧ model (sceneData (after (compileProgram (Some WebGL2)) w)) = Some Sample.quad.
Proof.
  intros w.
  destruct (compileProgram_failure_keeps_cache (Some WebGL2) w)
    as (_ & _ & Hcompile & _ & Hsame & _).
  assert (Hnull : completion (compileProgram (Some WebGL2)) w = Normal None).
  { apply (Hcompile 0%nat). apply list_elem_of_In. vm_compute. auto 10. }
  split; [exact Hnull|]. rewrite Hsame by (by left). reflexivity.
Defined.

Lemma after_bind_Normal {A B} (m : JS A) (k : A → JS B) w a :
  completion m w = Normal a →
  after (m ≫= k) w = after (k a) (after m w)
  ∧ completion (m ≫= k) w = completion (k a) (after m w).
Proof.
  unfold after, completion, mbind, JS_bind.
  destruct (m w) as [[a'|e] w1]; cbn [fst snd]; intros [= ->]; done.
Qed.




(** ** The lights *)

(** C8. [setUpLights] uploads the light positions and colours only when the
    vertex shader of the scene's model is named exactly
    vertexTextureNormalNormalMapShader.  For any other name, also one that
    contains Normal or NormalMap, it returns and leaves the world as it was:
    no uniform is written.  For that name, with a context, lights and both
    uniform locations, it makes the two uploads. *)
Theorem setUpLights_only_for_normal_map_shader
    (gl : option WebGLRenderingContext) (shaderProgram : WebGLProgram)
    (w : World) (m : ModelGL) :
  model (sceneData w) = Some m →
  (vertexShaderName m ≠ "vertexTextureNormalNormalMapShader" →
     setUpLights gl shaderProgram w = (Normal tt, w))
  ∧ (filter isUniformWrite (issued (setUpLights gl shaderProgram) w) ≠ [] →
     vertexShaderName m = "vertexTextureNormalNormalMapShader")
  ∧ (vertexShaderName m = "vertexTextureNormalNormalMapShader" →
     ∀ g ls lp lc,
       gl = Some g → lights (sceneData w) = Some ls →
       uniformLocation (driver w) shaderProgram "lightsUniform" = Some lp →
       uniformLocation (driver w) shaderProgram "lightColors" = Some lc →
       completion (setUpLights gl shaderProgram) w = Normal tt
       ∧ issued (setUpLights gl shaderProgram) w
           = [GetUniformLocation shaderProgram "lightsUniform" (Some lp);
              Uniform3fv lp (getPositionsFloat32 ls);
              GetUniformLocation shaderProgram "lightColors" (Some lc);
              Uniform3fv lc (getColorsFloat32 ls)]).
Proof.
  intros Hm.
  assert (Hskip : vertexShaderName m ≠ "vertexTextureNormalNormalMapShader" →
                  setUpLights gl shaderProgram w = (Normal tt, w)).
  { intros Hname. apply String.eqb_neq in Hname.
    unfold setUpLights. destruct gl as [g|]; [|reflexivity].
    js_run. destruct (lights (sceneData w)); [|reflexivity].
    js_run. rewrite Hm. js_run. by rewrite Hname. }
  split; [exact Hskip|]. split.
  - intros Hwrites.
    destruct (decide (vertexShaderName m = "vertexTextureNormalNormalMapShader"))
      as [|Hname]; [done|].
    exfalso. apply Hwrites. unfold issued, after.
    rewrite (Hskip Hname). cbn [snd]. by rewrite drop_all.
  - intros Hname g ls lp lc -> Hls Hlp Hlc. apply String.eqb_eq in Hname.
    unfold setUpLights. js_run. rewrite Hls. js_run. rewrite Hm. js_run.
    rewrite Hname. js_run. rewrite Hlp. js_run. rewrite Hlc. js_run. done.
Qed.

(** A vertex shader whose name contains NormalMap but is not the one of the
    gate: nothing is uploaded.  The quad, whose shader is: both arrays are. *)
Lemma setUpLights_only_for_normal_map_shader_witness :
  let other := "vertexTextureNormalMapShader" in
  let w := Sample.world Sample.willing (Sample.unmapped other) Sample.ortho ∅ 0 in
  let w' := Sample.world Sample.willing Sample.quad Sample.ortho ∅ 0 in
  includes "NormalMap" other = true
  ∧ setUpLights (Some WebGL2) 7%nat w = (Normal tt, w)
  ∧ filter isUniformWrite (issued (setUpLights (Some WebGL2) 7%nat) w')
      = [Uniform3fv 13%nat (Double.ofZ <$> [5; 5; -5; -5; 5; 5]);
         Uniform3fv 11%nat (Double.ofZ <$> [1; 1; 1; 1; 0; 0])].
Proof.
  intros other w w'. split; [reflexivity|].
  destruct (setUpLights_only_for_normal_map_shader (Some WebGL2) 7%nat w
              (Sample.unmapped other) eq_refl) as [Hskip _].
  split; [apply Hskip; discriminate|].
  destruct (setUpLights_only_for_normal_map_shader (Some WebGL2) 7%nat w'
              Sample.quad eq_refl) as (_ & _ & Hupload).
  destruct (Hupload eq_refl WebGL2 Sample.twoLights 13%nat 11%nat
              eq_refl eq_refl eq_refl eq_refl) as [_ ->].
  reflexivity.
Defined.

(** ** Textures *)

(** Case analysis on the next answer a run of [setUpTexture] depends on. *)
Ltac next_answer :=
  match goal with
  | |- context [if (?a =? ?b)%Z then _ else _] =>
      destruct (a =? b)%Z eqn:?
  | |- context [if allocates ?d ?n then _ else _] =>
      destruct (allocates d n) eqn:?
  | |- context [match textures ?m !! ?k with _ => _ end] =>
      destruct (textures m !! k) eqn:?
  | |- context [match modelCache ?w !! ?k with _ => _ end] =>
      destruct (modelCache w !! k) eqn:?
  | |- context [match ppmData ?i with _ => _ end] =>
      destruct (ppmData i) eqn:?
  | |- context [match uniformLocation ?d ?p ?n with _ => _ end] =>
      destruct (uniformLocation d p n) eqn:?
  end.

Lemma setUpTexture_forgetGL gl p u ty s :
  respects (stable forgetGL) (setUpTexture gl p u ty s).
Proof. unfold setUpTexture, PPMFileLoader.loadFile. keeps forgetGL. Qed.

(** What one call of [setUpTexture] comes to. *)
Lemma setUpTexture_run g p u ty s w m r w1 :
  model (sceneData w) = Some m →
  setUpTexture (Some g) p u ty s w = (r, w1) →
  let new := drop (length (glCalls w)) (glCalls w1) in
  let lines := drop (length (console w)) (console w1) in
  (∀ t, r = Normal (Some t) →
     CreateTexture (Some t) ∈ new
     ∧ t = glNext w
     ∧ (∃ loc, uniformLocation (driver w) p s = Some loc ∧ Uniform1i loc u ∈ new)
     ∧ textureDataCached w m ty)
  ∧ (textureDataMissing w m ty ∨ allocates (driver w) (glNext w) = false →
     r = Normal None
     ∧ (ConsoleLog "ppmFile is undefined" ∈ lines
        ∨ ConsoleLog "ppmFile.data is undefined" ∈ lines
        ∨ ConsoleLog "Failed to create the texture object" ∈ lines))
  ∧ (textureDataCached w m ty → allocates (driver w) (glNext w) = true →
     uniformLocation (driver w) p s = None →
     r = Throw ("The sampler name " +:+ s +:+ " was not found in the program"))
  ∧ (∀ e, r = Throw e →
     e = "The sampler name " +:+ s +:+ " was not found in the program"
     ∧ uniformLocation (driver w) p s = None).
Proof.
  intros Hm. cbv zeta.
  unfold textureDataMissing, textureDataCached.
  unfold setUpTexture, PPMFileLoader.loadFile.
  js_run. rewrite Hm. js_run.
  repeat (next_answer; js_run).
  all: intros [= <- <-]; js_run.
  all: repeat match goal with
              | |- _ ∧ _ => split
              | |- ∀ _, _ => intro
              | |- _ → _ => intro
              end.
  all: repeat match goal with
              | H : _ ∨ _ |- _ => destruct H
              | H : _ ∧ _ |- _ => destruct H
              | H : ∃ _, _ |- _ => destruct H
              end; simplify_eq; try done.
  all: try by (rewrite !elem_of_cons; auto 20).
  all: try by (eexists; split; [reflexivity|]; rewrite !elem_of_cons; auto 20).
  all: try by eauto 10.
Qed.

(** [setUpTexture] changes the context and the console only. *)
Lemma setUpTexture_frame g p u ty s w r w1 :
  setUpTexture (Some g) p u ty s w = (r, w1) →
  sceneData w1 = sceneData w ∧ modelCache w1 = modelCache w
  ∧ driver w1 = driver w ∧ clockReads w1 = clockReads w.
Proof.
  intros Hrun. pose proof (setUpTexture_forgetGL (Some g) p u ty s w) as H.
  unfold stable, after in H. rewrite Hrun in H. cbn [snd] in H.
  repeat split.
  - exact (f_equal sceneData H).
  - exact (f_equal modelCache H).
  - exact (f_equal driver H).
  - exact (f_equal clockReads H).
Qed.

(** *** The diffuse block of [setUpTextures] *)

Lemma setUpTextures_diffuse_skip gl p m w :
  hasDiffuseMap m = false → setUpTextures_diffuse gl p m w = (Normal tt, w).
Proof. intros H. unfold setUpTextures_diffuse. by rewrite H. Qed.

(** A handle that is there is reused: no call, no change. *)
Lemma setUpTextures_diffuse_reuse gl p m w t :
  model (sceneData w) = Some m → diffuseTexture m = Some t →
  setUpTextures_diffuse gl p m w = (Normal tt, w).
Proof.
  intros Hm Ht. unfold setUpTextures_diffuse.
  destruct (hasDiffuseMap m); [|reflexivity].
  rewrite Ht. js_run. rewrite Hm. js_run. by rewrite Ht.
Qed.

(** A handle that is not there is created, or the block throws. *)
Lemma setUpTextures_diffuse_create g p m w r w2 :
  model (sceneData w) = Some m →
  hasDiffuseMap m = true → diffuseTexture m = None →
  setUpTextures_diffuse (Some g) p m w = (r, w2) →
  let new := drop (length (glCalls w)) (glCalls w2) in
  let lines := drop (length (console w)) (console w2) in
  (r = Normal tt →
     ∃ t, model (sceneData w2) = Some (set_diffuseTexture (Some t) m)
          ∧ CreateTexture (Some t) ∈ new)
  ∧ (textureDataMissing w m "map_Kd" ∨ allocates (driver w) (glNext w) = false →
     r = Throw "Failed to set up diffuse texture, it was expected to be there but it was not"
     ∧ (ConsoleLog "ppmFile is undefined" ∈ lines
        ∨ ConsoleLog "ppmFile.data is undefined" ∈ lines
        ∨ ConsoleLog "Failed to create the texture object" ∈ lines))
  ∧ (textureDataCached w m "map_Kd" → allocates (driver w) (glNext w) = true →
     uniformLocation (driver w) p "textureSampler" = None →
     r = Throw "The sampler name textureSampler was not found in the program").
Proof.
  intros Hm Hflag Hd. cbv zeta. unfold setUpTextures_diffuse.
  rewrite Hflag, Hd. js_run.
  destruct (setUpTexture (Some g) p 0 "map_Kd" "textureSampler" w)
    as [r1 w1] eqn:Hrun.
  destruct (setUpTexture_run g p 0 "map_Kd" "textureSampler" w m r1 w1 Hm Hrun)
    as (Hcreated & Hmissing & Hsampler & Hthrow).
  destruct (setUpTexture_frame _ _ _ _ _ _ _ _ Hrun) as (Hscene & _).
  destruct r1 as [[t|]|e].
  - destruct (Hcreated t eq_refl) as (Hin & _ & _ & Hcached).
    js_run. rewrite Hscene, Hm. js_run. intros [= <- <-]. js_run.
    split; [intros _; by exists t|]. split.
    + intros H. by destruct (Hmissing H).
    + intros H1 H2 H3. by specialize (Hsampler H1 H2 H3).
  - js_run. rewrite Hscene, Hm. js_run. intros [= <- <-]. js_run.
    split; [by intros [=]|]. split.
    + intros H. by destruct (Hmissing H).
    + intros H1 H2 H3. by specialize (Hsampler H1 H2 H3).
  - intros [= <- <-].
    split; [by intros [=]|]. split.
    + intros H. by destruct (Hmissing H).
    + intros _ _ _. by destruct (Hthrow e eq_refl) as [-> _].
Qed.

(** *** The normal block of [setUpTextures] *)

Lemma setUpTextures_normal_skip gl p m w :
  hasNormalMap m = false → setUpTextures_normal gl p m w = (Normal tt, w).
Proof. intros H. unfold setUpTextures_normal. by rewrite H. Qed.

(** A handle that is not there is created, or the block throws.  The block
    tests the model as [setUpTextures] read it, [m0], and works on the model
    of the scene, [m]. *)
Lemma setUpTextures_normal_create g p m0 m w r w2 :
  model (sceneData w) = Some m →
  hasNormalMap m0 = true → normalTexture m0 = None →
  setUpTextures_normal (Some g) p m0 w = (r, w2) →
  let new := drop (length (glCalls w)) (glCalls w2) in
  let lines := drop (length (console w)) (console w2) in
  (r = Normal tt →
     ∃ t, model (sceneData w2) = Some (set_normalTexture (Some t) m)
          ∧ CreateTexture (Some t) ∈ new)
  ∧ (textureDataMissing w m "map_Bump" ∨ allocates (driver w) (glNext w) = false →
     r = Throw "Failed to set up normal texture, it was expected to be there but it was not"
     ∧ (ConsoleLog "ppmFile is undefined" ∈ lines
        ∨ ConsoleLog "ppmFile.data is undefined" ∈ lines
        ∨ ConsoleLog "Failed to create the texture object" ∈ lines))
  ∧ (textureDataCached w m "map_Bump" → allocates (driver w) (glNext w) = true →
     uniformLocation (driver w) p "normalSampler" = None →
     r = Throw "The sampler name normalSampler was not found in the program").
Proof.
  intros Hm Hflag Hd. cbv zeta. unfold setUpTextures_normal.
  rewrite Hflag, Hd. js_run.
  destruct (setUpTexture (Some g) p 1 "map_Bump" "normalSampler" w)
    as [r1 w1] eqn:Hrun.
  destruct (setUpTexture_run g p 1 "map_Bump" "normalSampler" w m r1 w1 Hm Hrun)
    as (Hcreated & Hmissing & Hsampler & Hthrow).
  destruct (setUpTexture_frame _ _ _ _ _ _ _ _ Hrun) as (Hscene & _).
  assert (Hnew : ∀ x l2, x ∈ drop (length (glCalls w)) (glCalls w1) →
            x ∈ drop (length (glCalls w)) (glCalls w1 ++ l2)).
  { intros x l2 Hx.
    destruct (setUpTexture_drawsNothing (Some g) p 1 "map_Bump" "normalSampler" w)
      as (l & Hl & _).
    unfold after in Hl. rewrite Hrun in Hl. cbn [snd] in Hl.
    rewrite Hl in Hx |- *. rewrite <- !app_assoc, drop_app_length in *.
    rewrite elem_of_app. by left. }
  destruct r1 as [[t|]|e].
  - destruct (Hcreated t eq_refl) as (Hin & _ & _ & Hcached).
    js_run. rewrite Hscene, Hm. js_run. intros [= <- <-]. js_run.
    split; [intros _; exists t; split; [done|]; by apply Hnew|]. split.
    + intros H. by destruct (Hmissing H).
    + intros H1 H2 H3. by specialize (Hsampler H1 H2 H3).
  - js_run. rewrite Hscene, Hm. js_run. intros [= <- <-]. js_run.
    split; [by intros [=]|]. split.
    + intros H. by destruct (Hmissing H).
    + intros H1 H2 H3. by specialize (Hsampler H1 H2 H3).
  - intros [= <- <-].
    split; [by intros [=]|]. split.
    + intros H. by destruct (Hmissing H).
    + intros _ _ _. by destruct (Hthrow e eq_refl) as [-> _].
Qed.

Lemma setUpTextures_diffuse_drawsNothing gl p m :
  respects drawsNothing (setUpTextures_diffuse gl p m).
Proof.
  unfold setUpTextures_diffuse.
  respects_walk drawsNothing_refl drawsNothing_trans
    ltac:(idtac; lazymatch goal with
          | |- respects _ (setUpTexture _ _ _ _ _) => apply setUpTexture_drawsNothing
          | |- _ => drawsNothing_leaf
          end).
Qed.

Lemma setUpTextures_normal_drawsNothing gl p m :
  respects drawsNothing (setUpTextures_normal gl p m).
Proof.
  unfold setUpTextures_normal.
  respects_walk drawsNothing_refl drawsNothing_trans
    ltac:(idtac; lazymatch goal with
          | |- respects _ (setUpTexture _ _ _ _ _) => apply setUpTexture_drawsNothing
          | |- _ => drawsNothing_leaf
          end).
Qed.

(** A set-up that succeeds on a model whose flagged handles are null has
    created a texture object for each flagged map. *)
Lemma setUpTextures_recreates g p w m :
  model (sceneData w) = Some m →
  (hasDiffuseMap m = true → diffuseTexture m = None) →
  (hasNormalMap m = true → normalTexture m = None) →
  completion (setUpTextures (Some g) p) w = Normal true →
  ∃ m2, model (sceneData (after (setUpTextures (Some g) p) w)) = Some m2
    ∧ (hasDiffuseMap m = true →
       ∃ t, diffuseTexture m2 = Some t
            ∧ CreateTexture (Some t) ∈ issued (setUpTextures (Some g) p) w)
    ∧ (hasNormalMap m = true →
       ∃ t, normalTexture m2 = Some t
            ∧ CreateTexture (Some t) ∈ issued (setUpTextures (Some g) p) w).
Proof.
  intros Hm Hd Hn. unfold completion, after, issued, setUpTextures.
  js_run. rewrite Hm. js_run.
  destruct (setUpTextures_diffuse (Some g) p m w) as [r1 w2] eqn:H1.
  destruct (setUpTextures_diffuse_drawsNothing (Some g) p m w) as (l1 & Hl1 & _).
  unfold after in Hl1. rewrite H1 in Hl1. cbn [snd] in Hl1.
  destruct r1 as [[]|e]; [|discriminate].
  assert (Hw2 : ∃ m1, model (sceneData w2) = Some m1
                ∧ normalTexture m1 = normalTexture m
                ∧ (hasDiffuseMap m = true →
                   ∃ t, diffuseTexture m1 = Some t ∧ CreateTexture (Some t) ∈ l1)).
  { destruct (hasDiffuseMap m) eqn:Hflag.
    - destruct (setUpTextures_diffuse_create g p m w _ _ Hm Hflag (Hd eq_refl) H1)
        as ((t & Hm1 & Hin) & _); [done|].
      rewrite Hl1, drop_app_length in Hin.
      eexists. split; [exact Hm1|]. split; [done|]. intros _. by exists t.
    - rewrite (setUpTextures_diffuse_skip _ _ _ _ Hflag) in H1.
      injection H1 as <-. exists m. split; [done|]. split; [done|]. intros [=]. }
  destruct Hw2 as (m1 & Hm1 & Hn1 & Hd1).
  destruct (setUpTextures_normal (Some g) p m w2) as [r2 w3] eqn:H2.
  destruct (setUpTextures_normal_drawsNothing (Some g) p m w2) as (l2 & Hl2 & _).
  unfold after in Hl2. rewrite H2 in Hl2. cbn [snd] in Hl2.
  destruct r2 as [[]|e]; [|discriminate]. intros _. cbn [snd].
  rewrite Hl2, Hl1, <- app_assoc, drop_app_length.
  destruct (hasNormalMap m) eqn:Hflag.
  - destruct (setUpTextures_normal_create g p m m1 w2 _ _ Hm1 Hflag (Hn eq_refl) H2)
      as ((t & Hm3 & Hin) & _); [done|].
    rewrite Hl2, drop_app_length in Hin.
    eexists. split; [exact Hm3|]. split.
    + intros Htrue. destruct (Hd1 Htrue) as (t1 & Ht1 & Hin1).
      exists t1. split; [done|]. rewrite elem_of_app. by left.
    + intros _. exists t. split; [done|]. rewrite elem_of_app. by right.
  - rewrite (setUpTextures_normal_skip _ _ _ _ Hflag) in H2.
    injection H2 as <-. exists m1. split; [done|]. split; [|intros [=]].
    intros Htrue. destruct (Hd1 Htrue) as (t1 & Ht1 & Hin1).
    exists t1. split; [done|]. rewrite elem_of_app. by left.
Qed.

(** What [cleanUpTextures] comes to when context and model are there. *)
Lemma cleanUpTextures_run g w m :
  model (sceneData w) = Some m →
  ∃ m',
    cleanUpTextures (Some g) w
      = (Normal tt,
         set_sceneData (set_model (Some m') (sceneData w))
           (set_gl (glCalls w
                    ++ (if hasDiffuseMap m
                        then from_option (λ t, [DeleteTexture t]) [] (diffuseTexture m)
                        else [])
                    ++ (if hasNormalMap m
                        then from_option (λ t, [DeleteTexture t]) [] (normalTexture m)
                        else []))
              (glNext w) w))
    ∧ diffuseTexture m' = (if hasDiffuseMap m then None else diffuseTexture m)
    ∧ normalTexture m' = (if hasNormalMap m then None else normalTexture m)
    ∧ forgetHandles m' = forgetHandles m
    ∧ renderingProgram m' = renderingProgram m.
Proof.
  intros Hm. unfold cleanUpTextures. js_run. rewrite Hm. js_run.
  assert (Hsame : w = set_sceneData (set_model (Some m) (sceneData w))
                        (set_gl (glCalls w) (glNext w) w)).
  { destruct w as [[] ]. cbn in *. by rewrite Hm. }
  destruct (hasDiffuseMap m), (hasNormalMap m),
    (diffuseTexture m) as [d|] eqn:Hd, (normalTexture m) as [n|] eqn:Hn;
    js_run; rewrite ?Hm; js_run; rewrite ?app_nil_r;
    eexists; (split; [first [reflexivity | f_equal; exact Hsame]|]); js_simpl;
    rewrite ?Hd, ?Hn; done.
Qed.

(** *** The invariant of the handles *)

(** What [forgetProgram] keeps of a model. *)
Lemma forgetProgram_fields m' m :
  forgetProgram m' = forgetProgram m →
  vertexShaderName m' = vertexShaderName m
  ∧ hasDiffuseMap m' = hasDiffuseMap m ∧ hasNormalMap m' = hasNormalMap m
  ∧ diffuseTexture m' = diffuseTexture m ∧ normalTexture m' = normalTexture m
  ∧ textures m' = textures m.
Proof.
  intros H. repeat split.
  - exact (f_equal vertexShaderName H).
  - exact (f_equal hasDiffuseMap H).
  - exact (f_equal hasNormalMap H).
  - exact (f_equal diffuseTexture H).
  - exact (f_equal normalTexture H).
  - exact (f_equal textures H).
Qed.

Lemma keepsHandlesUnderFlags_refl w : keepsHandlesUnderFlags w w.
Proof. by intros H. Qed.

Lemma keepsHandlesUnderFlags_trans w1 w2 w3 :
  keepsHandlesUnderFlags w1 w2 → keepsHandlesUnderFlags w2 w3 →
  keepsHandlesUnderFlags w1 w3.
Proof. unfold keepsHandlesUnderFlags. auto. Qed.

(** A statement that leaves the model of the scene alone keeps it. *)
Lemma stable_model_keepsHandlesUnderFlags w w' :
  stable (λ w, model (sceneData w)) w w' → keepsHandlesUnderFlags w w'.
Proof. unfold stable. intros H Hinv m Hm. apply Hinv. by rewrite <- H. Qed.

(** So does one that changes no more of it than the cached program. *)
Lemma compileFrame_keepsHandlesUnderFlags w w' :
  stable compileFrame w w' → keepsHandlesUnderFlags w w'.
Proof.
  unfold stable. intros H Hinv m' Hm'.
  pose proof (f_equal (λ x, model (sceneData x)) H) as Hmodel.
  unfold compileFrame, forgetGL in Hmodel. js_simpl. rewrite Hm' in Hmodel.
  destruct (model (sceneData w)) as [m|] eqn:Hm; [|discriminate].
  apply (inj Some) in Hmodel. specialize (Hinv m Hm).
  destruct (forgetProgram_fields _ _ Hmodel) as (_ & Hfd & Hfn & Hd & Hn & _).
  unfold handlesUnderFlags in *. by rewrite Hd, Hn, Hfd, Hfn.
Qed.

(** The normal block leaves the diffuse handle alone, and the diffuse block
    the normal handle. *)
Lemma setUpTexture_model gl p u ty s :
  respects (stable (λ w, model (sceneData w))) (setUpTexture gl p u ty s).
Proof.
  unfold setUpTexture, PPMFileLoader.loadFile.
  keeps (λ w, model (sceneData w)).
Qed.

Lemma setUpTextures_normal_keeps_diffuse gl p m :
  respects (stable (λ w, diffuseTexture <$> model (sceneData w)))
    (setUpTextures_normal gl p m).
Proof.
  unfold setUpTextures_normal.
  respects_walk (stable_refl (λ w, diffuseTexture <$> model (sceneData w)))
                (stable_trans (λ w, diffuseTexture <$> model (sceneData w)))
    ltac:(idtac; lazymatch goal with
          | |- respects _ (setUpTexture _ _ _ _ _) =>
              intros w; unfold stable;
              by rewrite (setUpTexture_model _ _ _ _ _ w)
          | |- _ => stable_leaf
          end).
Qed.

Lemma setUpTextures_diffuse_keeps_normal gl p m :
  respects (stable (λ w, normalTexture <$> model (sceneData w)))
    (setUpTextures_diffuse gl p m).
Proof.
  unfold setUpTextures_diffuse.
  respects_walk (stable_refl (λ w, normalTexture <$> model (sceneData w)))
                (stable_trans (λ w, normalTexture <$> model (sceneData w)))
    ltac:(idtac; lazymatch goal with
          | |- respects _ (setUpTexture _ _ _ _ _) =>
              intros w; unfold stable;
              by rewrite (setUpTexture_model _ _ _ _ _ w)
          | |- _ => stable_leaf
          end).
Qed.

(** [setUpTextures] writes a handle only under the flag of its map. *)
Lemma setUpTextures_keepsHandlesUnderFlags gl p :
  respects keepsHandlesUnderFlags (setUpTextures gl p).
Proof.
  intros w Hinv m' Hm'.
  pose proof (setUpTextures_setupFrame gl p w) as Hframe. unfold stable in Hframe.
  apply (f_equal (λ x, model (sceneData x))) in Hframe.
  unfold setupFrame, forgetGL in Hframe. js_simpl. rewrite Hm' in Hframe.
  destruct (model (sceneData w)) as [m|] eqn:Hm; [|discriminate].
  apply (inj Some) in Hframe.
  assert (Hfd : hasDiffuseMap m' = hasDiffuseMap m) by exact (f_equal hasDiffuseMap Hframe).
  assert (Hfn : hasNormalMap m' = hasNormalMap m) by exact (f_equal hasNormalMap Hframe).
  destruct (Hinv m Hm) as [Hd Hn].
  destruct gl as [g|].
  2: { unfold after, setUpTextures in Hm'. cbn in Hm'. rewrite Hm in Hm'.
       injection Hm' as <-. by split. }
  assert (Hrun : after (setUpTextures (Some g) p) w
                 = after (setUpTextures_diffuse (Some g) p m;;
                          setUpTextures_normal (Some g) p m;; mret true) w).
  { unfold after, setUpTextures. unfold getModel, mbind at 1, JS_bind at 1.
    by rewrite Hm. }
  rewrite Hrun in Hm'. clear Hrun.
  pose proof (setUpTextures_diffuse_keeps_normal (Some g) p m w) as Hkn.
  unfold stable in Hkn. rewrite Hm in Hkn.
  unfold after, mbind, JS_bind in Hm', Hkn |- *.
  destruct (setUpTextures_diffuse (Some g) p m w) as [r1 w2] eqn:H1.
  cbn [snd] in Hkn.
  pose proof (setUpTextures_normal_keeps_diffuse (Some g) p m w2) as Hkd.
  unfold stable, after in Hkd.
  destruct (setUpTextures_normal (Some g) p m w2) as [r2 w3] eqn:H2.
  cbn [snd] in Hkd.
  split.
  - intros Hhas. rewrite Hfd. destruct (hasDiffuseMap m) eqn:Hflag; [done|].
    exfalso. apply Hhas.
    rewrite (setUpTextures_diffuse_skip _ _ _ _ Hflag) in H1.
    injection H1 as <- <-.
    assert (Hnone : diffuseTexture m = None)
      by (destruct (diffuseTexture m); [by discriminate Hd|done]).
    rewrite Hm in Hkd. cbn in Hkd. rewrite Hnone in Hkd.
    destruct r2 as [[]|e]; unfold mret, JS_ret in Hm'; cbn [snd] in Hm';
      rewrite Hm' in Hkd; by injection Hkd.
  - intros Hhas. rewrite Hfn. destruct (hasNormalMap m) eqn:Hflag; [done|].
    exfalso. apply Hhas.
    assert (Hnone : normalTexture m = None)
      by (destruct (normalTexture m); [by discriminate Hn|done]).
    cbn in Hkn. rewrite Hnone in Hkn.
    destruct r1 as [[]|e].
    + rewrite (setUpTextures_normal_skip _ _ _ _ Hflag) in H2.
      injection H2 as <- <-. unfold mret, JS_ret in Hm'. cbn [snd] in Hm'.
      rewrite Hm' in Hkn. by injection Hkn.
    + cbn [snd] in Hm'. rewrite Hm' in Hkn. by injection Hkn.
Qed.

(** [cleanUpTextures] only resets handles. *)
Lemma cleanUpTextures_keepsHandlesUnderFlags gl :
  respects keepsHandlesUnderFlags (cleanUpTextures gl).
Proof.
  intros w Hinv m' Hm'.
  destruct gl as [g|]; [|by apply Hinv].
  destruct (model (sceneData w)) as [m|] eqn:Hm.
  - destruct (cleanUpTextures_run g w m Hm) as (m1 & Hrun & Hd & Hn & Hfix & _).
    unfold after in Hm'. rewrite Hrun in Hm'. js_simpl. injection Hm' as <-.
    destruct (Hinv m Hm) as [Hid Hin].
    assert (Hfd : hasDiffuseMap m1 = hasDiffuseMap m)
      by exact (f_equal hasDiffuseMap Hfix).
    assert (Hfn : hasNormalMap m1 = hasNormalMap m)
      by exact (f_equal hasNormalMap Hfix).
    split; [rewrite Hd, Hfd | rewrite Hn, Hfn].
    + by destruct (hasDiffuseMap m).
    + by destruct (hasNormalMap m).
  - unfold after, cleanUpTextures in Hm'.
    unfold getModel, mbind, JS_bind in Hm'. rewrite Hm in Hm'.
    unfold mret, JS_ret in Hm'. cbn [snd] in Hm'. by rewrite Hm in Hm'.
Qed.

(** C4. For every model state of the data model, where a texture handle is
    non-null only for a map that the model has, and a context that is
    there, [cleanUpTextures] deletes the diffuse and the normal handle
    whenever they are non-null and resets them to null: after the clean-up
    both handles are null and the rest of the model is as it was.  A set-up
    that follows and succeeds has created a new texture object for each map
    of the model, so no handle from before the clean-up is used again; and
    both the clean-up and the set-up leave a model of the data model. *)
Theorem cleanUpTextures_deletes_both_handles
    (g : WebGLRenderingContext) (w : World) (m : ModelGL) :
  model (sceneData w) = Some m →
  handlesUnderFlags m →
  let w' := after (cleanUpTextures (Some g)) w in
  completion (cleanUpTextures (Some g)) w = Normal tt
  ∧ issued (cleanUpTextures (Some g)) w
      = from_option (λ t, [DeleteTexture t]) [] (diffuseTexture m)
        ++ from_option (λ t, [DeleteTexture t]) [] (normalTexture m)
  ∧ (∃ m', model (sceneData w') = Some m'
       ∧ diffuseTexture m' = None ∧ normalTexture m' = None
       ∧ forgetHandles m' = forgetHandles m
       ∧ renderingProgram m' = renderingProgram m
       ∧ handlesUnderFlags m')
  ∧ (∀ p, completion (setUpTextures (Some g) p) w' = Normal true →
       ∃ m'', model (sceneData (after (setUpTextures (Some g) p) w')) = Some m''
         ∧ (hasDiffuseMap m = true →
            ∃ t, diffuseTexture m'' = Some t
                 ∧ CreateTexture (Some t) ∈ issued (setUpTextures (Some g) p) w')
         ∧ (hasNormalMap m = true →
            ∃ t, normalTexture m'' = Some t
                 ∧ CreateTexture (Some t) ∈ issued (setUpTextures (Some g) p) w')
         ∧ handlesUnderFlags m'').
Proof.
  intros Hm [Hid Hin] w'.
  destruct (cleanUpTextures_run g w m Hm) as (m' & Hrun & Hd & Hn & Hfix & Hprog).
  assert (Hm' : model (sceneData w') = Some m').
  { unfold w', after. by rewrite Hrun. }
  assert (Hfd : hasDiffuseMap m' = hasDiffuseMap m)
    by exact (f_equal hasDiffuseMap Hfix).
  assert (Hfn : hasNormalMap m' = hasNormalMap m)
    by exact (f_equal hasNormalMap Hfix).
  assert (Hd' : diffuseTexture m' = None).
  { rewrite Hd. destruct (hasDiffuseMap m); [done|].
    destruct (diffuseTexture m); [by discriminate Hid|done]. }
  assert (Hn' : normalTexture m' = None).
  { rewrite Hn. destruct (hasNormalMap m); [done|].
    destruct (normalTexture m); [by discriminate Hin|done]. }
  assert (Hinv' : handlesUnderFlags m') by (split; by rewrite ?Hd', ?Hn').
  split; [unfold completion; by rewrite Hrun|].
  split.
  { rewrite (issued_app _ _ _ (f_equal (λ x, glCalls x.2) Hrun)).
    destruct (hasDiffuseMap m), (hasNormalMap m),
      (diffuseTexture m), (normalTexture m); try done;
      first [by discriminate Hid | by discriminate Hin]. }
  split; [by exists m'|].
  intros p Hok.
  destruct (setUpTextures_recreates g p w' m' Hm') as (m2 & Hm2 & Hd2 & Hn2);
    [done | done | done |].
  exists m2. rewrite <- Hfd, <- Hfn. do 3 (split; [done|]).
  apply (setUpTextures_keepsHandlesUnderFlags (Some g) p w'); [|done].
  intros m0 Hm0. rewrite Hm' in Hm0. by injection Hm0 as <-.
Qed.

(** The quad with both textures bound to handles 3 and 4: both are deleted,
    both handles are null afterwards, and the next set-up creates new ones. *)
Lemma cleanUpTextures_deletes_both_handles_witness :
  let bound := set_normalTexture (Some 4%nat)
                 (set_diffuseTexture (Some 3%nat) Sample.quad) in
  let w := Sample.world Sample.willing bound Sample.ortho Sample.warm 0 in
  let w' := after (cleanUpTextures (Some WebGL2)) w in
  issued (cleanUpTextures (Some WebGL2)) w = [DeleteTexture 3%nat; DeleteTexture 4%nat]
  ∧ (∃ m', model (sceneData w') = Some m'
           ∧ diffuseTexture m' = None ∧ normalTexture m' = None)
  ∧ ∃ m'' t, model (sceneData (after (setUpTextures (Some WebGL2) 2%nat) w')) = Some m''
           ∧ diffuseTexture m'' = Some t
           ∧ CreateTexture (Some t) ∈ issued (setUpTextures (Some WebGL2) 2%nat) w'.
Proof.
  intros bound w w'.
  assert (Hinv : handlesUnderFlags bound) by (split; reflexivity).
  destruct (cleanUpTextures_deletes_both_handles WebGL2 w bound eq_refl Hinv)
    as (_ & Hissued & (m' & Hm' & Hd & Hn & _) & Hagain).
  split; [exact Hissued|]. split.
  - exists m'. split; [exact Hm'|]. split; [exact Hd | exact Hn].
  - destruct (Hagain 2%nat) as (m'' & Hm'' & Hd2 & _); [vm_compute; reflexivity|].
    destruct (Hd2 eq_refl) as (t & Ht & Hin).
    exists m'', t. done.
Defined.

(** ** Frames that fail *)

Lemma logsGrow_refl w : logsGrow w w.
Proof. exists []. by rewrite app_nil_r. Qed.

Lemma logsGrow_trans w1 w2 w3 : logsGrow w1 w2 → logsGrow w2 w3 → logsGrow w1 w3.
Proof.
  intros (l1 & H1) (l2 & H2). exists (l1 ++ l2). by rewrite H2, H1, <- app_assoc.
Qed.

Ltac logsGrow_leaf :=
  intros ?; unfold after, logsGrow; js_leaf;
  first [ exists []; js_simpl; rewrite app_nil_r; reflexivity
        | eexists [_]; js_simpl; reflexivity ].

Ltac logs_grow := respects_walk logsGrow_refl logsGrow_trans logsGrow_leaf.

Lemma compileProgram_logsGrow gl : respects logsGrow (compileProgram gl).
Proof. unfold compileProgram. logs_grow. Qed.

Lemma setUpVertexBuffer_logsGrow p : respects logsGrow (setUpVertexBuffer p).
Proof. unfold setUpVertexBuffer. logs_grow. Qed.

Lemma setUpLights_logsGrow gl p : respects logsGrow (setUpLights gl p).
Proof. unfold setUpLights. logs_grow. Qed.

Lemma setUpTexture_logsGrow gl p u ty s : respects logsGrow (setUpTexture gl p u ty s).
Proof. unfold setUpTexture, PPMFileLoader.loadFile. logs_grow. Qed.

Lemma setUpTextures_logsGrow gl p : respects logsGrow (setUpTextures gl p).
Proof.
  unfold setUpTextures, setUpTextures_diffuse, setUpTextures_normal.
  respects_walk logsGrow_refl logsGrow_trans
    ltac:(idtac; lazymatch goal with
          | |- respects _ (setUpTexture _ _ _ _ _) => apply setUpTexture_logsGrow
          | |- _ => logsGrow_leaf
          end).
Qed.

Lemma glCall_logsGrow c : respects logsGrow (glCall c).
Proof. logsGrow_leaf. Qed.

(** What [stable compileFrame] says about the fields the set-up reads. *)
Lemma compileFrame_fields w w' gl m c :
  ready w gl m c → stable compileFrame w w' →
  ∃ m', ready w' gl m' c
    ∧ forgetProgram m' = forgetProgram m
    ∧ lights (sceneData w') = lights (sceneData w)
    ∧ driver w' = driver w
    ∧ modelCache w' = modelCache w.
Proof.
  intros (Hgl & Hm & Hc) Hs. unfold stable in Hs.
  pose proof (f_equal (λ x, model (sceneData x)) Hs) as Hmodel.
  unfold compileFrame, forgetGL in Hmodel.
  cbn [model sceneData set_console set_gl set_sceneData set_model] in Hmodel.
  rewrite Hm in Hmodel.
  destruct (model (sceneData w')) as [m'|] eqn:Hm'; [|discriminate].
  apply (inj Some) in Hmodel. exists m'.
  pose proof (f_equal (λ x, glContext (sceneData x)) Hs) as Hgl'.
  pose proof (f_equal (λ x, camera (sceneData x)) Hs) as Hc'.
  pose proof (f_equal (λ x, lights (sceneData x)) Hs) as Hl'.
  unfold compileFrame, forgetGL in Hgl', Hc', Hl'.
  cbn [glContext camera lights sceneData set_console set_gl set_sceneData set_model]
    in Hgl', Hc', Hl'.
  repeat split; try done; try congruence.
  - exact (f_equal driver Hs).
  - exact (f_equal modelCache Hs).
Qed.

Lemma setUpVertexBuffer_Normal p w m :
  model (sceneData w) = Some m → completion (setUpVertexBuffer p) w = Normal tt.
Proof. intros Hm. unfold completion, setUpVertexBuffer. js_run. by rewrite Hm. Qed.

Lemma setUpLights_Normal g p w m :
  model (sceneData w) = Some m → lightsDeclared w p m →
  completion (setUpLights (Some g) p) w = Normal tt.
Proof.
  intros Hm Hdecl. unfold completion, setUpLights. js_run.
  destruct (lights (sceneData w)) as [ls|] eqn:Hls; [|reflexivity].
  js_run. rewrite Hm. js_run.
  destruct (String.eqb_spec (vertexShaderName m) "vertexTextureNormalNormalMapShader")
    as [Hname|Hname]; [|reflexivity].
  js_run. destruct (Hdecl Hname) as [H1 H2]; [by rewrite Hls|].
  destruct (uniformLocation (driver w) p "lightsUniform"); [|done]. js_run.
  destruct (uniformLocation (driver w) p "lightColors"); [|done]. by js_run.
Qed.

Lemma setUpLights_Throw g p w m ls :
  model (sceneData w) = Some m →
  vertexShaderName m = "vertexTextureNormalNormalMapShader" →
  lights (sceneData w) = Some ls →
  uniformLocation (driver w) p "lightsUniform" = None
    ∨ uniformLocation (driver w) p "lightColors" = None →
  completion (setUpLights (Some g) p) w
    = Throw (match uniformLocation (driver w) p "lightsUniform" with
             | Some _ => "Failed to get the storage location of lightColor"
             | None => "Failed to get the storage location of hack"
             end).
Proof.
  intros Hm Hname Hls Hnone. apply String.eqb_eq in Hname.
  unfold completion, setUpLights. js_run. rewrite Hls. js_run. rewrite Hm. js_run.
  rewrite Hname. js_run.
  destruct (uniformLocation (driver w) p "lightsUniform"); [|reflexivity]. js_run.
  destruct Hnone as [|Hc]; [done|]. by rewrite Hc.
Qed.

Lemma renderLoop_setup_nest gl p m w :
  renderLoop_setup gl p m w
    = (glCall (UseProgram p);; setUpVertexBuffer p;; renderLoop_fromLights gl p m) w.
Proof. reflexivity. Qed.

(** A frame whose program is there gets to the lights, with only the
    context, the console and the cached program changed. *)
Lemma renderLoop_reaches_lights w gl m c p w1 :
  ready w gl m c →
  compileProgram (Some gl) w = (Normal (Some p), w1) →
  ∃ w2, stable compileFrame w w2 ∧ logsGrow w w2
    ∧ renderLoop w = (renderLoop_fromLights gl p m;; renderLoop_finish) w2.
Proof.
  intros Hready Hcompile.
  pose proof (compileProgram_compileFrame (Some gl) w) as S1.
  pose proof (compileProgram_logsGrow (Some gl) w) as G1.
  unfold after in S1, G1. rewrite Hcompile in S1, G1. cbn [snd] in S1, G1.
  destruct (compileFrame_fields w w1 gl m c Hready S1) as (m1 & (_ & Hm1 & _) & _).
  set (w1' := set_gl (glCalls w1 ++ [UseProgram p]) (glNext w1) w1).
  assert (S1' : stable compileFrame w1 w1') by apply (glCall_compileFrame (UseProgram p) w1).
  assert (G1' : logsGrow w1 w1') by apply (glCall_logsGrow (UseProgram p) w1).
  pose proof (setUpVertexBuffer_compileFrame p w1') as S2.
  pose proof (setUpVertexBuffer_logsGrow p w1') as G2.
  pose proof (setUpVertexBuffer_Normal p w1' m1 Hm1) as N2.
  unfold after in S2, G2. unfold completion in N2.
  destruct (setUpVertexBuffer p w1') as [r2 w2] eqn:Hvb. cbn [fst snd] in *. subst r2.
  exists w2. split; [|split].
  - eapply stable_trans; [exact S1|]. eapply stable_trans; [exact S1'|exact S2].
  - eapply logsGrow_trans; [exact G1|]. eapply logsGrow_trans; [exact G1'|exact G2].
  - rewrite (renderLoop_split w gl m c Hready).
    erewrite bind_Normal by exact Hcompile. cbn beta iota.
    unfold renderLoop_setup at 1. rewrite bind_assoc.
    rewrite bind_glCall. fold w1'.
    rewrite bind_assoc. erewrite bind_Normal by exact Hvb. reflexivity.
Qed.

(** With the light uniforms declared, it gets to the textures. *)
Lemma renderLoop_reaches_textures w gl m c p w1 :
  ready w gl m c →
  compileProgram (Some gl) w = (Normal (Some p), w1) →
  lightsDeclared w p m →
  ∃ w3, stable compileFrame w w3 ∧ logsGrow w w3
    ∧ renderLoop w = (renderLoop_fromTextures gl p m;; renderLoop_finish) w3.
Proof.
  intros Hready Hcompile Hdecl.
  destruct (renderLoop_reaches_lights w gl m c p w1 Hready Hcompile)
    as (w2 & S2 & G2 & Hloop).
  destruct (compileFrame_fields w w2 gl m c Hready S2)
    as (m2 & (_ & Hm2 & _) & Hfix & Hlights & Hdrv & _).
  assert (Hdecl2 : lightsDeclared w2 p m2).
  { unfold lightsDeclared in *. rewrite Hlights, Hdrv.
    by rewrite (f_equal vertexShaderName Hfix : vertexShaderName m2 = vertexShaderName m). }
  pose proof (setUpLights_compileFrame (Some gl) p w2) as S3.
  pose proof (setUpLights_logsGrow (Some gl) p w2) as G3.
  pose proof (setUpLights_Normal gl p w2 m2 Hm2 Hdecl2) as N3.
  unfold after in S3, G3. unfold completion in N3.
  destruct (setUpLights (Some gl) p w2) as [r3 w3] eqn:Hl. cbn [fst snd] in *. subst r3.
  exists w3. split; [|split].
  - eapply stable_trans; [exact S2|exact S3].
  - eapply logsGrow_trans; [exact G2|exact G3].
  - rewrite Hloop. unfold renderLoop_fromLights at 1.
    rewrite bind_assoc. erewrite bind_Normal by exact Hl. reflexivity.
Qed.

(** A call of [renderLoop] that throws threw in the set-up. *)
Lemma renderLoop_Throw w e :
  completion renderLoop w = Throw e →
  animationFrames (after renderLoop w) = animationFrames w
  ∧ filter isDraw (issued renderLoop w) = [].
Proof.
  intros Hthrow.
  destruct (renderLoop_not_rescheduled w)
    as [(w1 & Hr & Hs)|[(e' & w1 & Hr & Hs)|Hresched]].
  - unfold completion in Hthrow. rewrite Hr in Hthrow. discriminate.
  - destruct Hs as [Hstable Hdraws].
    assert (Hafter : after renderLoop w = w1) by (unfold after; by rewrite Hr).
    split.
    + rewrite Hafter. exact (f_equal animationFrames Hstable).
    + rewrite <- Hafter in Hdraws. by apply drawsNothing_issued in Hdraws as [_ ?].
  - exfalso.
    destruct (renderLoop_outcome w)
      as [Hidle Hr | gl m c w1 Hready Hc Hr Hs | gl m c e' w' Hready Hr Hs
         | gl m c p w1 ws Hready Hc Hsetup Hs Hr].
    + unfold completion in Hthrow. rewrite Hr in Hthrow. discriminate.
    + unfold completion in Hthrow. rewrite Hr in Hthrow. discriminate.
    + destruct Hs as [Hstable _]. unfold rescheduled, after in Hresched.
      rewrite Hr in Hresched. cbn [snd] in Hresched.
      pose proof (f_equal animationFrames Hstable : animationFrames w' = animationFrames w).
      lia.
    + destruct (setupOnly_fields w ws gl m c Hready Hs)
        as (m' & c' & Hm' & Hc' & _).
      unfold completion in Hthrow.
      rewrite Hr, (renderLoop_finish_run ws c' m' Hc' Hm') in Hthrow. discriminate.
Qed.




Lemma textureDataCached_stable w w' m m' ty :
  textures m' = textures m → modelCache w' = modelCache w →
  textureDataCached w m ty → textureDataCached w' m' ty.
Proof. unfold textureDataCached. by intros -> ->. Qed.

(** A throw of the diffuse block is a throw of [setUpTextures]. *)
Lemma setUpTextures_diffuse_Throw g p w m e w2 :
  model (sceneData w) = Some m →
  setUpTextures_diffuse (Some g) p m w = (Throw e, w2) →
  setUpTextures (Some g) p w = (Throw e, w2).
Proof.
  intros Hm Hd. unfold setUpTextures.
  unfold getModel, mbind at 1, JS_bind at 1. rewrite Hm.
  by erewrite bind_Throw by exact Hd.
Qed.

(** The diffuse block changes the context, the console and the diffuse
    handle of the model, and nothing else. *)
Lemma setUpTextures_diffuse_setupFrame gl p m :
  respects (stable setupFrame) (setUpTextures_diffuse gl p m).
Proof.
  unfold setUpTextures_diffuse.
  respects_walk (stable_refl setupFrame) (stable_trans setupFrame)
    ltac:(idtac; lazymatch goal with
          | |- respects _ (setUpTexture _ _ _ _ _) => apply setUpTexture_setupFrame
          | |- _ => stable_leaf
          end).
Qed.

Lemma setUpTextures_diffuse_logsGrow gl p m :
  respects logsGrow (setUpTextures_diffuse gl p m).
Proof.
  unfold setUpTextures_diffuse.
  respects_walk logsGrow_refl logsGrow_trans
    ltac:(idtac; lazymatch goal with
          | |- respects _ (setUpTexture _ _ _ _ _) => apply setUpTexture_logsGrow
          | |- _ => logsGrow_leaf
          end).
Qed.

(** What the normal block finds when the diffuse block is through. *)
Lemma setUpTextures_diffuse_fields g p w m r w4 :
  model (sceneData w) = Some m →
  setUpTextures_diffuse (Some g) p m w = (r, w4) →
  ∃ m4, model (sceneData w4) = Some m4
    ∧ textures m4 = textures m
    ∧ normalTexture m4 = normalTexture m
    ∧ modelCache w4 = modelCache w
    ∧ driver w4 = driver w
    ∧ logsGrow w w4.
Proof.
  intros Hm Hrun.
  pose proof (setUpTextures_diffuse_setupFrame (Some g) p m w) as Hs.
  pose proof (setUpTextures_diffuse_keeps_normal (Some g) p m w) as Hn.
  pose proof (setUpTextures_diffuse_logsGrow (Some g) p m w) as Hl.
  unfold stable, after in Hs, Hn, Hl. rewrite Hrun in Hs, Hn, Hl.
  cbn [snd] in Hs, Hn, Hl.
  pose proof (f_equal (λ x, model (sceneData x)) Hs) as Hmodel.
  unfold setupFrame, forgetGL in Hmodel. js_simpl. rewrite Hm in Hmodel, Hn.
  destruct (model (sceneData w4)) as [m4|]; [|discriminate].
  apply (inj Some) in Hmodel. apply (inj Some) in Hn.
  exists m4. split; [done|].
  split; [exact (f_equal textures Hmodel)|]. split; [done|].
  split; [exact (f_equal modelCache Hs)|]. split; [exact (f_equal driver Hs)|done].
Qed.

(** A throw of the normal block is a throw of [setUpTextures]. *)
Lemma setUpTextures_normal_Throw g p w m w4 e w5 :
  model (sceneData w) = Some m →
  setUpTextures_diffuse (Some g) p m w = (Normal tt, w4) →
  setUpTextures_normal (Some g) p m w4 = (Throw e, w5) →
  setUpTextures (Some g) p w = (Throw e, w5).
Proof.
  intros Hm Hd Hn. unfold setUpTextures.
  unfold getModel, mbind at 1, JS_bind at 1. rewrite Hm.
  erewrite bind_Normal by exact Hd.
  by erewrite bind_Throw by exact Hn.
Qed.

(** With its data cached, its sampler declared and a driver that gives the
    object, [setUpTexture] returns the texture. *)
Lemma setUpTexture_Some g p u ty s w m :
  model (sceneData w) = Some m →
  textureDataCached w m ty →
  allocates (driver w) (glNext w) = true →
  uniformLocation (driver w) p s ≠ None →
  completion (setUpTexture (Some g) p u ty s) w = Normal (Some (glNext w)).
Proof.
  intros Hm (name & ppmIMG & data & Hname & Hcached & Hdata) Halloc Hloc.
  destruct (uniformLocation (driver w) p s) as [loc|] eqn:Hl; [|done].
  unfold completion.
  destruct (setUpTexture _ _ _ _ _ w) as [r w1] eqn:Hrun. cbn [fst].
  revert Hrun. unfold setUpTexture, PPMFileLoader.loadFile.
  js_run. rewrite Hm. js_run.
  destruct (attribLocation (driver w) p "textureCoord" =? -1)%Z;
    js_run; rewrite Halloc; js_run; rewrite Hname; js_run;
    rewrite Hcached; js_run; rewrite Hdata; js_run; rewrite Hl; js_run;
    by intros [= <- <-].
Qed.

(** The diffuse block completes when it has nothing to fail on. *)
Lemma setUpTextures_diffuse_settled g p w m :
  model (sceneData w) = Some m → diffuseSettled w p m →
  completion (setUpTextures_diffuse (Some g) p m) w = Normal tt.
Proof.
  intros Hm Hsettled. unfold completion.
  destruct (hasDiffuseMap m) eqn:Hflag.
  2: { by rewrite (setUpTextures_diffuse_skip _ _ _ _ Hflag). }
  destruct (diffuseTexture m) as [t|] eqn:Ht.
  { by rewrite (setUpTextures_diffuse_reuse _ _ _ _ _ Hm Ht). }
  destruct (Hsettled Hflag Ht) as (Hcached & Hloc & Halloc).
  pose proof (setUpTexture_Some g p 0 "map_Kd" "textureSampler" w m Hm Hcached
                (Halloc _) Hloc) as Hsome.
  pose proof (setUpTexture_frame g p 0 "map_Kd" "textureSampler" w) as Hframe.
  unfold setUpTextures_diffuse. rewrite Hflag, Ht. js_run.
  destruct (setUpTexture (Some g) p 0 "map_Kd" "textureSampler" w) as [r1 w1] eqn:Hrun.
  cbn [fst] in Hsome. subst r1.
  destruct (Hframe _ _ eq_refl) as (Hscene & _).
  js_run. rewrite Hscene, Hm. js_run. done.
Qed.

Lemma diffuseSettled_stable w w' p m m' :
  hasDiffuseMap m' = hasDiffuseMap m → diffuseTexture m' = diffuseTexture m →
  textures m' = textures m → modelCache w' = modelCache w → driver w' = driver w →
  diffuseSettled w p m → diffuseSettled w' p m'.
Proof.
  unfold diffuseSettled, textureDataCached. by intros -> -> -> -> ->.
Qed.

(** A throw of [setUpTextures] ends the frame: nothing is drawn, nothing is
    scheduled, and what it logged is on the console. *)
Lemma renderLoop_setUpTextures_Throw w gl m p w3 e w4 :
  stable compileFrame w w3 → logsGrow w w3 →
  renderLoop w = (renderLoop_fromTextures gl p m;; renderLoop_finish) w3 →
  setUpTextures (Some gl) p w3 = (Throw e, w4) →
  completion renderLoop w = Throw e
  ∧ animationFrames (after renderLoop w) = animationFrames w
  ∧ filter isDraw (issued renderLoop w) = []
  ∧ ∀ line, line ∈ drop (length (console w3)) (console w4) →
            line ∈ logged renderLoop w.
Proof.
  intros S3 (l3 & G3) Hloop Htex.
  assert (Hr : renderLoop w = (Throw e, w4)).
  { rewrite Hloop. unfold renderLoop_fromTextures.
    rewrite bind_assoc. by erewrite bind_Throw by exact Htex. }
  assert (Hthrow : completion renderLoop w = Throw e)
    by (unfold completion; by rewrite Hr).
  split; [exact Hthrow|].
  destruct (renderLoop_Throw w e Hthrow) as [Hframes Hdraws].
  do 2 (split; [done|]).
  intros line Hline. unfold logged, after. rewrite Hr. cbn [snd].
  destruct (setUpTextures_logsGrow (Some gl) p w3) as (l4 & G4).
  unfold after in G4. rewrite Htex in G4. cbn [snd] in G4.
  rewrite G4, drop_app_length in Hline.
  rewrite G4, G3, <- app_assoc, drop_app_length, elem_of_app. by right.
Qed.




(** The same for a normal map whose data is cached and whose sampler the
    program does not declare. *)
Lemma renderLoop_normal_sampler_missing w gl m p w3 m3 :
  stable compileFrame w w3 → logsGrow w w3 →
  renderLoop w = (renderLoop_fromTextures gl p m;; renderLoop_finish) w3 →
  model (sceneData w3) = Some m3 →
  hasNormalMap m3 = true → normalTexture m3 = None →
  textureDataCached w3 m3 "map_Bump" →
  (∀ n, allocates (driver w3) n = true) →
  uniformLocation (driver w3) p "normalSampler" = None →
  (∃ e, completion renderLoop w = Throw e)
  ∧ (completion (setUpTextures_diffuse (Some gl) p m3) w3 = Normal tt →
     completion renderLoop w
       = Throw "The sampler name normalSampler was not found in the program").
Proof.
  intros S3 G3 Hloop Hm3 Hflag Hd Hcached Halloc Hloc. unfold completion at 2.
  destruct (setUpTextures_diffuse (Some gl) p m3 w3) as [r1 w4] eqn:H1.
  destruct (setUpTextures_diffuse_fields gl p w3 m3 r1 w4 Hm3 H1)
    as (m4 & Hm4 & Htex4 & _ & Hcache4 & Hdrv4 & _).
  destruct r1 as [[]|e].
  - destruct (setUpTextures_normal (Some gl) p m3 w4) as [r2 w5] eqn:H2.
    destruct (setUpTextures_normal_create gl p m3 m4 w4 r2 w5 Hm4 Hflag Hd H2)
      as (_ & _ & Hthrow).
    rewrite Hdrv4 in Hthrow.
    rewrite Hthrow in H2 by (by eauto using textureDataCached_stable).
    pose proof (setUpTextures_normal_Throw gl p w3 m3 w4 _ w5 Hm3 H1 H2) as Htex.
    destruct (renderLoop_setUpTextures_Throw w gl m p w3 _ w5 S3 G3 Hloop Htex)
      as (Hc & _).
    split; [by eexists|]. by intros _.
  - pose proof (setUpTextures_diffuse_Throw gl p w3 m3 _ w4 Hm3 H1) as Htex.
    destruct (renderLoop_setUpTextures_Throw w gl m p w3 _ w4 S3 G3 Hloop Htex)
      as (Hc & _).
    split; [by eexists|]. by intros [=].
Qed.





(** C3, amended. In a frame whose guard passes and whose program is there, a
    missing uniform location of the lights or of a texture sampler is fatal
    for the frame: if the vertex shader is the one of the gate, there are
    lights, and the program does not declare lightsUniform or lightColors,
    [setUpLights] throws; if a texture has to be created, its data is cached,
    and the program does not declare its sampler, [setUpTexture] throws (for
    the normal map, when the diffuse block before it has nothing to fail on;
    whatever the diffuse block does, the frame throws).  The exception leaves
    [renderLoop]: nothing is drawn and no frame is scheduled. *)
Theorem renderLoop_missing_uniform_throws (w : World) gl m c p :
  ready w gl m c →
  completion (compileProgram (Some gl)) w = Normal (Some p) →
  (∀ ls, vertexShaderName m = "vertexTextureNormalNormalMapShader" →
     lights (sceneData w) = Some ls →
     uniformLocation (driver w) p "lightsUniform" = None
       ∨ uniformLocation (driver w) p "lightColors" = None →
     completion renderLoop w
       = Throw (match uniformLocation (driver w) p "lightsUniform" with
                | Some _ => "Failed to get the storage location of lightColor"
                | None => "Failed to get the storage location of hack"
                end)
     ∧ animationFrames (after renderLoop w) = animationFrames w
     ∧ filter isDraw (issued renderLoop w) = [])
  ∧ (lightsDeclared w p m → (∀ n, allocates (driver w) n = true) →
     hasDiffuseMap m = true → diffuseTexture m = None →
     textureDataCached w m "map_Kd" →
     uniformLocation (driver w) p "textureSampler" = None →
     completion renderLoop w
       = Throw "The sampler name textureSampler was not found in the program"
     ∧ animationFrames (after renderLoop w) = animationFrames w
     ∧ filter isDraw (issued renderLoop w) = [])
  ∧ (lightsDeclared w p m → (∀ n, allocates (driver w) n = true) →
     hasNormalMap m = true → normalTexture m = None →
     textureDataCached w m "map_Bump" →
     uniformLocation (driver w) p "normalSampler" = None →
     (∃ e, completion renderLoop w = Throw e)
     ∧ (diffuseSettled w p m →
        completion renderLoop w
          = Throw "The sampler name normalSampler was not found in the program")
     ∧ animationFrames (after renderLoop w) = animationFrames w
     ∧ filter isDraw (issued renderLoop w) = []).
Proof.
  intros Hready Hp. unfold completion in Hp.
  destruct (compileProgram (Some gl) w) as [r1 w1] eqn:Hcompile.
  cbn [fst] in Hp. subst r1. split; [|split].
  - intros ls Hname Hls Hnone.
    destruct (renderLoop_reaches_lights w gl m c p w1 Hready Hcompile)
      as (w2 & S2 & _ & Hloop).
    destruct (compileFrame_fields w w2 gl m c Hready S2)
      as (m2 & (_ & Hm2 & _) & Hfix & Hlights & Hdrv & _).
    destruct (forgetProgram_fields _ _ Hfix) as (Hname2 & _).
    pose proof (setUpLights_Throw gl p w2 m2 ls Hm2) as Hthrow.
    rewrite Hname2, Hlights, Hdrv in Hthrow. specialize (Hthrow Hname Hls Hnone).
    unfold completion in Hthrow.
    destruct (setUpLights (Some gl) p w2) as [r w3] eqn:Hl. cbn [fst] in Hthrow.
    subst r.
    assert (Hc : completion renderLoop w
                 = Throw (match uniformLocation (driver w) p "lightsUniform" with
                          | Some _ => "Failed to get the storage location of lightColor"
                          | None => "Failed to get the storage location of hack"
                          end)).
    { unfold completion. rewrite Hloop. unfold renderLoop_fromLights.
      rewrite bind_assoc. by erewrite bind_Throw by exact Hl. }
    split; [exact Hc|]. exact (renderLoop_Throw w _ Hc).
  - intros Hdecl Halloc Hflag Hd Hcached Hloc.
    destruct (renderLoop_reaches_textures w gl m c p w1 Hready Hcompile Hdecl)
      as (w3 & S3 & G3 & Hloop).
    destruct (compileFrame_fields w w3 gl m c Hready S3)
      as (m3 & (_ & Hm3 & _) & Hfix & _ & Hdrv & Hcache).
    destruct (forgetProgram_fields _ _ Hfix) as (_ & Hf1 & _ & Hf2 & _ & Hf3).
    destruct (setUpTextures_diffuse (Some gl) p m3 w3) as [r w4] eqn:Hrun.
    destruct (setUpTextures_diffuse_create gl p m3 w3 r w4 Hm3) as (_ & _ & Hthrow);
      [congruence | congruence | done |].
    rewrite Hdrv in Hthrow.
    rewrite Hthrow in Hrun by (by eauto using textureDataCached_stable).
    pose proof (setUpTextures_diffuse_Throw gl p w3 m3 _ w4 Hm3 Hrun) as Htex.
    destruct (renderLoop_setUpTextures_Throw w gl m p w3 _ w4 S3 G3 Hloop Htex)
      as (Hc & Hframes & Hdraws & _).
    done.
  - intros Hdecl Halloc Hflag Hd Hcached Hloc.
    destruct (renderLoop_reaches_textures w gl m c p w1 Hready Hcompile Hdecl)
      as (w3 & S3 & G3 & Hloop).
    destruct (compileFrame_fields w w3 gl m c Hready S3)
      as (m3 & (_ & Hm3 & _) & Hfix & _ & Hdrv & Hcache).
    destruct (forgetProgram_fields _ _ Hfix) as (_ & Hf1 & Hf2 & Hf3 & Hf4 & Hf5).
    destruct (renderLoop_normal_sampler_missing w gl m p w3 m3 S3 G3 Hloop Hm3)
      as ((e & He) & Hsettled);
      [congruence | congruence | by eapply textureDataCached_stable
      | by rewrite Hdrv | by rewrite Hdrv |].
    split; [by exists e|].
    destruct (renderLoop_Throw w e He) as [Hframes Hdraws].
    split; [|done]. intros Hdiffuse. apply Hsettled.
    apply (setUpTextures_diffuse_settled gl p w3 m3 Hm3).
    by apply (diffuseSettled_stable w w3 p m m3).
Qed.

(** The quad, with both images loaded, under a program that declares every
    uniform but the sampler of the normal map: the frame throws for it. *)
Lemma renderLoop_missing_uniform_throws_witness :
  let w := Sample.world Sample.flat Sample.quad Sample.ortho Sample.warm 0 in
  completion renderLoop w
    = Throw "The sampler name normalSampler was not found in the program"
  ∧ filter isDraw (issued renderLoop w) = [].
Proof.
  intros w.
  assert (Hready : ready w WebGL2 Sample.quad Sample.ortho) by (repeat split).
  assert (Hp : completion (compileProgram (Some WebGL2)) w = Normal (Some 2%nat))
    by (vm_compute; reflexivity).
  destruct (renderLoop_missing_uniform_throws w WebGL2 Sample.quad Sample.ortho 2%nat
              Hready Hp) as (_ & _ & Hnormal).
  destruct Hnormal as (_ & Hthrow & _ & Hdraws).
  - intros _ _. split; vm_compute; discriminate.
  - intros n. reflexivity.
  - reflexivity.
  - reflexivity.
  - exists "brick_normal.ppm", Sample.brick, [Byte.xff; Byte.x80; Byte.x00].
    split; [|split]; vm_compute; reflexivity.
  - reflexivity.
  - split; [|exact Hdraws]. apply Hthrow.
    intros _ _. split; [|split].
    + exists "brick.ppm", Sample.brick, [Byte.xff; Byte.x80; Byte.x00].
      split; [|split]; vm_compute; reflexivity.
    + vm_compute. discriminate.
    + intros n. reflexivity.
Defined.

(** C3 as stated fails: without the lights uniform, and without the texture
    sampler, the frame ends in an exception before anything is drawn. *)
Lemma renderLoop_missing_uniform_is_fatal :
  let unlit := Sample.world Sample.bare Sample.quad Sample.ortho Sample.warm 0 in
  let unsampled := Sample.world Sample.unsampled Sample.quad Sample.ortho Sample.warm 0 in
  uniformLocation (driver unlit) 2%nat "lightsUniform" = None
  ∧ completion renderLoop unlit = Throw "Failed to get the storage location of hack"
  ∧ filter isDraw (issued renderLoop unlit) = []
  ∧ ¬ runsToItsEnd unlit
  ∧ uniformLocation (driver unsampled) 2%nat "textureSampler" = None
  ∧ completion renderLoop unsampled
      = Throw "The sampler name textureSampler was not found in the program"
  ∧ filter isDraw (issued renderLoop unsampled) = []
  ∧ ¬ runsToItsEnd unsampled.
Proof.
  cbv zeta.
  do 3 (split; [vm_compute; reflexivity|]).
  split; [intros [H _]; vm_compute in H; discriminate|].
  do 3 (split; [vm_compute; reflexivity|]).
  intros [H _]. vm_compute in H. discriminate.
Qed.

(** * More of the code *)

(** ** PPMFileLoader: loading into the cache *)

Ltac loader_run :=
  unfold PPMFileLoader.loadIntoCache, PPMFileLoader.loadFile; js_unfold;
  unfold modify in *; js_simpl.

(** X1. A path that is not cached and whose fetch is answered by an ok
    response is fetched once from [URLPrefix + path], parsed and stored
    under the path; the promise itself resolves to undefined.  From then
    on [loadFile] returns that image, and loading the path again returns
    it without fetching. *)
Theorem loadIntoCache_then_loadFile (path data : string) (w : World) :
  modelCache w !! path = None →
  network w (PPMFileLoader.URLPrefix +:+ path) = Response true data →
  let w' := after (PPMFileLoader.loadIntoCache path) w in
  completion (PPMFileLoader.loadIntoCache path) w = Normal None
  ∧ modelCache w' = <[path := parsePPM w data]> (modelCache w)
  ∧ fetched w' = fetched w ++ [PPMFileLoader.URLPrefix +:+ path]
  ∧ completion (PPMFileLoader.loadFile path) w' = Normal (Some (parsePPM w data))
  ∧ completion (PPMFileLoader.loadIntoCache path) w' = Normal (Some (parsePPM w data))
  ∧ fetched (after (PPMFileLoader.loadIntoCache path) w') = fetched w'.
Proof.
  intros Hmiss Hnet. cbv zeta. loader_run.
  rewrite Hmiss. js_simpl. rewrite Hnet. js_simpl.
  rewrite lookup_insert_eq. js_simpl. done.
Qed.

Lemma loadIntoCache_then_loadFile_witness :
  let w' := after (PPMFileLoader.loadIntoCache "brick.ppm") served in
  fetched w' = ["http://localhost:8080/objects/brick.ppm"]
  ∧ completion (PPMFileLoader.loadFile "brick.ppm") w' = Normal (Some Sample.brick).
Proof.
  cbv zeta.
  pose proof (loadIntoCache_then_loadFile "brick.ppm" "P3 1 1 255 255 128 0"
                served eq_refl eq_refl) as H.
  cbv zeta in H. destruct H as (_ & _ & Hf & Hl & _). split; [exact Hf | exact Hl].
Defined.

(** X2. When the fetch of a path that is not cached fails, by a network
    error or by a response that is not ok, the error is logged by the
    catch, nothing is stored, the promise resolves to undefined and
    [loadFile] still answers undefined. *)
Theorem loadIntoCache_failure_caches_nothing (path : string) (w : World) :
  modelCache w !! path = None →
  (∀ data, network w (PPMFileLoader.URLPrefix +:+ path) ≠ Response true data) →
  let w' := after (PPMFileLoader.loadIntoCache path) w in
  completion (PPMFileLoader.loadIntoCache path) w = Normal None
  ∧ modelCache w' = modelCache w
  ∧ fetched w' = fetched w ++ [PPMFileLoader.URLPrefix +:+ path]
  ∧ logged (PPMFileLoader.loadIntoCache path) w
      = [ConsoleLog (">>>>>>>loading into cache" +:+ path);
         ConsoleLog (PPMFileLoader.URLPrefix +:+ path);
         ConsoleLog match network w (PPMFileLoader.URLPrefix +:+ path) with
                    | NetworkError e => e
                    | Response _ _ => "Error: Network response was not ok"
                    end]
  ∧ completion (PPMFileLoader.loadFile path) w' = Normal None.
Proof.
  intros Hmiss Hnet. cbv zeta. loader_run.
  rewrite Hmiss. js_simpl.
  destruct (network w (PPMFileLoader.URLPrefix +:+ path)) as [e|[] body] eqn:E;
    [| by destruct (Hnet body) |]; js_simpl; rewrite ?Hmiss; js_simpl;
    rewrite <- !app_assoc, drop_app_length; done.
Qed.

Lemma loadIntoCache_failure_caches_nothing_witness :
  let w := Sample.world Sample.willing Sample.quad Sample.ortho ∅ 0 in
  let w' := after (PPMFileLoader.loadIntoCache "brick.ppm") w in
  modelCache w' = ∅
  ∧ completion (PPMFileLoader.loadFile "brick.ppm") w' = Normal None.
Proof.
  cbv zeta.
  assert (Hfails : ∀ data,
            network (Sample.world Sample.willing Sample.quad Sample.ortho ∅ 0)
              (PPMFileLoader.URLPrefix +:+ "brick.ppm") ≠ Response true data).
  { intros data E. vm_compute in E. discriminate E. }
  pose proof (loadIntoCache_failure_caches_nothing "brick.ppm"
                (Sample.world Sample.willing Sample.quad Sample.ortho ∅ 0)
                eq_refl Hfails) as H.
  cbv zeta in H. destruct H as (_ & Hc & _ & _ & Hl).
  split; [exact Hc | exact Hl].
Defined.

(** X3. Whatever the cache and the network, [loadIntoCache] does not throw
    (the chain ends in a catch), makes no call on the graphics context and
    leaves the scene alone; it fetches at most once, and not at all for a
    path that is cached; an image that is in the cache stays there
    unchanged, and only the entry of the path asked for can appear. *)
Theorem loadIntoCache_keeps_entries (path : string) (w : World) :
  let w' := after (PPMFileLoader.loadIntoCache path) w in
  (∃ r, completion (PPMFileLoader.loadIntoCache path) w = Normal r)
  ∧ (∀ q image, modelCache w !! q = Some image → modelCache w' !! q = Some image)
  ∧ (∀ q, q ≠ path → modelCache w' !! q = modelCache w !! q)
  ∧ issued (PPMFileLoader.loadIntoCache path) w = []
  ∧ sceneData w' = sceneData w
  ∧ (∀ image, modelCache w !! path = Some image →
       completion (PPMFileLoader.loadIntoCache path) w = Normal (Some image)
       ∧ fetched w' = fetched w)
  ∧ (length (fetched w') ≤ S (length (fetched w)))%nat.
Proof.
  cbv zeta. loader_run.
  destruct (modelCache w !! path) as [image|] eqn:Hc; js_simpl.
  - rewrite drop_all. split; [eauto|]. split; [done|]. split; [done|].
    split; [done|]. split; [done|]. split; [|lia]. by intros ? [= <-].
  - destruct (network w (PPMFileLoader.URLPrefix +:+ path)) as [e|[] body];
      js_simpl; rewrite drop_all, ?length_app; simpl;
      (split; [eauto|]);
      (split; [|split; [|split; [done|split; [done|split; [done|lia]]]]]);
      try done.
    + intros q image Hq. destruct (decide (q = path)) as [->|Hne]; [congruence|].
      by rewrite lookup_insert_ne.
    + intros q Hne. by rewrite lookup_insert_ne.
Qed.

(** ** glCanvas: the lights made at start-up *)

Lemma withLights_same w ls : lights (sceneData w) = Some ls → withLights ls w = w.
Proof.
  unfold withLights. destruct w as [s ? ? ? ? ? ? ? ? ? ? ? ? ? ? ?].
  destruct s. cbn. by intros ->.
Qed.

Lemma withLights_twice ls ls' w : withLights ls' (withLights ls w) = withLights ls' w.
Proof. reflexivity. Qed.

Lemma addPointLight_run light w ls :
  lights (sceneData w) = Some ls →
  addPointLight light w = (Normal tt, withLights (ls ++ [light]) w).
Proof. intros H. unfold addPointLight. by rewrite H. Qed.

Lemma linearLight_loop_run (mk : Z → GLPointLight) fuel i n w ls :
  lights (sceneData w) = Some ls →
  (Z.to_nat (n - i + 1) < fuel)%nat →
  linearLight_loop fuel i n (λ j, addPointLight (mk j)) w
    = (Normal tt,
       withLights (ls ++ map (λ k, mk (i + Z.of_nat k)) (seq 0 (Z.to_nat (n - i + 1)))) w).
Proof.
  revert i w ls. induction fuel as [|fuel IH]; intros i w ls Hls Hfuel; [lia|].
  cbn [linearLight_loop]. destruct (Z.leb_spec i n) as [Hle|Hgt].
  - erewrite bind_Normal; [|by apply addPointLight_run].
    rewrite (IH (i + 1) _ (ls ++ [mk i])); [|done|lia].
    rewrite withLights_twice. do 2 f_equal.
    replace (Z.to_nat (n - i + 1)) with (S (Z.to_nat (n - (i + 1) + 1))) by lia.
    cbn [seq map]. rewrite <- app_assoc. cbn [app]. do 2 f_equal.
    + f_equal. lia.
    + rewrite <- seq_shift, map_map. apply map_ext. intros k. f_equal. lia.
  - replace (Z.to_nat (n - i + 1)) with 0%nat by lia.
    cbn [seq map]. rewrite app_nil_r, withLights_same; done.
Qed.

(** Zero times a quotient by zero is NaN, and so is any sum with it. *)
Lemma add_zero_times_quotient_by_zero (x d : double) :
  Double.add x
    (Double.mul (Double.ofZ 0)
       (Double.div d (Double.sub (Double.ofZ 1) (Double.ofZ 1))))
  = Double.NaN.
Proof.
  replace (Double.sub (Double.ofZ 1) (Double.ofZ 1)) with (S754_zero false)
    by (vm_compute; reflexivity).
  replace (Double.ofZ 0) with (S754_zero false) by reflexivity.
  destruct d as [[]|[]| |[] ? ?], x as [[]|[]| |[] ? ?]; reflexivity.
Qed.

(** Once a quotient by zero is not finite, and neither is a sum with it. *)
Lemma add_quotient_by_zero (x d : double) :
  Double.isFinite
    (Double.add x
       (Double.mul (Double.ofZ 1)
          (Double.div d (Double.sub (Double.ofZ 1) (Double.ofZ 1)))))
  = false.
Proof.
  replace (Double.sub (Double.ofZ 1) (Double.ofZ 1)) with (S754_zero false)
    by (vm_compute; reflexivity).
  replace (Double.ofZ 1) with (S754_finite false 4503599627370496 (-52))
    by (vm_compute; reflexivity).
  destruct d as [[]|[]| |[] ? ?], x as [[]|[]| |[] ? ?]; reflexivity.
Qed.

(** X4. [linearLight(point1, point2, n, color)], for a whole number [n]
    below 2^53, appends [n + 1] lights to the light set, in order and all
    of the given colour (none when [n] is negative), and changes nothing
    else: the loop runs while [i <= n].  Light [i] lies at
    [point1 + i * ((point2 - point1) / (n - 1))], computed in doubles; for
    [n = 1] the step is a quotient by zero: every coordinate of the first
    of the two lights is NaN, and none of the second is finite. *)
Theorem linearLight_adds_one_more (point1 point2 rgb : list double) (n : Z)
    (w : World) (ls : GLLights) :
  lights (sceneData w) = Some ls →
  (n < 2 ^ 53)%Z →
  let delta k := Double.div (Double.sub (coord point2 k) (coord point1 k))
                   (Double.sub (Double.ofZ n) (Double.ofZ 1)) in
  let light i := linearLight_light point1 (delta 0%nat) (delta 1%nat) (delta 2%nat)
                   (Z.of_nat i) rgb in
  let made := map light (seq 0 (Z.to_nat (n + 1))) in
  linearLight point1 point2 n rgb w = (Normal tt, withLights (ls ++ made) w)
  ∧ length made = Z.to_nat (n + 1)
  ∧ (∀ l, l ∈ made → color l = rgb)
  ∧ (∀ i k, (k < 3)%nat →
       coord (position (light i)) k
         = Double.add (coord point1 k)
             (Double.mul (Double.ofZ (Z.of_nat i)) (delta k)))
  ∧ (n = 1%Z → ∀ k, (k < 3)%nat →
       coord (position (light 0%nat)) k = Double.NaN
       ∧ Double.isFinite (coord (position (light 1%nat)) k) = false).
Proof.
  intros Hls _ delta light made.
  assert (Hcoord : ∀ i k, (k < 3)%nat →
            coord (position (light i)) k
              = Double.add (coord point1 k)
                  (Double.mul (Double.ofZ (Z.of_nat i)) (delta k))).
  { intros i k Hk. destruct k as [|[|[|k]]]; [| | |lia]; reflexivity. }
  split; [|split; [|split; [|split]]].
  - unfold linearLight.
    rewrite (linearLight_loop_run
               (λ j, linearLight_light point1 (delta 0%nat) (delta 1%nat) (delta 2%nat)
                       j rgb) _ 0 n w ls Hls); [|lia].
    do 3 f_equal. unfold made. replace (n - 0 + 1)%Z with (n + 1)%Z by lia.
    apply map_ext. intros k. unfold light. f_equal.
  - unfold made. by rewrite length_map, length_seq.
  - intros l Hl. unfold made in Hl. apply list_elem_of_In, in_map_iff in Hl.
    by destruct Hl as (i & <- & _).
  - exact Hcoord.
  - intros -> k Hk. rewrite !(Hcoord _ k Hk). split.
    + apply add_zero_times_quotient_by_zero.
    + apply add_quotient_by_zero.
Qed.

(** The lights of glCanvas: 31 along the line, then the four above the
    corners.  The third lies at -8.620689655172413, which is not the double
    nearest to -250/29; the thirtieth lies on the end point and the
    thirty-first beyond it. *)
Lemma linearLight_adds_one_more_witness :
  ∃ ls l2 l30,
    lights (sceneData (after glCanvas_lights (withLights [] served))) = Some ls
    ∧ length ls = 35%nat
    ∧ ls !! 2%nat = Some l2
    ∧ coord (position l2) 0 = Double.ofQ (-8620689655172413 # 1000000000000000)
    ∧ coord (position l2) 0 ≠ Double.ofQ (-250 # 29)
    ∧ ls !! 29%nat = Some {| position := Double.ofQ <$> [10; 1 # 2; -5]%Q;
                             color := Double.ofZ <$> [1; 1; 1] |}
    ∧ ls !! 30%nat = Some l30
    ∧ Double.ltb (Double.ofZ 10) (coord (position l30) 0) = true
    ∧ length (getPositionsFloat32 ls) = 105%nat.
Proof.
  pose proof (linearLight_adds_one_more (Double.ofQ <$> [-10; 1 # 2; -5]%Q)
                (Double.ofQ <$> [10; 1 # 2; -5]%Q) (Double.ofZ <$> [1; 1; 1]) 30
                (withLights [] served) [] eq_refl eq_refl) as H.
  cbv zeta in H. destruct H as (Hrun & _).
  unfold after, glCanvas_lights. rewrite (bind_Normal _ _ _ _ _ Hrun). clear Hrun.
  do 3 eexists. split; [vm_compute; reflexivity|].
  split; [vm_compute; reflexivity|].
  split; [vm_compute; reflexivity|].
  split; [vm_compute; reflexivity|].
  split; [vm_compute; discriminate|].
  split; [vm_compute; reflexivity|].
  split; [vm_compute; reflexivity|].
  split; vm_compute; reflexivity.
Defined.

(** ** glCanvas: the canvas and its context *)

(** X5. On a page whose scene has no context yet and whose element glCanvas
    gives a context, [setupCanvas] stores that context (WebGL2 when the
    canvas gives one, the experimental one otherwise) and the size of the
    canvas, sets the clear colour to purple and clears the colour buffer,
    and these are its only calls; it shows no alert and leaves model,
    camera and lights alone.  A second call changes nothing: there is one
    context however often the page calls. *)
Theorem setupCanvas_stores_one_context (p : Page) (canvas : HTMLCanvasElement) :
  glContext (sceneData (world p)) = None →
  document p !! "glCanvas" = Some canvas →
  webgl2 canvas = true ∨ experimental_webgl canvas = true →
  let w := world p in
  let w' := world (setupCanvas p) in
  glContext (sceneData w')
    = Some (if webgl2 canvas then WebGL2 else ExperimentalWebGL)
  ∧ width (sceneData w') = canvasWidth (driver w)
  ∧ height (sceneData w') = canvasHeight (driver w)
  ∧ glCalls w' = glCalls w ++ [ClearColor 1 0 1 1; Clear COLOR_BUFFER_BIT]
  ∧ alerts (setupCanvas p) = alerts p
  ∧ model (sceneData w') = model (sceneData w)
  ∧ camera (sceneData w') = camera (sceneData w)
  ∧ lights (sceneData w') = lights (sceneData w)
  ∧ console w' = console w
  ∧ setupCanvas (setupCanvas p) = setupCanvas p.
Proof.
  intros Hnone Hcanvas Hkind. cbv zeta.
  assert (Hgl : match getContext canvas "webgl2" with
                | Some gl => Some gl
                | None => getContext canvas "experimental-webgl"
                end = Some (if webgl2 canvas then WebGL2 else ExperimentalWebGL)).
  { unfold getContext. cbn [String.eqb Ascii.eqb Bool.eqb].
    destruct (webgl2 canvas); [done|].
    destruct Hkind as [H|H]; [done|]. by rewrite H. }
  unfold setupCanvas at 1 2 3 4 5 6 7 8 9 10.
  rewrite Hnone, Hcanvas. cbv zeta. rewrite Hgl.
  unfold run, after. js_unfold. unfold modify.
  cbn [world alerts document snd sceneData glCalls console driver
       set_sceneData set_gl glContext width height model camera lights
       set_width set_height set_glContext].
  rewrite <- app_assoc. cbn [app].
  do 9 (split; [done|]).
  unfold setupCanvas. rewrite Hnone, Hcanvas. cbv zeta. rewrite Hgl.
  unfold run, after. js_unfold. unfold modify.
  cbn [world alerts document snd sceneData glCalls console driver
       set_sceneData set_gl glContext width height model camera lights
       set_width set_height set_glContext].
  done.
Qed.

(** X6. On a page whose scene has no context, when there is no element
    glCanvas, or when that canvas gives neither kind of context,
    [setupCanvas] shows one alert (Canvas not found, WebGL not supported)
    and changes nothing else: no context is stored, no call is made, and a
    later call tries again. *)
Theorem setupCanvas_failure_alerts (p : Page) :
  glContext (sceneData (world p)) = None →
  (∀ canvas, document p !! "glCanvas" = Some canvas →
     webgl2 canvas = false ∧ experimental_webgl canvas = false) →
  let msg := match document p !! "glCanvas" with
             | None => "Canvas not found"
             | Some _ => "WebGL not supported"
             end in
  setupCanvas p = alert msg p
  ∧ world (setupCanvas p) = world p
  ∧ alerts (setupCanvas p) = alerts p ++ [msg]
  ∧ alerts (setupCanvas (setupCanvas p)) = alerts p ++ [msg; msg].
Proof.
  intros Hnone Hcanvas. cbv zeta.
  assert (Hrun : ∀ q, document q = document p → world q = world p →
            setupCanvas q
              = alert match document p !! "glCanvas" with
                      | None => "Canvas not found"
                      | Some _ => "WebGL not supported"
                      end q).
  { intros q Hd Hw. unfold setupCanvas. rewrite Hw, Hnone, Hd.
    destruct (document p !! "glCanvas") as [canvas|] eqn:E; [|done].
    destruct (Hcanvas canvas eq_refl) as [H2 He].
    unfold getContext. cbn [String.eqb Ascii.eqb Bool.eqb]. by rewrite H2, He. }
  rewrite (Hrun p eq_refl eq_refl).
  split; [done|]. split; [done|]. split; [done|].
  rewrite (Hrun (alert _ p) eq_refl eq_refl). cbn [alert alerts].
  by rewrite <- app_assoc.
Qed.

Lemma setupCanvas_stores_one_context_witness :
  glContext (sceneData (world (setupCanvas oldBrowser))) = Some ExperimentalWebGL
  ∧ glCalls (world (setupCanvas oldBrowser))
      = [ClearColor 1 0 1 1; Clear COLOR_BUFFER_BIT]
  ∧ width (sceneData (world (setupCanvas oldBrowser))) = 800.
Proof.
  pose proof (setupCanvas_stores_one_context oldBrowser
                {| webgl2 := false; experimental_webgl := true |}
                eq_refl eq_refl (or_intror eq_refl)) as H.
  cbv zeta in H. destruct H as (Hgl & Hw & _ & Hcalls & _).
  split; [exact Hgl|]. split; [exact Hcalls | exact Hw].
Defined.

Lemma setupCanvas_failure_alerts_witness :
  alerts (setupCanvas emptyPage) = ["Canvas not found"]
  ∧ world (setupCanvas emptyPage) = contextless.
Proof.
  assert (Hnone : ∀ canvas, document emptyPage !! "glCanvas" = Some canvas →
            webgl2 canvas = false ∧ experimental_webgl canvas = false).
  { intros canvas E. vm_compute in E. discriminate E. }
  pose proof (setupCanvas_failure_alerts emptyPage eq_refl Hnone) as H.
  cbv zeta in H. destruct H as (_ & Hw & Ha & _).
  split; [exact Ha | exact Hw].
Defined.

(** ** Which calls a statement makes *)

Lemma issuesOnly_refl P w : issuesOnly P w w.
Proof. exists []. by rewrite app_nil_r. Qed.

Lemma issuesOnly_trans P w1 w2 w3 :
  issuesOnly P w1 w2 → issuesOnly P w2 w3 → issuesOnly P w1 w3.
Proof.
  intros (l1 & H1 & F1) (l2 & H2 & F2). exists (l1 ++ l2).
  rewrite H2, H1, <- app_assoc, forallb_app, F1, F2. done.
Qed.

Lemma issuesOnly_mono (P Q : GLCall → bool) w w' :
  (∀ c, P c = true → Q c = true) → issuesOnly P w w' → issuesOnly Q w w'.
Proof.
  intros HPQ (l & H & F). exists l. split; [done|].
  rewrite forallb_forall in *. auto.
Qed.

Lemma issuesOnly_issued {A} P (m : JS A) w :
  issuesOnly P w (after m w) →
  glCalls (after m w) = glCalls w ++ issued m w
  ∧ forallb P (issued m w) = true.
Proof.
  intros (l & H & F). unfold issued. rewrite H, drop_app_length. done.
Qed.

Lemma forallb_filter_nil (P bad : GLCall → bool) l :
  (∀ c, P c = true → bad c = false) → forallb P l = true → filter bad l = [].
Proof.
  intros HP. induction l as [|c l IH]; [done|]. cbn [forallb].
  intros [Hc Hl]%andb_prop. rewrite filter_cons, (HP c Hc). cbn. auto.
Qed.

Ltac issuesOnly_leaf :=
  intros ?; unfold after, issuesOnly; js_leaf;
  first [ exists []; split; [js_simpl; rewrite app_nil_r; reflexivity | reflexivity]
        | eexists [_]; split; [js_simpl; reflexivity | reflexivity] ].

Lemma renderLoop_draw_issuesOnly (P : GLCall → bool) :
  (∀ mode count type offset, P (DrawElements mode count type offset) = true) →
  respects (issuesOnly P) renderLoop_draw.
Proof.
  intros HP w. unfold after.
  destruct (camera (sceneData w)) as [c|] eqn:Hc;
    [destruct (model (sceneData w)) as [m|] eqn:Hm|].
  - rewrite (renderLoop_draw_run w c m Hc Hm). cbn [snd].
    exists (frameDraws c m). split; [done|].
    apply forallb_forall. intros call Hin. unfold frameDraws in Hin.
    destruct (renderSolid c).
    + destruct Hin as [<-|[]]. apply HP.
    + apply in_map_iff in Hin as (i & <- & _). apply HP.
  - unfold renderLoop_draw. js_unfold. rewrite Hc, Hm. apply issuesOnly_refl.
  - unfold renderLoop_draw. js_unfold. rewrite Hc. apply issuesOnly_refl.
Qed.

(** Walks a statement made of the steps of a frame. *)
Ltac issues_only P :=
  respects_walk (issuesOnly_refl P) (issuesOnly_trans P)
    ltac:(idtac; lazymatch goal with
          | |- respects _ renderLoop_draw =>
              apply renderLoop_draw_issuesOnly; reflexivity
          | |- _ => issuesOnly_leaf
          end).

Lemma renderLoop_keepsCanvasAndTextures :
  respects (issuesOnly keepsCanvasAndTextures) renderLoop.
Proof.
  unfold renderLoop, compileProgram, setUpVertexBuffer, setUpLights, setUpTextures,
    setUpTextures_diffuse, setUpTextures_normal, setUpTexture,
    PPMFileLoader.loadFile, renderLoop_normal, renderLoop_matrices,
    renderLoop_clear, renderLoop_viewport, renderLoop_fps.
  issues_only keepsCanvasAndTextures.
Qed.

(** X7. Whatever the scene, a call of [renderLoop] never clears the canvas
    and never deletes a texture, whether the frame completes, stops early
    or throws; the log of the context only grows. *)
Theorem renderLoop_never_clears_nor_deletes_textures (w : World) :
  glCalls (after renderLoop w) = glCalls w ++ issued renderLoop w
  ∧ (∀ mask, Clear mask ∉ issued renderLoop w)
  ∧ (∀ t, DeleteTexture t ∉ issued renderLoop w).
Proof.
  destruct (issuesOnly_issued _ renderLoop w (renderLoop_keepsCanvasAndTextures w))
    as [Hlog Hall].
  split; [done|].
  rewrite forallb_forall in Hall.
  split; intros x Hin%list_elem_of_In%Hall; discriminate Hin.
Qed.

(** ** glCanvas: what compiling leaves behind *)

(** Runs [compileProgram] through every answer of the driver; [fin] closes
    each of the paths, where the goal speaks of the result and of the world
    of that path. *)
Ltac compileProgram_paths w gl fin :=
  let r := fresh "r" in
  let w' := fresh "w'" in
  let Hrun := fresh "Hrun" in
  unfold completion, issued, after;
  destruct (compileProgram gl w) as [r w'] eqn:Hrun; cbn [fst snd];
  revert Hrun; unfold compileProgram;
  destruct (model (sceneData w)) as [m|] eqn:Hm;
    [|js_run; rewrite Hm; js_run; intros [= <- <-]; js_run; fin];
  destruct (renderingProgram m) as [p0|] eqn:Hp;
    [js_run; rewrite Hm; js_run; rewrite Hp; js_run; intros [= <- <-]; js_run; fin|];
  destruct (camera (sceneData w)) as [c|] eqn:Hc;
    [|js_run; rewrite Hm; js_run; rewrite Hp, Hc; js_run;
      intros [= <- <-]; js_run; fin];
  destruct gl as [g|];
    [|js_run; rewrite Hm; js_run; rewrite Hp, Hc; js_run;
      intros [= <- <-]; js_run; fin];
  js_run; rewrite Hm; js_run; rewrite Hp, Hc; js_run;
  destruct (allocates (driver w) (glNext w)); js_run;
    [|intros [= <- <-]; js_run; fin];
  destruct (compileStatus (driver w) (glNext w)); js_run;
    [|intros [= <- <-]; js_run; fin];
  destruct (allocates (driver w) (S (glNext w))); js_run;
    [|intros [= <- <-]; js_run; fin];
  destruct (compileStatus (driver w) (S (glNext w))); js_run;
    [|intros [= <- <-]; js_run; fin];
  destruct (allocates (driver w) (S (S (glNext w)))); js_run;
    [|intros [= <- <-]; js_run; fin];
  destruct (linkStatus (driver w) (S (S (glNext w)))); js_run;
    [|intros [= <- <-]; js_run; fin];
  rewrite Hm; js_run; intros [= <- <-]; js_run; fin.

(** X10. [compileProgram] throws exactly when the driver answers null to the
    creation of the vertex shader, of the fragment shader or of the
    program, each with its own message; then nothing is cached and no
    shader made so far is deleted. *)
Theorem compileProgram_throws_when_creation_fails
    (gl : option WebGLRenderingContext) (w : World) :
  let r := completion (compileProgram gl) w in
  let w' := after (compileProgram gl) w in
  let new := issued (compileProgram gl) w in
  (CreateShader VERTEX_SHADER None ∈ new
     ↔ r = Throw "Failed to create vertex shader")
  ∧ (CreateShader FRAGMENT_SHADER None ∈ new
     ↔ r = Throw "Failed to create fragment shader")
  ∧ (CreateProgram None ∈ new
     ↔ r = Throw "Failed to create shader program")
  ∧ (∀ e, r = Throw e →
       filter isFailedCreate new ≠ []
       ∧ filter isDeleteShader new = []
       ∧ model (sceneData w') = model (sceneData w)).
Proof.
  cbv zeta.
  compileProgram_paths w gl
    ltac:(idtac; cbn [filter]; repeat split; intros; try discriminate;
          try match goal with
              | H : _ ∈ _ |- _ => in_log H
              end; first [done | rewrite !elem_of_cons; by eauto 20]).
Qed.

(** X11. Once [compileProgram] has asked for the link, both shader objects
    are deleted, whether or not the program linked; on every other path no
    shader is deleted, so a shader that failed to compile stays allocated,
    as does the vertex shader when the fragment shader fails. *)
Theorem compileProgram_deletes_shaders_after_link
    (gl : option WebGLRenderingContext) (w : World) :
  let new := issued (compileProgram gl) w in
  (∀ p, LinkProgram p ∈ new →
     filter isDeleteShader new = [DeleteShader (glNext w); DeleteShader (S (glNext w))]
     ∧ CreateShader VERTEX_SHADER (Some (glNext w)) ∈ new
     ∧ CreateShader FRAGMENT_SHADER (Some (S (glNext w))) ∈ new)
  ∧ ((∀ p, LinkProgram p ∉ new) → filter isDeleteShader new = [])
  ∧ (∀ s, GetShaderParameter s COMPILE_STATUS false ∈ new →
       (∃ kind, CreateShader kind (Some s) ∈ new) ∧ DeleteShader s ∉ new).
Proof.
  cbv zeta.
  compileProgram_paths w gl
    ltac:(idtac; cbn [filter]; repeat split; intros;
          repeat match goal with
                 | H : _ ∈ _ |- _ => in_log H
                 end;
          simplify_eq;
          try match goal with
              | H : ∀ p, LinkProgram p ∉ _ |- _ =>
                  exfalso; eapply H; rewrite !elem_of_cons; by eauto 20
              end;
          first [ done
                | reflexivity
                | rewrite !elem_of_cons; by eauto 20
                | eexists; rewrite !elem_of_cons; by eauto 20
                | intros Hin; in_log Hin ]).
Qed.

(** ** glCanvas: one texture *)

(** X12. [setUpTexture] for a texture whose image is in the cache of the
    loader with its data, on a driver that gives a texture object and on a
    program that declares the sampler: the result is the new texture; it is
    bound to the given unit before its parameters are set; the sampler is
    set to that unit; and what is uploaded is the data of the cached image
    with its width and height.  Nothing is fetched, and the model is not
    touched (the caller stores the handle). *)
Theorem setUpTexture_uploads_cached_image
    (g : WebGLRenderingContext) (shaderProgram : WebGLProgram) (textureUnit : Z)
    (textureType samplerName : string) (w : World) (m : ModelGL)
    (name : string) (ppmIMG : PPM) (data : list Byte.byte)
    (loc : WebGLUniformLocation) :
  model (sceneData w) = Some m →
  textures m !! textureType = Some name →
  modelCache w !! name = Some ppmIMG →
  ppmData ppmIMG = Some data →
  allocates (driver w) (glNext w) = true →
  uniformLocation (driver w) shaderProgram samplerName = Some loc →
  let run := setUpTexture (Some g) shaderProgram textureUnit textureType samplerName in
  let texCoordLocation := attribLocation (driver w) shaderProgram "textureCoord" in
  let texture := glNext w in
  completion run w = Normal (Some texture)
  ∧ issued run w
      = [GetAttribLocation shaderProgram "textureCoord" texCoordLocation;
         EnableVertexAttribArray texCoordLocation;
         VertexAttribPointer texCoordLocation 2 FLOAT false
           (vertexStride m) (textureOffset m);
         CreateTexture (Some texture);
         ActiveTexture textureUnit;
         BindTexture TEXTURE_2D texture;
         TexParameteri TEXTURE_2D TEXTURE_WRAP_S REPEAT;
         TexParameteri TEXTURE_2D TEXTURE_WRAP_T REPEAT;
         TexParameteri TEXTURE_2D TEXTURE_MIN_FILTER LINEAR;
         GetUniformLocation shaderProgram samplerName (Some loc);
         Uniform1i loc textureUnit;
         TexImage2D TEXTURE_2D 0 RGB (ppmWidth ppmIMG) (ppmHeight ppmIMG) 0
           RGB UNSIGNED_BYTE data;
         GenerateMipmap TEXTURE_2D]
  ∧ sceneData (after run w) = sceneData w
  ∧ modelCache (after run w) = modelCache w
  ∧ fetched (after run w) = fetched w
  ∧ glNext (after run w) = S (glNext w).
Proof.
  intros Hm Hname Hcached Hdata Halloc Hloc. cbv zeta.
  unfold completion, issued, after.
  destruct (setUpTexture _ _ _ _ _ w) as [r w1] eqn:Hrun. cbn [fst snd].
  revert Hrun. unfold setUpTexture, PPMFileLoader.loadFile.
  js_run. rewrite Hm. js_run.
  destruct (attribLocation (driver w) shaderProgram "textureCoord" =? -1)%Z;
    js_run; rewrite Halloc; js_run; rewrite Hname; js_run;
    rewrite Hcached; js_run; rewrite Hdata; js_run; rewrite Hloc; js_run;
    intros [= <- <-]; js_run; done.
Qed.

Lemma setUpTexture_uploads_cached_image_witness :
  let w := Sample.world Sample.willing Sample.quad Sample.ortho Sample.warm 0 in
  let run := setUpTexture (Some WebGL2) 2%nat 0 "map_Kd" "textureSampler" in
  completion run w = Normal (Some 0%nat)
  ∧ TexImage2D TEXTURE_2D 0 RGB 1 1 0 RGB UNSIGNED_BYTE [Byte.xff; Byte.x80; Byte.x00]
      ∈ issued run w.
Proof.
  cbv zeta.
  pose proof (setUpTexture_uploads_cached_image WebGL2 2%nat 0 "map_Kd"
                "textureSampler"
                (Sample.world Sample.willing Sample.quad Sample.ortho Sample.warm 0)
                Sample.quad "brick.ppm" Sample.brick
                [Byte.xff; Byte.x80; Byte.x00] 14%nat
                eq_refl eq_refl eq_refl eq_refl eq_refl eq_refl) as H.
  cbv zeta in H. destruct H as (Hr & Hi & _).
  split; [exact Hr|]. rewrite Hi. clear Hr Hi. rewrite !elem_of_cons. auto 20.
Defined.

(** X13. When [setUpTexture] does not return a texture although the driver
    gave it one (the image or its data is not in the cache: null; the
    program declares no such sampler: an exception), the texture object has
    been created and bound, and it is not deleted; the model is left as it
    was, so neither it nor [cleanUpTextures] knows the object. *)
Theorem setUpTexture_failure_keeps_texture
    (g : WebGLRenderingContext) (shaderProgram : WebGLProgram) (textureUnit : Z)
    (textureType samplerName : string) (w : World) (m : ModelGL) :
  model (sceneData w) = Some m →
  allocates (driver w) (glNext w) = true →
  let run := setUpTexture (Some g) shaderProgram textureUnit textureType samplerName in
  (∀ t, completion run w ≠ Normal (Some t)) →
  (textureDataMissing w m textureType
   ∨ uniformLocation (driver w) shaderProgram samplerName = None)
  ∧ CreateTexture (Some (glNext w)) ∈ issued run w
  ∧ BindTexture TEXTURE_2D (glNext w) ∈ issued run w
  ∧ filter isDeleteTexture (issued run w) = []
  ∧ sceneData (after run w) = sceneData w
  ∧ cleanUpCalls (sceneData (after run w)) = cleanUpCalls (sceneData w).
Proof.
  intros Hm Halloc. cbv zeta. unfold textureDataMissing.
  unfold completion, issued, after.
  destruct (setUpTexture _ _ _ _ _ w) as [r w1] eqn:Hrun. cbn [fst snd].
  revert Hrun. unfold setUpTexture, PPMFileLoader.loadFile.
  js_run. rewrite Hm. js_run.
  repeat (next_answer; js_run).
  all: intros [= <- <-]; js_run; intros Hfail.
  all: try discriminate.
  all: try (by destruct (Hfail (glNext w))).
  all: split; [by auto|].
  all: split; [rewrite !elem_of_cons; by auto 20|].
  all: split; [rewrite !elem_of_cons; by auto 20|].
  all: done.
Qed.

Lemma setUpTexture_failure_keeps_texture_witness :
  let w := Sample.world Sample.willing Sample.quad Sample.ortho ∅ 0 in
  let run := setUpTexture (Some WebGL2) 2%nat 0 "map_Kd" "textureSampler" in
  completion run w = Normal None
  ∧ CreateTexture (Some 0%nat) ∈ issued run w
  ∧ filter isDeleteTexture (issued run w) = [].
Proof.
  cbv zeta.
  assert (Hnone : ∀ t,
    completion (setUpTexture (Some WebGL2) 2%nat 0 "map_Kd" "textureSampler")
      (Sample.world Sample.willing Sample.quad Sample.ortho ∅ 0) ≠ Normal (Some t)).
  { intros t E. vm_compute in E. discriminate E. }
  pose proof (setUpTexture_failure_keeps_texture WebGL2 2%nat 0 "map_Kd"
                "textureSampler"
                (Sample.world Sample.willing Sample.quad Sample.ortho ∅ 0)
                Sample.quad eq_refl eq_refl Hnone) as H.
  clear Hnone. destruct H as (_ & Hc & _ & Hd & _).
  split; [vm_compute; reflexivity|]. split; [exact Hc | exact Hd].
Defined.

(** ** glCanvas: the textures of a frame *)

(** The remainder of a clock reading. *)
Lemma jsRem_floor (a b : Q) :
  (0 <= a)%Q → (0 < b)%Q →
  (jsRem a b == a - b * inject_Z (Qfloor (a / b)))%Q.
Proof.
  intros Ha Hb. unfold jsRem. rewrite Qred_correct.
  assert (Hq : (0 <= a / b)%Q).
  { apply Qle_shift_div_l; [done|]. rewrite Qmult_0_l. done. }
  unfold Qfloor. destruct (a / b)%Q as [n d] eqn:E. cbn [Qnum Qden].
  unfold Qle in Hq. cbn in Hq.
  rewrite Z.quot_div_nonneg by lia. reflexivity.
Qed.

Lemma Qfloor_unique (q : Q) (z : Z) :
  (inject_Z z <= q)%Q → (q < inject_Z (z + 1))%Q → Qfloor q = z.
Proof.
  intros Hle Hlt.
  pose proof (Qfloor_le q) as H1. pose proof (Qlt_floor q) as H2.
  assert (z < Qfloor q + 1)%Z.
  { rewrite Zlt_Qlt. eapply Qle_lt_trans; [exact Hle | exact H2]. }
  assert (Qfloor q < z + 1)%Z.
  { rewrite Zlt_Qlt. eapply Qle_lt_trans; [exact H1 | exact Hlt]. }
  lia.
Qed.

Lemma uvTurn_range (now : Q) :
  (0 <= now)%Q →
  (uvTurn now == now / period - inject_Z (Qfloor (now / period)))%Q
  ∧ (0 <= uvTurn now)%Q ∧ (uvTurn now < 1)%Q.
Proof.
  intros Hnow.
  assert (Hp : (0 < period)%Q) by reflexivity.
  assert (Heq : (uvTurn now == now / period - inject_Z (Qfloor (now / period)))%Q).
  { unfold uvTurn. rewrite jsDiv_exact, (jsRem_floor now period Hnow Hp).
    field. intros H. rewrite H in Hp. done. }
  split; [exact Heq|]. rewrite Heq.
  pose proof (Qfloor_le (now / period)) as H1.
  pose proof (Qlt_floor (now / period)) as H2.
  rewrite inject_Z_plus in H2. split.
  - apply (Qplus_le_l _ _ (inject_Z (Qfloor (now / period)))). ring_simplify.
    exact H1.
  - apply (Qplus_lt_l _ _ (inject_Z (Qfloor (now / period)))). ring_simplify.
    exact H2.
Qed.

Lemma uvTurn_periodic (now : Q) :
  (0 <= now)%Q → uvTurn (now + period) = uvTurn now.
Proof.
  intros Hnow.
  assert (Hp : (0 < period)%Q) by reflexivity.
  assert (Hnow' : (0 <= now + period)%Q).
  { apply Qle_trans with (0 + 0)%Q; [done|]. apply Qplus_le_compat; [done|].
    by apply Qlt_le_weak. }
  unfold uvTurn, jsDiv. apply Qred_complete.
  rewrite (jsRem_floor _ _ Hnow' Hp), (jsRem_floor _ _ Hnow Hp).
  assert (Hfl : Qfloor ((now + period) / period) = (Qfloor (now / period) + 1)%Z).
  { assert (Hs : ((now + period) / period == now / period + 1)%Q).
    { field. intros H. rewrite H in Hp. done. }
    apply Qfloor_unique; rewrite Hs, !inject_Z_plus.
    - apply Qplus_le_compat; [apply Qfloor_le | done].
    - apply Qplus_lt_le_compat; [|done].
      pose proof (Qlt_floor (now / period)) as H. rewrite inject_Z_plus in H. exact H. }
  rewrite Hfl, inject_Z_plus. field. intros H. rewrite H in Hp. done.
Qed.

(** [setUpTextures] on a model that holds its textures. *)
Lemma setUpTextures_reuse g p w m :
  model (sceneData w) = Some m →
  (hasDiffuseMap m = true → diffuseTexture m ≠ None) →
  (hasNormalMap m = true → normalTexture m ≠ None) →
  ∃ w',
    setUpTextures (Some g) p w = (Normal true, w')
    ∧ glCalls w'
        = glCalls w
          ++ (if hasNormalMap m
              then [GetUniformLocation p "uvOffset"
                      (uniformLocation (driver w) p "uvOffset");
                    Uniform2fv (uniformLocation (driver w) p "uvOffset")
                      (SinOfTurn (uvTurn (clock w (clockReads w))))]
              else [])
    ∧ sceneData w' = sceneData w
    ∧ modelCache w' = modelCache w
    ∧ console w' = console w
    ∧ glNext w' = glNext w.
Proof.
  intros Hm Hd Hn.
  destruct (setUpTextures (Some g) p w) as [r w1] eqn:Hrun.
  revert Hrun. unfold setUpTextures, setUpTextures_diffuse, setUpTextures_normal.
  js_run. rewrite Hm. js_run.
  destruct (hasDiffuseMap m);
    [destruct (diffuseTexture m) as [t|] eqn:Ht; [|by destruct Hd]|];
    (destruct (hasNormalMap m);
       [destruct (normalTexture m) as [t'|] eqn:Ht'; [|by destruct Hn]|]);
    js_run; do 3 (rewrite ?Hm, ?Ht, ?Ht'; js_run);
    intros ?; simplify_eq; eexists; (split; [reflexivity|]); js_run;
    rewrite ?app_nil_r; done.
Qed.

(** X14. [setUpTextures] on a model that already holds a texture for each
    map it has creates nothing and uploads no image: it returns true, leaves
    scene, cache and console as they were, and its only calls are, for a
    model with a normal map, the two that move [uvOffset]. *)
Theorem setUpTextures_reuses_handles
    (g : WebGLRenderingContext) (shaderProgram : WebGLProgram)
    (w : World) (m : ModelGL) :
  model (sceneData w) = Some m →
  (hasDiffuseMap m = true → diffuseTexture m ≠ None) →
  (hasNormalMap m = true → normalTexture m ≠ None) →
  let run := setUpTextures (Some g) shaderProgram in
  let uvOffsetLocation := uniformLocation (driver w) shaderProgram "uvOffset" in
  completion run w = Normal true
  ∧ issued run w
      = (if hasNormalMap m
         then [GetUniformLocation shaderProgram "uvOffset" uvOffsetLocation;
               Uniform2fv uvOffsetLocation
                 (SinOfTurn (uvTurn (clock w (clockReads w))))]
         else [])
  ∧ sceneData (after run w) = sceneData w
  ∧ modelCache (after run w) = modelCache w
  ∧ console (after run w) = console w
  ∧ glNext (after run w) = glNext w.
Proof.
  intros Hm Hd Hn. cbv zeta.
  destruct (setUpTextures_reuse g shaderProgram w m Hm Hd Hn)
    as (w' & Hrun & Hcalls & Hscene & Hcache & Hconsole & Hnext).
  unfold completion, issued, after. rewrite Hrun. cbn [fst snd].
  rewrite Hcalls, drop_app_length. done.
Qed.

Lemma setUpTextures_reuses_handles_witness :
  let w := Sample.world Sample.willing boundQuad Sample.ortho ∅ 12500 in
  issued (setUpTextures (Some WebGL2) 2%nat) w
    = [GetUniformLocation 2%nat "uvOffset" (Some 8%nat);
       Uniform2fv (Some 8%nat) (SinOfTurn (1 # 2))].
Proof.
  cbv zeta.
  assert (Hd : hasDiffuseMap boundQuad = true → diffuseTexture boundQuad ≠ None)
    by (intros _ E; discriminate E).
  assert (Hn : hasNormalMap boundQuad = true → normalTexture boundQuad ≠ None)
    by (intros _ E; discriminate E).
  pose proof (setUpTextures_reuses_handles WebGL2 2%nat
                (Sample.world Sample.willing boundQuad Sample.ortho ∅ 12500)
                boundQuad eq_refl Hd Hn) as H.
  cbv zeta in H. destruct H as (_ & Hi & _). exact Hi.
Defined.

Lemma setUpTexture_clockFace gl p u ty s :
  respects (stable clockFace) (setUpTexture gl p u ty s).
Proof. unfold setUpTexture, PPMFileLoader.loadFile. keeps clockFace. Qed.

Lemma setUpTextures_diffuse_clockFace gl p m :
  respects (stable clockFace) (setUpTextures_diffuse gl p m).
Proof.
  unfold setUpTextures_diffuse.
  respects_walk (stable_refl clockFace) (stable_trans clockFace)
    ltac:(idtac; lazymatch goal with
          | |- respects _ (setUpTexture _ _ _ _ _) => apply setUpTexture_clockFace
          | |- _ => stable_leaf
          end).
Qed.

Lemma clockFace_fields w w' :
  stable clockFace w w' →
  clock w' = clock w ∧ clockReads w' = clockReads w ∧ driver w' = driver w.
Proof. unfold stable, clockFace. intros [= -> -> ->]. done. Qed.

(** A normal block that completes ends with the two calls that move
    [uvOffset], at the first reading of the clock. *)
Lemma setUpTextures_normal_uvOffset g p m w w2 :
  hasNormalMap m = true →
  setUpTextures_normal (Some g) p m w = (Normal tt, w2) →
  ∃ pre,
    glCalls w2
      = glCalls w ++ pre
          ++ [GetUniformLocation p "uvOffset" (uniformLocation (driver w) p "uvOffset");
              Uniform2fv (uniformLocation (driver w) p "uvOffset")
                (SinOfTurn (uvTurn (clock w (clockReads w))))]
    ∧ clockReads w2 = S (clockReads w).
Proof.
  intros Hflag. unfold setUpTextures_normal. rewrite Hflag.
  destruct (normalTexture m) as [t0|].
  - js_run. destruct (model (sceneData w)) as [m1|]; js_run; [|done].
    destruct (normalTexture m1); js_run; [|done].
    intros [= <-]. js_run. exists []. done.
  - js_run.
    destruct (setUpTexture (Some g) p 1 "map_Bump" "normalSampler" w)
      as [r1 w1] eqn:Hrun.
    pose proof (setUpTexture_clockFace (Some g) p 1 "map_Bump" "normalSampler" w) as Hcf.
    destruct (setUpTexture_drawsNothing (Some g) p 1 "map_Bump" "normalSampler" w)
      as (l & Hl & _).
    unfold after in Hcf, Hl. rewrite Hrun in Hcf, Hl. cbn [snd] in Hcf, Hl.
    apply clockFace_fields in Hcf as (Hclock & Hreads & Hdriver).
    destruct r1 as [t|e]; [|done].
    js_run. destruct (model (sceneData w1)) as [m1|]; js_run; [|done].
    destruct t as [t|]; js_run; [|done].
    intros [= <-]. js_run. rewrite Hl, Hclock, Hreads, Hdriver.
    exists l. by rewrite <- !app_assoc.
Qed.

(** X15. Every call of [setUpTextures] that completes for a model with a
    normal map ends by uploading [uvOffset], whether or not the program
    declares it: the value is the sine of the turn [now % 25000 / 25000] of
    the one clock reading the call makes.  For a clock that is not
    negative the turn is the fractional part of [now / 25000], it lies in
    [0, 1), and it is the same 25000 time units later. *)
Theorem setUpTextures_moves_uvOffset
    (g : WebGLRenderingContext) (shaderProgram : WebGLProgram)
    (w : World) (m : ModelGL) :
  model (sceneData w) = Some m →
  hasNormalMap m = true →
  completion (setUpTextures (Some g) shaderProgram) w = Normal true →
  let run := setUpTextures (Some g) shaderProgram in
  let now := clock w (clockReads w) in
  let uvOffsetLocation := uniformLocation (driver w) shaderProgram "uvOffset" in
  (∃ pre,
     issued run w
       = pre ++ [GetUniformLocation shaderProgram "uvOffset" uvOffsetLocation;
                 Uniform2fv uvOffsetLocation (SinOfTurn (uvTurn now))])
  ∧ clockReads (after run w) = S (clockReads w)
  ∧ ((0 <= now)%Q →
       (uvTurn now == now / 25000 - inject_Z (Qfloor (now / 25000)))%Q
       ∧ (0 <= uvTurn now)%Q ∧ (uvTurn now < 1)%Q
       ∧ uvTurn (now + 25000) = uvTurn now).
Proof.
  intros Hm Hflag Hdone. cbv zeta.
  split; [|split].
  3: { intros Hnow. destruct (uvTurn_range _ Hnow) as (H1 & H2 & H3).
       split; [exact H1|]. split; [exact H2|]. split; [exact H3|].
       exact (uvTurn_periodic _ Hnow). }
  all: revert Hdone; unfold completion, issued, after;
    unfold setUpTextures; js_run; rewrite Hm; js_run;
    pose proof (setUpTextures_diffuse_clockFace (Some g) shaderProgram m w) as Hcf;
    destruct (setUpTextures_diffuse_drawsNothing (Some g) shaderProgram m w)
      as (l1 & Hl1 & _);
    unfold after in Hcf, Hl1;
    destruct (setUpTextures_diffuse (Some g) shaderProgram m w) as [[[]|e] w1];
    cbn [snd] in Hcf, Hl1; [|done];
    apply clockFace_fields in Hcf as (Hclock & Hreads & Hdriver);
    destruct (setUpTextures_normal (Some g) shaderProgram m w1) as [[[]|e] w2] eqn:Hn;
    [|done];
    destruct (setUpTextures_normal_uvOffset _ _ _ _ _ Hflag Hn) as (pre & Hcalls & Hr);
    intros _; cbn [snd].
  - exists (l1 ++ pre). rewrite Hcalls, Hl1, Hclock, Hreads, Hdriver.
    by rewrite <- !app_assoc, drop_app_length.
  - by rewrite Hr, Hreads.
Qed.

Lemma setUpTextures_moves_uvOffset_witness :
  let w := Sample.world Sample.bare boundQuad Sample.ortho Sample.warm 31250 in
  ∃ pre,
    issued (setUpTextures (Some WebGL2) 2%nat) w
      = pre ++ [GetUniformLocation 2%nat "uvOffset" None;
                Uniform2fv None (SinOfTurn (1 # 4))].
Proof.
  cbv zeta.
  assert (Hdone :
    completion (setUpTextures (Some WebGL2) 2%nat)
      (Sample.world Sample.bare boundQuad Sample.ortho Sample.warm 31250)
    = Normal true) by (vm_compute; reflexivity).
  pose proof (setUpTextures_moves_uvOffset WebGL2 2%nat
                (Sample.world Sample.bare boundQuad Sample.ortho Sample.warm 31250)
                boundQuad eq_refl eq_refl Hdone) as H.
  clear Hdone. cbv zeta in H. destruct H as ((pre & Hpre) & _).
  exists pre. exact Hpre.
Defined.

(** ** The steps of a frame that runs to its end *)

Lemma bind_Normal_inv {A B} (m : JS A) (k : A → JS B) w b w' :
  (m ≫= k) w = (Normal b, w') →
  ∃ a w1, m w = (Normal a, w1) ∧ k a w1 = (Normal b, w').
Proof.
  unfold mbind, JS_bind. destruct (m w) as [[a|e] w1]; [|done].
  intros H. by exists a, w1.
Qed.

Lemma drawsNothing_run {A} (m : JS A) w r w' :
  respects drawsNothing m → m w = (r, w') → ∃ l, glCalls w' = glCalls w ++ l.
Proof.
  intros Hm Hrun. destruct (Hm w) as (l & Hl & _).
  unfold after in Hl. rewrite Hrun in Hl. by exists l.
Qed.

Lemma setUpTextures_true g p w r w' :
  setUpTextures (Some g) p w = (Normal r, w') → model (sceneData w) ≠ None → r = true.
Proof.
  unfold setUpTextures. js_run.
  destruct (model (sceneData w)) as [m|]; [|done]. intros Hrun _.
  apply bind_Normal_inv in Hrun as ([] & w1 & _ & Hrun).
  apply bind_Normal_inv in Hrun as ([] & w2 & _ & Hrun).
  by injection Hrun as <- _.
Qed.

Lemma renderLoop_trace w gl m c :
  ready w gl m c → rescheduled renderLoop w → FrameTrace w gl m c.
Proof.
  intros Hready Hresched.
  assert (Hfr : ∀ w1, setupOnly w w1 → animationFrames w1 = animationFrames w).
  { intros w1 [Hs _]. exact (f_equal animationFrames Hs). }
  unfold rescheduled in Hresched.
  destruct (renderLoop_outcome w)
    as [Hidle Hr | gl' m' c' w1 Hready' Hc Hr Hs | gl' m' c' e w' Hready' Hr Hs
       | gl' m' c' p w1 ws Hready' Hc Hsetup Hs Hr].
  1-3: exfalso; unfold after in Hresched; rewrite Hr in Hresched;
       cbn [snd] in Hresched; rewrite ?Hfr in Hresched by done; lia.
  assert (gl' = gl ∧ m' = m ∧ c' = c) as (-> & -> & ->).
  { destruct Hready as (H1 & H2 & H3), Hready' as (H1' & H2' & H3').
    rewrite H1 in H1'. rewrite H2 in H2'. rewrite H3 in H3'.
    by simplify_eq. }
  clear Hready'.
  (* the steps of the set-up *)
  pose proof Hsetup as Hsteps. unfold renderLoop_setup in Hsteps.
  rewrite bind_glCall in Hsteps.
  apply bind_Normal_inv in Hsteps as ([] & buffered & Hbuf & Hsteps).
  apply bind_Normal_inv in Hsteps as ([] & lit & Hlit & Hsteps).
  apply bind_Normal_inv in Hsteps as (r & textured & Htex & Hsteps).
  apply bind_Normal_inv in Hsteps as ([] & normalled & Hnorm & Hsteps).
  apply bind_Normal_inv in Hsteps as ([] & placed & Hplaced & Hclear).
  (* the calls of each step *)
  destruct (drawsNothing_run _ _ _ _ (compileProgram_drawsNothing _) Hc) as (lc & Hlc).
  destruct (drawsNothing_run _ _ _ _ (setUpVertexBuffer_drawsNothing _) Hbuf)
    as (lv & Hlv).
  cbn [glCalls set_gl] in Hlv.
  destruct (drawsNothing_run _ _ _ _ (setUpLights_drawsNothing _ _) Hlit) as (ll & Hll).
  destruct (drawsNothing_run _ _ _ _ (setUpTextures_drawsNothing _ _) Htex)
    as (lt & Hlt).
  destruct (drawsNothing_run _ _ _ _ (renderLoop_normal_drawsNothing _ _) Hnorm)
    as (ln & Hln).
  destruct (drawsNothing_run _ _ _ _ (renderLoop_matrices_drawsNothing _) Hplaced)
    as (lm & Hlm).
  destruct (drawsNothing_run _ _ _ _ renderLoop_clear_drawsNothing Hclear)
    as (lcl & Hlcl).
  (* the model is there when the textures are set up *)
  assert (Hr' : r = true).
  { apply (setUpTextures_true _ _ _ _ _ Htex).
    pose proof (compileProgram_compileFrame (Some gl) w) as S1.
    pose proof (setUpVertexBuffer_compileFrame p
                  (set_gl (glCalls w1 ++ [UseProgram p]) (glNext w1) w1)) as S2.
    pose proof (setUpLights_compileFrame (Some gl) p buffered) as S3.
    unfold after in S1, S2, S3. rewrite Hc in S1. rewrite Hbuf in S2.
    rewrite Hlit in S3. cbn [snd] in S1, S2, S3.
    assert (S : stable compileFrame w lit).
    { eapply stable_trans; [|exact S3]. eapply stable_trans; [|exact S2].
      eapply stable_trans; [exact S1|]. apply (glCall_compileFrame (UseProgram p) w1). }
    destruct (compileFrame_fields w lit gl m c Hready S) as (m1 & (_ & Hm1 & _) & _).
    by rewrite Hm1. }
  subst r.
  (* the calls of the whole frame *)
  destruct (setupOnly_fields w ws gl m c Hready Hs)
    as (m1 & c1 & Hm1 & Hc1 & Hfm & Hfc & Hdrv & _ & Hanim & _).
  pose proof (renderLoop_finish_run ws c1 m1 Hc1 Hm1) as Hfin. cbv zeta in Hfin.
  rewrite (forgetHandles_frameDraws _ _ _ _ Hfm Hfc) in Hfin.
  rewrite (forgetViewPort_frameViewport _ _ _ _ Hfc), Hdrv in Hfin.
  assert (Hws : glCalls ws
            = glCalls w ++ lc ++ [UseProgram p] ++ lv ++ ll ++ lt ++ ln ++ lm ++ lcl).
  { rewrite Hlcl, Hlm, Hln, Hlt, Hll, Hlv, Hlc. by rewrite <- !app_assoc. }
  assert (Hcalls : glCalls (after renderLoop w)
            = glCalls w ++ lc ++ [UseProgram p] ++ lv ++ ll ++ lt ++ ln ++ lm ++ lcl
                ++ [frameViewport c (canvasWidth (driver w)) (canvasHeight (driver w));
                    Enable DEPTH_TEST] ++ frameDraws c m ++ [Flush; Finish]).
  { unfold after. rewrite Hr, Hfin. cbn [snd]. unfold after.
    rewrite (renderLoop_fps_run _). cbv zeta.
    destruct (jsGt _ _); js_simpl; rewrite Hws; by rewrite <- !app_assoc. }
  eapply (frameTrace w gl m c p w1 buffered lit textured normalled placed ws
            lc lv ll lt ln lm lcl); try done.
  by apply issued_app.
Qed.

(** *** What the steps leave of the scene *)

Ltac keeps_with E lemma :=
  respects_walk (stable_refl E) (stable_trans E)
    ltac:(idtac; lazymatch goal with
          | |- respects _ (setUpTexture _ _ _ _ _) => apply lemma
          | |- _ => stable_leaf
          end).

Lemma compileProgram_sceneFixed gl : respects (stable sceneFixed) (compileProgram gl).
Proof. unfold compileProgram. keeps sceneFixed. Qed.

Lemma glCall_sceneFixed c : respects (stable sceneFixed) (glCall c).
Proof. keeps sceneFixed. Qed.

Lemma setUpVertexBuffer_sceneFixed p : respects (stable sceneFixed) (setUpVertexBuffer p).
Proof. unfold setUpVertexBuffer. keeps sceneFixed. Qed.

Lemma setUpLights_sceneFixed gl p : respects (stable sceneFixed) (setUpLights gl p).
Proof. unfold setUpLights. keeps sceneFixed. Qed.

Lemma setUpTexture_sceneFixed gl p u ty s :
  respects (stable sceneFixed) (setUpTexture gl p u ty s).
Proof. unfold setUpTexture, PPMFileLoader.loadFile. keeps sceneFixed. Qed.

Lemma setUpTextures_sceneFixed gl p : respects (stable sceneFixed) (setUpTextures gl p).
Proof.
  unfold setUpTextures, setUpTextures_diffuse, setUpTextures_normal.
  keeps_with sceneFixed setUpTexture_sceneFixed.
Qed.

Lemma renderLoop_normal_sceneFixed p m : respects (stable sceneFixed) (renderLoop_normal p m).
Proof. unfold renderLoop_normal. keeps sceneFixed. Qed.

Lemma glCall_modelButTextures c : respects (stable modelButTextures) (glCall c).
Proof. keeps modelButTextures. Qed.

Lemma setUpVertexBuffer_modelButTextures p :
  respects (stable modelButTextures) (setUpVertexBuffer p).
Proof. unfold setUpVertexBuffer. keeps modelButTextures. Qed.

Lemma setUpLights_modelButTextures gl p :
  respects (stable modelButTextures) (setUpLights gl p).
Proof. unfold setUpLights. keeps modelButTextures. Qed.

Lemma setUpTexture_modelButTextures gl p u ty s :
  respects (stable modelButTextures) (setUpTexture gl p u ty s).
Proof. unfold setUpTexture, PPMFileLoader.loadFile. keeps modelButTextures. Qed.

Lemma setUpTextures_modelButTextures gl p :
  respects (stable modelButTextures) (setUpTextures gl p).
Proof.
  unfold setUpTextures, setUpTextures_diffuse, setUpTextures_normal.
  respects_walk (stable_refl modelButTextures) (stable_trans modelButTextures)
    ltac:(idtac; lazymatch goal with
          | |- respects _ (setUpTexture _ _ _ _ _) =>
              apply setUpTexture_modelButTextures
          | |- _ =>
              intros ?; unfold stable, after, modelButTextures, forgetTextures;
              js_leaf; reflexivity
          end).
Qed.

Lemma renderLoop_normal_modelButTextures p m :
  respects (stable modelButTextures) (renderLoop_normal p m).
Proof. unfold renderLoop_normal. keeps modelButTextures. Qed.

Lemma renderLoop_matrices_modelButTextures p :
  respects (stable modelButTextures) (renderLoop_matrices p).
Proof. unfold renderLoop_matrices. keeps modelButTextures. Qed.

Lemma renderLoop_clear_modelButTextures :
  respects (stable modelButTextures) renderLoop_clear.
Proof. unfold renderLoop_clear. keeps modelButTextures. Qed.

Lemma respects_run {A} R (m : JS A) w r w' : respects R m → m w = (r, w') → R w w'.
Proof. intros Hm Hrun. specialize (Hm w). unfold after in Hm. by rewrite Hrun in Hm. Qed.

(** *** What the last steps of the set-up do *)

Lemma renderLoop_matrices_run p w c m :
  camera (sceneData w) = Some c → model (sceneData w) = Some m →
  let c' := setViewPortHeight (height (sceneData w))
              (setViewPortWidth (width (sceneData w)) c) in
  let loc name := uniformLocation (driver w) p name in
  renderLoop_matrices p w
    = (Normal tt,
       set_gl (glCalls w
               ++ [GetUniformLocation p "projectionMatrix" (loc "projectionMatrix");
                   UniformMatrix4fv (loc "projectionMatrix") false (projectionMatrix c');
                   GetUniformLocation p "viewMatrix" (loc "viewMatrix");
                   UniformMatrix4fv (loc "viewMatrix") false (viewMatrix c');
                   GetUniformLocation p "modelMatrix" (loc "modelMatrix");
                   UniformMatrix4fv (loc "modelMatrix") false (modelMatrix m)])
         (glNext w)
         (set_sceneData (set_camera (Some c') (sceneData w)) w)).
Proof.
  intros Hc Hm. cbv zeta. unfold renderLoop_matrices.
  js_run. rewrite Hc. js_run. rewrite Hm. js_run. done.
Qed.

Lemma renderLoop_clear_run w :
  let n := sceneFrameNumber (sceneData w) in
  renderLoop_clear w
    = (Normal tt,
       set_gl (glCalls w
               ++ [Viewport 0 0 (inject_Z (canvasWidth (driver w)))
                     (inject_Z (canvasHeight (driver w)));
                   ClearColor (jsDiv (inject_Z (Z.of_nat n mod 255)) 255)
                     (1 # 5) (3 # 5) (1 # 10)])
         (glNext w)
         (set_sceneData (set_sceneFrameNumber (S n) (sceneData w)) w)).
Proof. cbv zeta. unfold renderLoop_clear. js_run. unfold modify. js_run. done. Qed.

(** The scene at the end of a frame is the one the set-up left. *)
Lemma renderLoop_finish_scene w c m :
  camera (sceneData w) = Some c → model (sceneData w) = Some m →
  sceneData (after renderLoop_finish w) = sceneData w.
Proof.
  intros Hc Hm. unfold after at 1.
  pose proof (renderLoop_finish_run w c m Hc Hm) as Hfin. cbv zeta in Hfin.
  rewrite Hfin. cbn [snd]. unfold after. rewrite renderLoop_fps_run. cbv zeta.
  by destruct (jsGt _ _).
Qed.

(** *** The scene before the matrices *)

(** Up to [renderLoop_normal] the set-up changes the model at most: context,
    camera, lights, size and frame number are those of the start. *)
Lemma setup_steps_scene w gl m c p compiled buffered lit textured normalled r :
  ready w gl m c →
  compileProgram (Some gl) w = (Normal (Some p), compiled) →
  setUpVertexBuffer p
    (set_gl (glCalls compiled ++ [UseProgram p]) (glNext compiled) compiled)
    = (Normal tt, buffered) →
  setUpLights (Some gl) p buffered = (Normal tt, lit) →
  setUpTextures (Some gl) p lit = (Normal r, textured) →
  renderLoop_normal p m textured = (Normal tt, normalled) →
  sceneFixed normalled = sceneFixed w
  ∧ camera (sceneData normalled) = Some c
  ∧ driver normalled = driver w
  ∧ ∃ m', model (sceneData normalled) = Some m'
          ∧ forgetHandles m' = forgetHandles m.
Proof.
  intros Hready Hc Hbuf Hlit Htex Hnorm.
  pose proof (respects_run _ _ _ _ _ (compileProgram_sceneFixed _) Hc) as F1.
  pose proof (glCall_sceneFixed (UseProgram p) compiled) as F2.
  pose proof (respects_run _ _ _ _ _ (setUpVertexBuffer_sceneFixed _) Hbuf) as F3.
  pose proof (respects_run _ _ _ _ _ (setUpLights_sceneFixed _ _) Hlit) as F4.
  pose proof (respects_run _ _ _ _ _ (setUpTextures_sceneFixed _ _) Htex) as F5.
  pose proof (respects_run _ _ _ _ _ (renderLoop_normal_sceneFixed _ _) Hnorm) as F6.
  assert (F : sceneFixed normalled = sceneFixed w).
  { unfold stable, after, glCall, modify in *. cbn [snd] in F2. congruence. }
  pose proof (respects_run _ _ _ _ _ (compileProgram_setupOnly _) Hc) as S1.
  pose proof (glCall_setupOnly (UseProgram p) eq_refl compiled) as S2.
  pose proof (respects_run _ _ _ _ _ (setUpVertexBuffer_setupOnly _) Hbuf) as S3.
  pose proof (respects_run _ _ _ _ _ (setUpLights_setupOnly _ _) Hlit) as S4.
  pose proof (respects_run _ _ _ _ _ (setUpTextures_setupOnly _ _) Htex) as S5.
  pose proof (respects_run _ _ _ _ _ (renderLoop_normal_setupOnly _ _) Hnorm) as S6.
  assert (S : setupOnly w normalled).
  { unfold after, glCall, modify in S2. cbn [snd] in S2.
    eauto 10 using setupOnly_trans. }
  destruct (setupOnly_fields w normalled gl m c Hready S)
    as (m' & c' & Hm' & Hc' & Hfm & _ & Hdrv & _).
  split; [done|]. split; [|split; [done|by exists m']].
  destruct Hready as (_ & _ & Hcam).
  unfold sceneFixed in F. injection F as _ Hcamera _ _ _ _. by rewrite Hcamera.
Qed.

Ltac frame_trace Hready Hresched :=
  destruct (renderLoop_trace _ _ _ _ Hready Hresched)
    as [p compiled buffered lit textured normalled placed cleared
        lc lv ll lt ln lm lcl
        Hcompile Hlc Hbuffer Hlv Hlights Hll Htextures Hlt Hnormal Hln
        Hmatrices Hlm Hclear Hlcl Hfinish Hissued].

(** The last two steps of the set-up: the camera takes the size stored in
    the scene, the three matrices are uploaded, the viewport is set to the
    canvas and the clear colour to the shade of the frame number, which is
    advanced. *)
Lemma setup_end w c m' p normalled placed cleared lm lcl :
  camera (sceneData normalled) = Some c →
  model (sceneData normalled) = Some m' →
  sceneFixed normalled = sceneFixed w →
  renderLoop_matrices p normalled = (Normal tt, placed) →
  glCalls placed = glCalls normalled ++ lm →
  renderLoop_clear placed = (Normal tt, cleared) →
  glCalls cleared = glCalls placed ++ lcl →
  let loc name := uniformLocation (driver normalled) p name in
  let c' := setViewPortHeight (height (sceneData w))
              (setViewPortWidth (width (sceneData w)) c) in
  lm = [GetUniformLocation p "projectionMatrix" (loc "projectionMatrix");
        UniformMatrix4fv (loc "projectionMatrix") false (projectionMatrix c');
        GetUniformLocation p "viewMatrix" (loc "viewMatrix");
        UniformMatrix4fv (loc "viewMatrix") false (viewMatrix c');
        GetUniformLocation p "modelMatrix" (loc "modelMatrix");
        UniformMatrix4fv (loc "modelMatrix") false (modelMatrix m')]
  ∧ lcl = [Viewport 0 0 (inject_Z (canvasWidth (driver normalled)))
             (inject_Z (canvasHeight (driver normalled)));
           ClearColor
             (jsDiv (inject_Z (Z.of_nat (sceneFrameNumber (sceneData w)) mod 255)) 255)
             (1 # 5) (3 # 5) (1 # 10)]
  ∧ camera (sceneData cleared) = Some c'
  ∧ model (sceneData cleared) = Some m'
  ∧ sceneFrameNumber (sceneData cleared) = S (sceneFrameNumber (sceneData w))
  ∧ width (sceneData cleared) = width (sceneData w)
  ∧ height (sceneData cleared) = height (sceneData w).
Proof.
  intros Hcam Hm' Hfixed Hmatrices Hlm Hclear Hlcl. cbv zeta.
  unfold sceneFixed in Hfixed. injection Hfixed as _ _ _ Hw Hh Hn.
  pose proof (renderLoop_matrices_run p normalled c m' Hcam Hm') as Hrun.
  cbv zeta in Hrun. rewrite Hmatrices in Hrun. injection Hrun as ->.
  cbn [glCalls set_gl] in Hlm. apply app_inv_head in Hlm as <-.
  match type of Hclear with
  | renderLoop_clear ?x = _ => pose proof (renderLoop_clear_run x) as Hrun
  end.
  cbv zeta in Hrun. rewrite Hclear in Hrun. injection Hrun as ->.
  cbn [glCalls set_gl] in Hlcl. apply app_inv_head in Hlcl as <-.
  js_simpl. rewrite Hn, Hw, Hh. done.
Qed.

(** ** glCanvas: the camera and the clear colour of a frame *)

(** X16. In every frame that runs to its end the clear colour is set once
    more, to [(n % 255) / 255] for red, where [n] is the frame number of the
    scene before the frame, and to 0.2, 0.6, 0.1; the red lies in [0, 1) and
    the frame number of the scene is one more afterwards. *)
Theorem renderLoop_clear_colour (w : World) (gl : WebGLRenderingContext)
    (m : ModelGL) (c : Camera) :
  ready w gl m c →
  rescheduled renderLoop w →
  let n := sceneFrameNumber (sceneData w) in
  let red := jsDiv (inject_Z (Z.of_nat n mod 255)) 255 in
  ClearColor red (1 # 5) (3 # 5) (1 # 10) ∈ issued renderLoop w
  ∧ (red == inject_Z (Z.of_nat (n mod 255)) / 255)%Q
  ∧ (0 <= red)%Q ∧ (red < 1)%Q
  ∧ sceneFrameNumber (sceneData (after renderLoop w)) = S n.
Proof.
  intros Hready Hresched. cbv zeta. frame_trace Hready Hresched.
  destruct (setup_steps_scene _ _ _ _ _ _ _ _ _ _ _ Hready Hcompile Hbuffer Hlights
              Htextures Hnormal) as (Hfixed & Hcam & Hdrv & m' & Hm' & _).
  destruct (setup_end w c m' p normalled placed cleared lm lcl Hcam Hm' Hfixed
              Hmatrices Hlm Hclear Hlcl) as (_ & -> & Hcam' & Hm'' & Hn & _).
  split; [|split; [|split; [|split]]].
  - rewrite Hissued. rewrite !elem_of_app. do 7 right. left.
    rewrite !elem_of_cons. auto.
  - rewrite jsDiv_exact. rewrite Nat2Z.inj_mod. reflexivity.
  - rewrite jsDiv_exact. apply Qle_shift_div_l; [reflexivity|].
    rewrite Qmult_0_l. rewrite <- (Zle_Qle 0).
    apply Z.mod_pos_bound. lia.
  - rewrite jsDiv_exact. apply Qlt_shift_div_r; [reflexivity|].
    rewrite Qmult_1_l. rewrite <- (Zlt_Qlt _ 255).
    apply Z.mod_pos_bound. lia.
  - unfold after. rewrite Hfinish. fold (after renderLoop_finish cleared).
    by rewrite (renderLoop_finish_scene cleared _ _ Hcam' Hm'').
Qed.

Lemma renderLoop_clear_colour_witness :
  ClearColor (3 # 17) (1 # 5) (3 # 5) (1 # 10) ∈ issued renderLoop frame300
  ∧ sceneFrameNumber (sceneData (after renderLoop frame300)) = 301%nat.
Proof.
  assert (Hready : ready frame300 WebGL2 Sample.quad Sample.ortho) by (repeat split).
  assert (Hend : rescheduled renderLoop frame300) by (vm_compute; reflexivity).
  destruct (renderLoop_clear_colour frame300 WebGL2 Sample.quad Sample.ortho
              Hready Hend) as (Hin & _ & _ & _ & Hn).
  split; [exact Hin | exact Hn].
Defined.

(** X17. In every frame that runs to its end the camera is given the size
    stored in the scene (the one [setupCanvas] read), not the present size
    of the canvas that the viewport calls use; the projection and the view
    matrix uploaded are those the camera computes for that size, asked for
    after the setters; projection, view and model matrix are uploaded in
    this order, untransposed, each to whatever location the program gives,
    null included. *)
Theorem renderLoop_places_camera (w : World) (gl : WebGLRenderingContext)
    (m : ModelGL) (c : Camera) :
  ready w gl m c →
  rescheduled renderLoop w →
  let w' := after renderLoop w in
  let vw := width (sceneData w) in
  let vh := height (sceneData w) in
  camera (sceneData w') = Some (setViewPortHeight vh (setViewPortWidth vw c))
  ∧ width (sceneData w') = vw
  ∧ height (sceneData w') = vh
  ∧ ∃ p before rest,
      issued renderLoop w
        = before
          ++ [GetUniformLocation p "projectionMatrix"
                (uniformLocation (driver w) p "projectionMatrix");
              UniformMatrix4fv (uniformLocation (driver w) p "projectionMatrix")
                false (computeProjectionMatrix c vw vh);
              GetUniformLocation p "viewMatrix"
                (uniformLocation (driver w) p "viewMatrix");
              UniformMatrix4fv (uniformLocation (driver w) p "viewMatrix")
                false (computeViewMatrix c vw vh);
              GetUniformLocation p "modelMatrix"
                (uniformLocation (driver w) p "modelMatrix");
              UniformMatrix4fv (uniformLocation (driver w) p "modelMatrix")
                false (modelMatrix m);
              Viewport 0 0 (inject_Z (canvasWidth (driver w)))
                (inject_Z (canvasHeight (driver w)))]
          ++ rest
      ∧ filter isDraw before = []
      ∧ UseProgram p ∈ before.
Proof.
  intros Hready Hresched. cbv zeta. frame_trace Hready Hresched.
  destruct (setup_steps_scene _ _ _ _ _ _ _ _ _ _ _ Hready Hcompile Hbuffer Hlights
              Htextures Hnormal) as (Hfixed & Hcam & Hdrv & m' & Hm' & Hfm).
  destruct (setup_end w c m' p normalled placed cleared lm lcl Hcam Hm' Hfixed
              Hmatrices Hlm Hclear Hlcl) as (-> & -> & Hcam' & Hm'' & _ & Hw & Hh).
  assert (Hscene : sceneData (after renderLoop w) = sceneData cleared).
  { unfold after. rewrite Hfinish. fold (after renderLoop_finish cleared).
    by rewrite (renderLoop_finish_scene cleared _ _ Hcam' Hm''). }
  rewrite Hscene. do 3 (split; [done|]).
  exists p, (lc ++ [UseProgram p] ++ lv ++ ll ++ lt ++ ln). eexists.
  split; [|split].
  - rewrite Hissued, Hdrv.
    rewrite (f_equal modelMatrix Hfm : modelMatrix m' = modelMatrix m).
    rewrite <- !app_assoc. cbn [app]. reflexivity.
  - assert (Hnodraw : ∀ a b l, glCalls b = glCalls a ++ l → drawsNothing a b →
              filter isDraw l = []).
    { intros a b l Hl (l' & Hl' & Hf). rewrite Hl in Hl'.
      by apply app_inv_head in Hl' as ->. }
    rewrite !filter_app.
    rewrite (Hnodraw _ _ _ Hlc
               (respects_run _ _ _ _ _ (compileProgram_drawsNothing _) Hcompile)).
    rewrite (Hnodraw (set_gl (glCalls compiled ++ [UseProgram p]) (glNext compiled)
                        compiled) _ _ Hlv
               (respects_run _ _ _ _ _ (setUpVertexBuffer_drawsNothing _) Hbuffer)).
    rewrite (Hnodraw _ _ _ Hll
               (respects_run _ _ _ _ _ (setUpLights_drawsNothing _ _) Hlights)).
    rewrite (Hnodraw _ _ _ Hlt
               (respects_run _ _ _ _ _ (setUpTextures_drawsNothing _ _) Htextures)).
    rewrite (Hnodraw _ _ _ Hln
               (respects_run _ _ _ _ _ (renderLoop_normal_drawsNothing _ _) Hnormal)).
    reflexivity.
  - rewrite !elem_of_app, list_elem_of_singleton. auto.
Qed.

(** The frame of the samples on the resized canvas: the camera is given
    800 by 600, its projection matrix is computed for 800 by 600, and the
    viewport is the canvas of 640 by 480. *)
Lemma renderLoop_places_camera_witness :
  (camera (sceneData (after renderLoop frame300)) ≫= λ c, Some (viewPortWidth c))
    = Some 800
  ∧ (∃ p loc, UniformMatrix4fv loc false (computeProjectionMatrix Sample.ortho 800 600)
                ∈ issued renderLoop frame300
              ∧ loc = uniformLocation (driver frame300) p "projectionMatrix")
  ∧ Viewport 0 0 640 480 ∈ issued renderLoop frame300.
Proof.
  assert (Hready : ready frame300 WebGL2 Sample.quad Sample.ortho) by (repeat split).
  assert (Hend : rescheduled renderLoop frame300) by (vm_compute; reflexivity).
  destruct (renderLoop_places_camera frame300 WebGL2 Sample.quad Sample.ortho
              Hready Hend) as (Hcam & _ & _ & p & before & rest & Hissued & _).
  split; [by rewrite Hcam|]. split.
  - exists p. eexists. split; [|reflexivity].
    rewrite Hissued, !elem_of_app. right; left. rewrite !elem_of_cons. auto 20.
  - rewrite Hissued, !elem_of_app. right; left. rewrite !elem_of_cons. auto 20.
Defined.

(** *** The calls of each step *)

Lemma compileProgram_calls gl : respects (issuesOnly compileCall) (compileProgram gl).
Proof. unfold compileProgram. issues_only compileCall. Qed.

Lemma setUpLights_calls gl p : respects (issuesOnly lightCall) (setUpLights gl p).
Proof. unfold setUpLights. issues_only lightCall. Qed.

Lemma setUpTextures_calls gl p : respects (issuesOnly textureCall) (setUpTextures gl p).
Proof.
  unfold setUpTextures, setUpTextures_diffuse, setUpTextures_normal, setUpTexture,
    PPMFileLoader.loadFile.
  issues_only textureCall.
Qed.

Lemma renderLoop_normal_calls p m : respects (issuesOnly normalCall) (renderLoop_normal p m).
Proof. unfold renderLoop_normal. issues_only normalCall. Qed.

(** The calls of a step that ran, all of its kind. *)
Lemma calls_of_step {A} P (m : JS A) w r w' l :
  respects (issuesOnly P) m → m w = (r, w') → glCalls w' = glCalls w ++ l →
  forallb P l = true.
Proof.
  intros Hm Hrun Hl. destruct (respects_run _ _ _ _ _ Hm Hrun) as (l' & Hl' & HP).
  rewrite Hl in Hl'. by apply app_inv_head in Hl' as ->.
Qed.

Lemma setUpVertexBuffer_run p w m :
  model (sceneData w) = Some m →
  let create n := if allocates (driver w) n then Some n else None in
  let positionLocation := attribLocation (driver w) p "position" in
  setUpVertexBuffer p w
    = (Normal tt,
       set_gl (glCalls w
               ++ [CreateBuffer (create (glNext w));
                   BindBuffer ARRAY_BUFFER (create (glNext w));
                   BufferData ARRAY_BUFFER (Float32Array (packedVertexBuffer m))
                     STATIC_DRAW;
                   CreateBuffer (create (S (glNext w)));
                   BindBuffer ELEMENT_ARRAY_BUFFER (create (S (glNext w)));
                   BufferData ELEMENT_ARRAY_BUFFER (Uint16Array (vertexIndices m))
                     STATIC_DRAW;
                   GetAttribLocation p "position" positionLocation;
                   EnableVertexAttribArray positionLocation;
                   VertexAttribPointer positionLocation 3 FLOAT false
                     (vertexStride m) 0])
         (S (S (glNext w))) w).
Proof.
  intros Hm. cbv zeta. unfold setUpVertexBuffer.
  js_run. rewrite Hm. js_run. unfold modify. js_run. done.
Qed.

Lemma renderLoop_normal_run p m w :
  let normalLocation := attribLocation (driver w) p "normal" in
  renderLoop_normal p m w
    = (Normal tt,
       if includes "Normal" (vertexShaderName m) then
         set_gl (glCalls w
                 ++ [GetAttribLocation p "normal" normalLocation;
                     EnableVertexAttribArray normalLocation;
                     VertexAttribPointer normalLocation 3 FLOAT false
                       (vertexStride m) (normalOffset m)])
           (glNext w) w
       else w).
Proof.
  cbv zeta. unfold renderLoop_normal.
  destruct (includes "Normal" (vertexShaderName m)); [|done].
  js_run. unfold modify. js_run. done.
Qed.

(** The program that [compileProgram] returns is the one the model holds. *)
Lemma compileProgram_Some gl w p w1 m :
  model (sceneData w) = Some m →
  compileProgram gl w = (Normal (Some p), w1) →
  model (sceneData w1) = Some (set_renderingProgram (Some p) m)
  ∧ (renderingProgram m = Some p → w1 = w)
  ∧ (∀ q, renderingProgram m = Some q → q = p).
Proof.
  intros Hmodel Hrun.
  assert (Heta : ∀ q, renderingProgram m = Some q → set_renderingProgram (Some q) m = m).
  { intros q Hq. destruct m. cbn in *. by rewrite Hq. }
  revert Hrun. unfold compileProgram.
  js_run. rewrite Hmodel. js_run.
  destruct (renderingProgram m) as [p0|] eqn:Hp.
  { js_run. intros [= <- <-]. rewrite Hmodel.
    split; [by rewrite (Heta p0 eq_refl)|]. split; [done|]. by intros q [= <-]. }
  destruct (camera (sceneData w)) as [c|]; js_run; [|done].
  destruct gl as [g|]; js_run; [|done].
  destruct (allocates (driver w) (glNext w)); js_run; [|done].
  destruct (compileStatus (driver w) (glNext w)); js_run; [|done].
  destruct (allocates (driver w) (S (glNext w))); js_run; [|done].
  destruct (compileStatus (driver w) (S (glNext w))); js_run; [|done].
  destruct (allocates (driver w) (S (S (glNext w)))); js_run; [|done].
  destruct (linkStatus (driver w) (S (S (glNext w)))); js_run; [|done].
  rewrite Hmodel. js_run. intros [= <- <-]. js_run. done.
Qed.

(** The calls of a frame that runs to its end, step by step: those of
    [compileProgram], the binding of the program, those of
    [setUpVertexBuffer] in full, those of [setUpLights] and of
    [setUpTextures], those for the normal attribute in full, those for the
    matrices, and those from the first viewport on. *)
Lemma frame_calls w gl m c :
  ready w gl m c → rescheduled renderLoop w →
  ∃ p lc ll lt lm lf d next,
    issued renderLoop w
      = lc ++ [UseProgram p]
          ++ [CreateBuffer (if allocates d next then Some next else None);
              BindBuffer ARRAY_BUFFER (if allocates d next then Some next else None);
              BufferData ARRAY_BUFFER (Float32Array (packedVertexBuffer m)) STATIC_DRAW;
              CreateBuffer (if allocates d (S next) then Some (S next) else None);
              BindBuffer ELEMENT_ARRAY_BUFFER
                (if allocates d (S next) then Some (S next) else None);
              BufferData ELEMENT_ARRAY_BUFFER (Uint16Array (vertexIndices m))
                STATIC_DRAW;
              GetAttribLocation p "position" (attribLocation d p "position");
              EnableVertexAttribArray (attribLocation d p "position");
              VertexAttribPointer (attribLocation d p "position") 3 FLOAT false
                (vertexStride m) 0]
          ++ ll ++ lt
          ++ (if includes "Normal" (vertexShaderName m) then
                [GetAttribLocation p "normal" (attribLocation d p "normal");
                 EnableVertexAttribArray (attribLocation d p "normal");
                 VertexAttribPointer (attribLocation d p "normal") 3 FLOAT false
                   (vertexStride m) (normalOffset m)]
              else [])
          ++ lm ++ lf
    ∧ forallb compileCall lc = true
    ∧ forallb lightCall ll = true
    ∧ forallb textureCall lt = true
    ∧ forallb matrixCall lm = true
    ∧ forallb finishCall lf = true
    ∧ d = driver w
    ∧ (∀ m', model (sceneData (after renderLoop w)) = Some m' →
         renderingProgram m' = Some p)
    ∧ (∀ q, renderingProgram m = Some q → q = p ∧ lc = []).
Proof.
  intros Hready Hresched. frame_trace Hready Hresched.
  destruct (setup_steps_scene _ _ _ _ _ _ _ _ _ _ _ Hready Hcompile Hbuffer Hlights
              Htextures Hnormal) as (Hfixed & Hcam & Hdrv & m' & Hm' & Hfm).
  destruct (setup_end w c m' p normalled placed cleared lm lcl Hcam Hm' Hfixed
              Hmatrices Hlm Hclear Hlcl) as (Elm & Elcl & Hcam' & Hm'' & _).
  pose proof Hready as (_ & Hm & _).
  destruct (compileProgram_Some _ _ _ _ _ Hm Hcompile) as (Hm1 & Hhit & Hsame).
  (* the vertex buffers *)
  pose proof (setUpVertexBuffer_run p
                (set_gl (glCalls compiled ++ [UseProgram p]) (glNext compiled) compiled)
                _ Hm1) as Hrun.
  cbv zeta in Hrun. rewrite Hbuffer in Hrun. injection Hrun as Hrun.
  pose proof (f_equal glCalls Hrun) as Elv. rewrite Hlv in Elv.
  cbn [glCalls set_gl driver glNext] in Elv. apply app_inv_head in Elv.
  (* the normal attribute *)
  pose proof (renderLoop_normal_run p m textured) as Hrun'.
  cbv zeta in Hrun'. rewrite Hnormal in Hrun'. injection Hrun' as Hrun'.
  assert (Eln : ln = if includes "Normal" (vertexShaderName m) then
                       [GetAttribLocation p "normal"
                          (attribLocation (driver textured) p "normal");
                        EnableVertexAttribArray
                          (attribLocation (driver textured) p "normal");
                        VertexAttribPointer
                          (attribLocation (driver textured) p "normal") 3 FLOAT false
                          (vertexStride m) (normalOffset m)]
                     else []).
  { pose proof (f_equal glCalls Hrun') as E. rewrite Hln in E.
    destruct (includes "Normal" (vertexShaderName m)).
    - cbn [glCalls set_gl] in E. by apply app_inv_head in E.
    - rewrite <- (app_nil_r (glCalls textured)) in E at 2.
      by apply app_inv_head in E. }
  (* the driver is the same throughout *)
  assert (Hd1 : driver compiled = driver w).
  { pose proof (respects_run _ _ _ _ _ (compileProgram_compileFrame _) Hcompile) as S.
    exact (f_equal driver S). }
  assert (Hd2 : driver textured = driver w).
  { rewrite Hrun' in Hdrv. by destruct (includes _ _). }
  exists p, lc, ll, lt, lm, (lcl
    ++ [frameViewport c (canvasWidth (driver w)) (canvasHeight (driver w));
        Enable DEPTH_TEST] ++ frameDraws c m ++ [Flush; Finish]),
    (driver w), (glNext compiled).
  split; [|split; [|split; [|split; [|split; [|split; [|split; [|split]]]]]]].
  - rewrite Hissued, Elv, Eln, Hd1, Hd2.
    cbn [packedVertexBuffer vertexIndices vertexStride set_renderingProgram].
    reflexivity.
  - exact (calls_of_step _ _ _ _ _ _ (compileProgram_calls _) Hcompile Hlc).
  - exact (calls_of_step _ _ _ _ _ _ (setUpLights_calls _ _) Hlights Hll).
  - exact (calls_of_step _ _ _ _ _ _ (setUpTextures_calls _ _) Htextures Hlt).
  - by rewrite Elm.
  - rewrite Elcl, !forallb_app. cbn [forallb finishCall andb].
    assert (Hv : finishCall (frameViewport c (canvasWidth (driver w))
                               (canvasHeight (driver w))) = true).
    { unfold frameViewport. by destruct (usePerspective c). }
    rewrite Hv. cbn [andb].
    assert (Hdraws : forallb finishCall (frameDraws c m) = true).
    { apply forallb_forall. intros call Hin. unfold frameDraws in Hin.
      destruct (renderSolid c).
      - by destruct Hin as [<-|[]].
      - by apply in_map_iff in Hin as (i & <- & _). }
    by rewrite Hdraws.
  - done.
  - intros mEnd HmEnd.
    assert (Hscene : sceneData (after renderLoop w) = sceneData cleared).
    { unfold after. rewrite Hfinish. fold (after renderLoop_finish cleared).
      by rewrite (renderLoop_finish_scene cleared _ _ Hcam' Hm''). }
    rewrite Hscene, Hm'' in HmEnd. injection HmEnd as <-.
    (* the program is kept from [compiled] to the end of the set-up *)
    pose proof (glCall_modelButTextures (UseProgram p) compiled) as T0.
    pose proof (respects_run _ _ _ _ _ (setUpVertexBuffer_modelButTextures _) Hbuffer)
      as T1.
    pose proof (respects_run _ _ _ _ _ (setUpLights_modelButTextures _ _) Hlights) as T2.
    pose proof (respects_run _ _ _ _ _ (setUpTextures_modelButTextures _ _) Htextures)
      as T3.
    pose proof (respects_run _ _ _ _ _ (renderLoop_normal_modelButTextures _ _) Hnormal)
      as T4.
    pose proof (respects_run _ _ _ _ _ (renderLoop_matrices_modelButTextures _)
                  Hmatrices) as T5.
    pose proof (respects_run _ _ _ _ _ renderLoop_clear_modelButTextures Hclear) as T6.
    assert (T : modelButTextures cleared = modelButTextures compiled).
    { unfold stable, after, glCall, modify in *. cbn [snd] in T0. congruence. }
    unfold modelButTextures in T. rewrite Hm'', Hm1 in T.
    cbn [fmap option_fmap option_map] in T. apply (inj Some) in T.
    exact (f_equal renderingProgram T).
  - intros q Hq. pose proof (Hsame q Hq) as ->. split; [done|].
    rewrite (Hhit Hq) in Hlc. rewrite <- (app_nil_r (glCalls w)) in Hlc at 1.
    by apply app_inv_head in Hlc.
Qed.

(** Filters a list of calls written as in [frame_calls]. *)
Ltac filter_frame bad Hlc Hll Hlt Hlm Hlf :=
  rewrite !filter_app;
  rewrite (forallb_filter_nil compileCall bad _ ltac:(by intros []) Hlc);
  rewrite (forallb_filter_nil lightCall bad _ ltac:(by intros []) Hll);
  rewrite (forallb_filter_nil textureCall bad _ ltac:(by intros []) Hlt);
  rewrite (forallb_filter_nil matrixCall bad _ ltac:(by intros []) Hlm);
  rewrite (forallb_filter_nil finishCall bad _ ltac:(by intros []) Hlf).

(** ** glCanvas: the buffers and attributes of a frame *)

(** X18. Every frame that runs to its end makes two new buffer objects, one
    for the packed vertices and one for the indices, and uploads both
    arrays of the model again: these six calls are the only buffer calls of
    the frame, and when both objects are given the second handle follows
    the first.  Nothing keeps the buffers of the frame before. *)
Theorem renderLoop_makes_buffers_each_frame (w : World)
    (gl : WebGLRenderingContext) (m : ModelGL) (c : Camera) :
  ready w gl m c →
  rescheduled renderLoop w →
  ∃ positionBuffer indexBuffer,
    filter isBufferCall (issued renderLoop w)
      = [CreateBuffer positionBuffer;
         BindBuffer ARRAY_BUFFER positionBuffer;
         BufferData ARRAY_BUFFER (Float32Array (packedVertexBuffer m)) STATIC_DRAW;
         CreateBuffer indexBuffer;
         BindBuffer ELEMENT_ARRAY_BUFFER indexBuffer;
         BufferData ELEMENT_ARRAY_BUFFER (Uint16Array (vertexIndices m)) STATIC_DRAW]
    ∧ (∀ b1 b2, positionBuffer = Some b1 → indexBuffer = Some b2 → b2 = S b1).
Proof.
  intros Hready Hresched.
  destruct (frame_calls w gl m c Hready Hresched)
    as (p & lc & ll & lt & lm & lf & d & next & -> & Hlc & Hll & Hlt & Hlm & Hlf & _).
  eexists _, _. split.
  - filter_frame isBufferCall Hlc Hll Hlt Hlm Hlf.
    destruct (includes "Normal" (vertexShaderName m)); reflexivity.
  - intros b1 b2 H1 H2.
    destruct (allocates d next), (allocates d (S next)); by simplify_eq.
Qed.

Lemma renderLoop_makes_buffers_each_frame_witness :
  let w := Sample.world Sample.willing Sample.quad Sample.ortho Sample.warm 0 in
  filter isCreateBuffer (issued (renderLoop;; renderLoop) w)
    = [CreateBuffer (Some 3%nat); CreateBuffer (Some 4%nat);
       CreateBuffer (Some 7%nat); CreateBuffer (Some 8%nat)]
  ∧ ∃ positionBuffer indexBuffer,
      filter isBufferCall (issued renderLoop w)
        = [CreateBuffer positionBuffer;
           BindBuffer ARRAY_BUFFER positionBuffer;
           BufferData ARRAY_BUFFER (Float32Array []) STATIC_DRAW;
           CreateBuffer indexBuffer;
           BindBuffer ELEMENT_ARRAY_BUFFER indexBuffer;
           BufferData ELEMENT_ARRAY_BUFFER (Uint16Array [0; 1; 2; 0; 2; 3]) STATIC_DRAW].
Proof.
  cbv zeta. split; [vm_compute; reflexivity|].
  pose (w := Sample.world Sample.willing Sample.quad Sample.ortho Sample.warm 0).
  assert (Hready : ready w WebGL2 Sample.quad Sample.ortho) by (repeat split).
  assert (Hend : rescheduled renderLoop w) by (vm_compute; reflexivity).
  destruct (renderLoop_makes_buffers_each_frame w WebGL2 Sample.quad Sample.ortho
              Hready Hend) as (b1 & b2 & Hcalls & _).
  exists b1, b2. exact Hcalls.
Defined.

(** X19. In a frame that runs to its end the normal attribute is looked up
    and pointed at the normals of the packed vertices exactly when the name
    of the vertex shader includes Normal (as a substring, in this case);
    for any other name the frame makes no call for it. *)
Theorem renderLoop_normal_attribute_gate (w : World)
    (gl : WebGLRenderingContext) (m : ModelGL) (c : Camera) :
  ready w gl m c →
  rescheduled renderLoop w →
  let normalLocation p := attribLocation (driver w) p "normal" in
  ∃ p,
    filter isNormalQuery (issued renderLoop w)
      = (if includes "Normal" (vertexShaderName m)
         then [GetAttribLocation p "normal" (normalLocation p)] else [])
    ∧ (includes "Normal" (vertexShaderName m) = true →
         ∃ before rest,
           issued renderLoop w
             = before
               ++ [GetAttribLocation p "normal" (normalLocation p);
                   EnableVertexAttribArray (normalLocation p);
                   VertexAttribPointer (normalLocation p) 3 FLOAT false
                     (vertexStride m) (normalOffset m)]
               ++ rest)
    ∧ (includes "Normal" (vertexShaderName m) = false →
         ∀ q r, GetAttribLocation q "normal" r ∉ issued renderLoop w).
Proof.
  intros Hready Hresched. cbv zeta.
  destruct (frame_calls w gl m c Hready Hresched)
    as (p & lc & ll & lt & lm & lf & d & next
        & Hissued & Hlc & Hll & Hlt & Hlm & Hlf & -> & _).
  exists p.
  assert (Hfilter : filter isNormalQuery (issued renderLoop w)
            = if includes "Normal" (vertexShaderName m)
              then [GetAttribLocation p "normal" (attribLocation (driver w) p "normal")]
              else []).
  { rewrite Hissued. rewrite !filter_app.
    rewrite (forallb_filter_nil compileCall isNormalQuery _ ltac:(by intros []) Hlc).
    rewrite (forallb_filter_nil lightCall isNormalQuery _ ltac:(by intros []) Hll).
    rewrite (forallb_filter_nil textureCall isNormalQuery lt); [| |exact Hlt].
    2: { intros []; cbn; try done. intros H%String.eqb_eq. by subst name. }
    rewrite (forallb_filter_nil matrixCall isNormalQuery _ ltac:(by intros []) Hlm).
    rewrite (forallb_filter_nil finishCall isNormalQuery _ ltac:(by intros []) Hlf).
    destruct (includes "Normal" (vertexShaderName m)); reflexivity. }
  split; [exact Hfilter|]. split.
  - intros Hinc. rewrite Hinc in Hissued.
    match type of Hissued with
    | _ = lc ++ ?u ++ ?vb ++ ll ++ lt ++ ?n ++ ?r =>
        exists (lc ++ u ++ vb ++ ll ++ lt), r
    end.
    rewrite Hissued. by rewrite <- !app_assoc.
  - intros Hinc q r Hin. rewrite Hinc in Hfilter.
    assert (GetAttribLocation q "normal" r ∈ filter isNormalQuery (issued renderLoop w))
      as Hf by (by apply list_elem_of_filter).
    rewrite Hfilter in Hf. by apply elem_of_nil in Hf.
Qed.

Lemma renderLoop_normal_attribute_gate_witness :
  let lit := Sample.world Sample.willing Sample.plain Sample.ortho ∅ 0 in
  let flat := Sample.world Sample.willing (Sample.unmapped "vertexTextureShader")
                Sample.ortho ∅ 0 in
  filter isNormalQuery (issued renderLoop lit) = [GetAttribLocation 2%nat "normal" 6]
  ∧ filter isNormalQuery (issued renderLoop flat) = [].
Proof.
  cbv zeta. split.
  - pose (w := Sample.world Sample.willing Sample.plain Sample.ortho ∅ 0).
    assert (Hready : ready w WebGL2 Sample.plain Sample.ortho) by (repeat split).
    assert (Hend : rescheduled renderLoop w) by (vm_compute; reflexivity).
    destruct (renderLoop_normal_attribute_gate w WebGL2 Sample.plain Sample.ortho
                Hready Hend) as (p & Hf & _).
    clear Hf. vm_compute. reflexivity.
  - vm_compute. reflexivity.
Defined.

(** X20. In a frame that runs to its end the program is bound before any
    buffer, attribute, texture, uniform or draw call: all that comes before
    [useProgram] are the shader and program calls of [compileProgram], and
    none at all when the model already held its program.  The program bound
    is the one the model holds afterwards. *)
Theorem renderLoop_binds_program_first (w : World)
    (gl : WebGLRenderingContext) (m : ModelGL) (c : Camera) :
  ready w gl m c →
  rescheduled renderLoop w →
  ∃ p before rest,
    issued renderLoop w = before ++ UseProgram p :: rest
    ∧ forallb compileCall before = true
    ∧ (∀ q, UseProgram q ∈ rest → False)
    ∧ (∀ q, renderingProgram m = Some q → q = p ∧ before = [])
    ∧ (∀ m', model (sceneData (after renderLoop w)) = Some m' →
         renderingProgram m' = Some p).
Proof.
  intros Hready Hresched.
  destruct (frame_calls w gl m c Hready Hresched)
    as (p & lc & ll & lt & lm & lf & d & next
        & Hissued & Hlc & Hll & Hlt & Hlm & Hlf & -> & Hend & Hhit).
  exists p, lc. eexists. split; [exact Hissued|]. split; [exact Hlc|].
  split; [|split; [exact Hhit | exact Hend]].
  intros q. rewrite !elem_of_app.
  rewrite forallb_forall in Hll, Hlt, Hlm, Hlf.
  intros [Hin|[Hin|[Hin|[Hin|[Hin|Hin]]]]].
  - in_log Hin.
  - apply list_elem_of_In, Hll in Hin. discriminate Hin.
  - apply list_elem_of_In, Hlt in Hin. discriminate Hin.
  - destruct (includes "Normal" (vertexShaderName m)); in_log Hin.
  - apply list_elem_of_In, Hlm in Hin. discriminate Hin.
  - apply list_elem_of_In, Hlf in Hin. discriminate Hin.
Qed.

Lemma renderLoop_binds_program_first_witness :
  let w := Sample.world Sample.willing Sample.quad Sample.ortho Sample.warm 0 in
  ∃ p before rest,
    issued renderLoop w = before ++ UseProgram p :: rest
    ∧ forallb compileCall before = true
    ∧ (model (sceneData (after renderLoop w)) ≫= renderingProgram) = Some p.
Proof.
  intros w.
  assert (Hready : ready w WebGL2 Sample.quad Sample.ortho) by (repeat split).
  assert (Hend : rescheduled renderLoop w) by (vm_compute; reflexivity).
  destruct (renderLoop_binds_program_first w WebGL2 Sample.quad Sample.ortho
              Hready Hend) as (p & before & rest & Hissued & Hbefore & _ & _ & Hp).
  clear Hready Hend.
  exists p, before, rest. split; [exact Hissued|]. split; [exact Hbefore|].
  destruct (model (sceneData (after renderLoop w))) as [m'|] eqn:Hm'.
  - exact (Hp m' eq_refl).
  - vm_compute in Hm'. discriminate Hm'.
Defined.

(** ** glCanvas: what a frame keeps for the next *)

Lemma compileProgram_hit gl w m p :
  model (sceneData w) = Some m → renderingProgram m = Some p →
  compileProgram gl w = (Normal (Some p), w).
Proof.
  intros Hm Hp. unfold compileProgram. js_run. rewrite Hm. js_run. by rewrite Hp.
Qed.

Lemma reuses_refl w : reuses w w.
Proof. intros _. split; [done|]. exists []. by rewrite app_nil_r. Qed.

Lemma reuses_trans w1 w2 w3 : reuses w1 w2 → reuses w2 w3 → reuses w1 w3.
Proof.
  intros H12 H23 Hwarm. destruct (H12 Hwarm) as (Hm12 & l1 & Hl1 & F1).
  assert (Hwarm2 : warmedUp w2).
  { destruct Hwarm as (m & p & Hm & Hrest). exists m, p. by rewrite Hm12. }
  destruct (H23 Hwarm2) as (Hm23 & l2 & Hl2 & F2).
  split; [congruence|]. exists (l1 ++ l2).
  rewrite Hl2, Hl1, <- app_assoc, filter_app, F1, F2. done.
Qed.

Ltac reuses_leaf :=
  intros ? _; unfold after; js_leaf;
  (split; [reflexivity|]);
  first [ exists []; split; [js_simpl; rewrite app_nil_r; reflexivity | reflexivity]
        | eexists [_]; split; [js_simpl; reflexivity | reflexivity] ].

Lemma compileProgram_reuses gl : respects reuses (compileProgram gl).
Proof.
  intros w Hwarm. destruct Hwarm as (m & p & Hm & Hp & _).
  unfold after. rewrite (compileProgram_hit gl w m p Hm Hp). cbn [snd].
  split; [done|]. exists []. by rewrite app_nil_r.
Qed.

Lemma setUpTextures_reuses g p : respects reuses (setUpTextures (Some g) p).
Proof.
  intros w Hwarm. destruct Hwarm as (m & q & Hm & _ & Hd & Hn).
  destruct (setUpTextures_reuse g p w m Hm Hd Hn) as (w' & Hrun & Hcalls & Hscene & _).
  unfold after. rewrite Hrun. cbn [snd]. rewrite Hscene. split; [done|].
  eexists. split; [exact Hcalls|]. by destruct (hasNormalMap m).
Qed.

Lemma renderLoop_draw_reuses : respects reuses renderLoop_draw.
Proof.
  intros w _.
  assert (Hmodel : model (sceneData (after renderLoop_draw w)) = model (sceneData w)).
  { unfold after.
    destruct (camera (sceneData w)) as [c|] eqn:Hc;
      [destruct (model (sceneData w)) as [m|] eqn:Hm|].
    - by rewrite (renderLoop_draw_run w c m Hc Hm).
    - unfold renderLoop_draw. js_unfold. by rewrite Hc, Hm.
    - unfold renderLoop_draw. js_unfold. by rewrite Hc. }
  split; [exact Hmodel|].
  destruct (renderLoop_draw_issuesOnly finishCall ltac:(done) w) as (l & Hl & Hall).
  exists l. split; [exact Hl|].
  revert Hall. apply forallb_filter_nil. by intros [].
Qed.

Lemma renderLoop_reuses : respects reuses renderLoop.
Proof.
  unfold renderLoop, setUpVertexBuffer, setUpLights, renderLoop_normal,
    renderLoop_matrices, renderLoop_clear, renderLoop_viewport, renderLoop_fps.
  respects_walk reuses_refl reuses_trans
    ltac:(idtac; lazymatch goal with
          | |- respects _ (compileProgram _) => apply compileProgram_reuses
          | |- respects _ (setUpTextures _ _) => apply setUpTextures_reuses
          | |- respects _ renderLoop_draw => apply renderLoop_draw_reuses
          | |- _ => reuses_leaf
          end).
Qed.

(** A call of [setUpTextures] that completes leaves a texture for each map
    of the model, and nothing else of the model changed. *)
Lemma setUpTextures_Normal_handles g p w m r w' :
  model (sceneData w) = Some m →
  setUpTextures (Some g) p w = (Normal r, w') →
  ∃ m', model (sceneData w') = Some m'
    ∧ forgetTextures m' = forgetTextures m
    ∧ (hasDiffuseMap m = true → diffuseTexture m' ≠ None)
    ∧ (hasNormalMap m = true → normalTexture m' ≠ None).
Proof.
  intros Hm Hrun.
  pose proof (respects_run _ _ _ _ _ (setUpTextures_modelButTextures _ _) Hrun) as Hkept.
  unfold stable, modelButTextures in Hkept. rewrite Hm in Hkept.
  destruct (model (sceneData w')) as [m'|] eqn:Hm'; [|done].
  cbn [fmap option_fmap option_map] in Hkept. apply (inj Some) in Hkept.
  exists m'. split; [done|]. split; [done|].
  revert Hrun. unfold setUpTextures. js_run. rewrite Hm. js_run. intros Hrun.
  apply bind_Normal_inv in Hrun as ([] & w1 & Hdiffuse & Hrun).
  apply bind_Normal_inv in Hrun as ([] & w2 & Hnormal & Hrun).
  injection Hrun as _ <-.
  (* the diffuse block *)
  assert (Hd : ∃ m1, model (sceneData w1) = Some m1
                 ∧ normalTexture m1 = normalTexture m
                 ∧ (hasDiffuseMap m = true → diffuseTexture m1 ≠ None)).
  { destruct (hasDiffuseMap m) eqn:Hflag.
    - destruct (diffuseTexture m) as [t|] eqn:Ht.
      + rewrite (setUpTextures_diffuse_reuse _ _ _ _ t Hm Ht) in Hdiffuse.
        injection Hdiffuse as <-. exists m. by rewrite Ht.
      + destruct (setUpTextures_diffuse_create g p m w _ _ Hm Hflag Ht Hdiffuse)
          as (Hok & _).
        destruct (Hok eq_refl) as (t & Hm1 & _).
        eexists. split; [exact Hm1|]. done.
    - rewrite (setUpTextures_diffuse_skip _ _ _ _ Hflag) in Hdiffuse.
      injection Hdiffuse as <-. exists m. done. }
  destruct Hd as (m1 & Hm1 & Hn1 & Hd1).
  (* the normal block keeps the diffuse texture *)
  assert (Hkeep : ∃ m2, model (sceneData w2) = Some m2
                    ∧ diffuseTexture m2 = diffuseTexture m1
                    ∧ (hasNormalMap m = true → normalTexture m2 ≠ None)).
  { destruct (hasNormalMap m) eqn:Hflag.
    - destruct (normalTexture m) as [t|] eqn:Ht.
      + revert Hnormal. unfold setUpTextures_normal. rewrite Hflag, Ht.
        js_run. rewrite Hm1. js_run. rewrite Hn1. js_run. unfold modify. js_run.
        intros [= <-]. js_run. exists m1. by rewrite Hn1.
      + destruct (setUpTextures_normal_create g p m m1 w1 _ _ Hm1 Hflag Ht Hnormal)
          as (Hok & _).
        destruct (Hok eq_refl) as (t & Hm2 & _).
        eexists. split; [exact Hm2|]. done.
    - rewrite (setUpTextures_normal_skip _ _ _ _ Hflag) in Hnormal.
      injection Hnormal as <-. exists m1. done. }
  destruct Hkeep as (m2 & Hm2 & Hd2 & Hn2).
  rewrite Hm2 in Hm'. injection Hm' as <-.
  split; [|exact Hn2]. intros Hflag. rewrite Hd2. by apply Hd1.
Qed.

(** X21. A frame that runs to its end leaves the model with its program and
    with a texture for each of its maps; and the next call of [renderLoop],
    however it ends, compiles and links nothing, creates no texture,
    uploads no image and leaves the model as it is. *)
Theorem renderLoop_next_frame_builds_nothing (w : World)
    (gl : WebGLRenderingContext) (m : ModelGL) (c : Camera) :
  ready w gl m c →
  rescheduled renderLoop w →
  let w' := after renderLoop w in
  warmedUp w'
  ∧ filter buildCall (issued renderLoop w') = []
  ∧ model (sceneData (after renderLoop w')) = model (sceneData w').
Proof.
  intros Hready Hresched. cbv zeta.
  assert (Hwarm : warmedUp (after renderLoop w)).
  { frame_trace Hready Hresched.
    destruct (setup_steps_scene _ _ _ _ _ _ _ _ _ _ _ Hready Hcompile Hbuffer Hlights
                Htextures Hnormal) as (Hfixed & Hcam & Hdrv & m' & Hm' & Hfm).
    destruct (setup_end w c m' p normalled placed cleared lm lcl Hcam Hm' Hfixed
                Hmatrices Hlm Hclear Hlcl) as (_ & _ & Hcam' & Hm'' & _).
    assert (Hscene : sceneData (after renderLoop w) = sceneData cleared).
    { unfold after. rewrite Hfinish. fold (after renderLoop_finish cleared).
      by rewrite (renderLoop_finish_scene cleared _ _ Hcam' Hm''). }
    (* the model when the textures are set up *)
    pose proof Hready as (_ & Hm & _).
    destruct (compileProgram_Some _ _ _ _ _ Hm Hcompile) as (Hm1 & _).
    pose proof (glCall_modelButTextures (UseProgram p) compiled) as T0.
    pose proof (respects_run _ _ _ _ _ (setUpVertexBuffer_modelButTextures _) Hbuffer)
      as T1.
    pose proof (respects_run _ _ _ _ _ (setUpLights_modelButTextures _ _) Hlights) as T2.
    assert (T : modelButTextures lit = modelButTextures compiled).
    { unfold stable, after, glCall, modify in *. cbn [snd] in T0. congruence. }
    unfold modelButTextures in T. rewrite Hm1 in T.
    destruct (model (sceneData lit)) as [m2|] eqn:Hm2; [|done].
    cbn [fmap option_fmap option_map] in T. apply (inj Some) in T.
    destruct (setUpTextures_Normal_handles _ _ _ _ _ _ Hm2 Htextures)
      as (m3 & Hm3 & Hsame & Hd & Hn).
    (* the normal attribute leaves the model alone *)
    pose proof (renderLoop_normal_run p m textured) as Hrun.
    cbv zeta in Hrun. rewrite Hnormal in Hrun. injection Hrun as Hrun.
    assert (Hm4 : model (sceneData normalled) = Some m3).
    { rewrite Hrun. by destruct (includes _ _). }
    rewrite Hm4 in Hm'. injection Hm' as <-.
    exists m3, p. rewrite Hscene. split; [done|].
    assert (Hflags : forgetTextures m3 = forgetTextures (set_renderingProgram (Some p) m))
      by congruence.
    split; [exact (f_equal renderingProgram Hflags)|].
    rewrite (f_equal hasDiffuseMap Hsame : hasDiffuseMap m3 = hasDiffuseMap m2).
    rewrite (f_equal hasNormalMap Hsame : hasNormalMap m3 = hasNormalMap m2).
    done. }
  split; [exact Hwarm|].
  destruct (renderLoop_reuses (after renderLoop w) Hwarm) as (Hmodel & l & Hl & Hf).
  split; [|exact Hmodel].
  by rewrite (issued_app _ _ _ Hl).
Qed.

Lemma renderLoop_next_frame_builds_nothing_witness :
  let w := Sample.world Sample.willing Sample.quad Sample.ortho Sample.warm 0 in
  filter isCreateTexture (issued renderLoop w)
    = [CreateTexture (Some 5%nat); CreateTexture (Some 6%nat)]
  ∧ filter buildCall (issued renderLoop (after renderLoop w)) = [].
Proof.
  intros w. split; [vm_compute; reflexivity|].
  assert (Hready : ready w WebGL2 Sample.quad Sample.ortho) by (repeat split).
  assert (Hend : rescheduled renderLoop w) by (vm_compute; reflexivity).
  destruct (renderLoop_next_frame_builds_nothing w WebGL2 Sample.quad Sample.ortho
              Hready Hend) as (_ & Hnone & _).
  exact Hnone.
Defined.

(** ** glCanvas: frames that do not run *)

(** X22. A call of [renderLoop] either runs to its end, and then it returns
    normally with one more frame scheduled, or it draws nothing at all,
    schedules nothing and leaves the frame counter, the frames per second
    and the start of the window as they were: no frame is half drawn or
    half counted.  When the scene has no context, no model or no camera,
    the call returns at once and the world is exactly as it was. *)
Theorem renderLoop_all_or_nothing (w : World) :
  let w' := after renderLoop w in
  ((rescheduled renderLoop w ∧ completion renderLoop w = Normal tt)
   ∨ (filter isDraw (issued renderLoop w) = []
      ∧ animationFrames w' = animationFrames w
      ∧ frameNumber w' = frameNumber w
      ∧ fps w' = fps w
      ∧ lastTime w' = lastTime w
      ∧ clock w' = clock w))
  ∧ (glContext (sceneData w) = None ∨ model (sceneData w) = None
       ∨ camera (sceneData w) = None →
     renderLoop w = (Normal tt, w) ∧ ¬ rescheduled renderLoop w).
Proof.
  cbv zeta.
  assert (Hquiet : ∀ r w1, renderLoop w = (r, w1) → setupOnly w w1 →
            filter isDraw (issued renderLoop w) = []
            ∧ animationFrames (after renderLoop w) = animationFrames w
            ∧ frameNumber (after renderLoop w) = frameNumber w
            ∧ fps (after renderLoop w) = fps w
            ∧ lastTime (after renderLoop w) = lastTime w
            ∧ clock (after renderLoop w) = clock w).
  { intros r w1 Hrun [Hs (l & Hl & Hf)]. unfold issued, after. rewrite Hrun. cbn [snd].
    rewrite Hl, drop_app_length. split; [exact Hf|].
    split; [exact (f_equal animationFrames Hs)|].
    split; [exact (f_equal frameNumber Hs)|].
    split; [exact (f_equal fps Hs)|].
    split; [exact (f_equal lastTime Hs) | exact (f_equal clock Hs)]. }
  split.
  - destruct (renderLoop_outcome w)
      as [Hidle Hr | gl m c w1 Hready Hc Hr Hs | gl m c e w1 Hready Hr Hs
         | gl m c p w1 ws Hready Hc Hsetup Hs Hr].
    + right. apply (Hquiet _ _ Hr). apply setupOnly_refl.
    + right. by apply (Hquiet _ _ Hr).
    + right. by apply (Hquiet _ _ Hr).
    + left.
      destruct (setupOnly_fields w ws gl m c Hready Hs)
        as (m' & c' & Hm' & Hc' & _ & _ & _ & _ & Hfr & _).
      unfold rescheduled, completion, after.
      rewrite Hr, (renderLoop_finish_run ws c' m' Hc' Hm').
      cbn [fst snd]. js_simpl. by rewrite Hfr.
  - intros Hnone.
    assert (Hrun : renderLoop w = (Normal tt, w)).
    { unfold renderLoop, get. unfold mbind at 1, JS_bind at 1.
      destruct (glContext (sceneData w)); [|done].
      destruct (model (sceneData w)); [|done].
      destruct (camera (sceneData w)); [|done].
      by destruct Hnone as [|[|]]. }
    split; [exact Hrun|]. unfold rescheduled, after. rewrite Hrun. cbn [snd]. lia.
Qed.

(** ** glCanvas: cleaning up twice *)

(** X23. [cleanUpTextures] is idempotent: a second call right after the
    first deletes nothing and changes nothing, so no texture is deleted
    twice; and the clean-up never touches the program of the model. *)
Theorem cleanUpTextures_idempotent (gl : option WebGLRenderingContext) (w : World) :
  let w' := after (cleanUpTextures gl) w in
  cleanUpTextures gl w' = (Normal tt, w')
  ∧ issued (cleanUpTextures gl;; cleanUpTextures gl) w = issued (cleanUpTextures gl) w
  ∧ (model (sceneData w') ≫= renderingProgram)
      = (model (sceneData w) ≫= renderingProgram).
Proof.
  cbv zeta.
  assert (Hsecond : ∀ w1 m1, model (sceneData w1) = Some m1 →
            (hasDiffuseMap m1 = true → diffuseTexture m1 = None) →
            (hasNormalMap m1 = true → normalTexture m1 = None) →
            cleanUpTextures gl w1 = (Normal tt, w1)).
  { intros w1 m1 Hm1 Hd Hn. unfold cleanUpTextures.
    destruct gl as [g|]; [|done]. js_run. rewrite Hm1. js_run.
    destruct (hasDiffuseMap m1); [rewrite (Hd eq_refl)|];
      (destruct (hasNormalMap m1); [rewrite (Hn eq_refl)|]); done. }
  assert (Hfirst : cleanUpTextures gl (after (cleanUpTextures gl) w)
                   = (Normal tt, after (cleanUpTextures gl) w)
                   ∧ (model (sceneData (after (cleanUpTextures gl) w))
                        ≫= renderingProgram)
                     = (model (sceneData w) ≫= renderingProgram)
                   ∧ completion (cleanUpTextures gl) w = Normal tt).
  { destruct gl as [g|]; [|done].
    destruct (model (sceneData w)) as [m|] eqn:Hm.
    - destruct (cleanUpTextures_run g w m Hm) as (m' & Hrun & Hd & Hn & Hfh & Hp).
      unfold after, completion. rewrite Hrun. cbn [fst snd].
      split; [|split; [|done]].
      + apply (Hsecond _ m'); [done| |]; intros Hflag.
        * rewrite (f_equal hasDiffuseMap Hfh : hasDiffuseMap m' = hasDiffuseMap m)
            in Hflag.
          by rewrite Hd, Hflag.
        * rewrite (f_equal hasNormalMap Hfh : hasNormalMap m' = hasNormalMap m)
            in Hflag.
          by rewrite Hn, Hflag.
      + js_simpl. cbn. done.
    - assert (Hrun : cleanUpTextures (Some g) w = (Normal tt, w)).
      { unfold cleanUpTextures. js_run. by rewrite Hm. }
      unfold after, completion. rewrite Hrun. cbn [fst snd]. by rewrite Hrun, Hm. }
  destruct Hfirst as (Hagain & Hprog & Hdone).
  split; [exact Hagain|]. split; [|exact Hprog].
  unfold issued. f_equal. f_equal.
  destruct (after_bind_Normal (cleanUpTextures gl) (λ _, cleanUpTextures gl) w tt Hdone)
    as [Hafter _].
  rewrite Hafter. unfold after at 1. by rewrite Hagain.
Qed.

(** ** glCanvas: changing the scene *)

Lemma cleanUpTextures_cleaned g w m :
  model (sceneData w) = Some m →
  model (sceneData (after (cleanUpTextures (Some g)) w)) = Some (cleaned m).
Proof.
  intros Hm. unfold after, cleanUpTextures, cleaned. js_run. rewrite Hm. js_run.
  destruct (hasDiffuseMap m), (hasNormalMap m),
    (diffuseTexture m) as [d|] eqn:Hd, (normalTexture m) as [n|] eqn:Hn;
    js_run; rewrite ?Hm; js_run; done.
Qed.

(** What [cleaned] does to the handles. *)
Lemma cleaned_handles m :
  diffuseTexture (cleaned m) = (if hasDiffuseMap m then None else diffuseTexture m)
  ∧ normalTexture (cleaned m) = (if hasNormalMap m then None else normalTexture m)
  ∧ forgetHandles (cleaned m) = forgetHandles m.
Proof.
  unfold cleaned.
  destruct (hasDiffuseMap m), (hasNormalMap m),
    (diffuseTexture m) as [d|] eqn:Hd, (normalTexture m) as [n|] eqn:Hn;
    by rewrite ?Hd, ?Hn.
Qed.

Lemma cleanUpTextures_calls w :
  ∃ w1, cleanUpTextures (glContext (sceneData w)) w = (Normal tt, w1)
    ∧ glCalls w1 = glCalls w ++ cleanUpCalls (sceneData w)
    ∧ model (sceneData w1) = storedModel SceneModel (sceneData w)
    ∧ glContext (sceneData w1) = glContext (sceneData w)
    ∧ animationFrames w1 = animationFrames w
    ∧ driver w1 = driver w.
Proof.
  unfold cleanUpCalls, storedModel.
  destruct (glContext (sceneData w)) as [g|] eqn:Hg.
  - destruct (model (sceneData w)) as [m|] eqn:Hm.
    + pose proof (cleanUpTextures_cleaned g w m Hm) as Hclean.
      destruct (cleanUpTextures_run g w m Hm) as (m' & Hrun & _).
      unfold after in Hclean. rewrite Hrun in Hclean.
      eexists. split; [exact Hrun|]. split; [by js_simpl|].
      split; [exact Hclean|]. js_simpl. by rewrite Hg.
    + exists w. unfold cleanUpTextures. js_unfold. rewrite Hm.
      rewrite app_nil_r. done.
  - exists w. unfold cleanUpTextures. js_unfold.
    rewrite app_nil_r. done.
Qed.

(** The scene after the swap that [updateSceneData] makes. *)
Lemma updateSceneData_swap (newModel : ModelRef) (newCamera : option Camera) w :
  ∃ w2,
    updateSceneData newModel newCamera w
      = match storedModel newModel (sceneData w), newCamera with
        | Some _, Some _ => renderLoop w2
        | _, _ => (Normal tt, w2)
        end
    ∧ glCalls w2 = glCalls w ++ cleanUpCalls (sceneData w)
    ∧ model (sceneData w2) = storedModel newModel (sceneData w)
    ∧ camera (sceneData w2) = newCamera
    ∧ glContext (sceneData w2) = glContext (sceneData w)
    ∧ animationFrames w2 = animationFrames w
    ∧ driver w2 = driver w.
Proof.
  destruct (cleanUpTextures_calls w) as (w1 & Hrun & Hcalls & Hclean & Hgl & Hanim & Hdrv).
  exists (set_sceneData
            (set_model (storedModel newModel (sceneData w))
               (set_camera newCamera (sceneData w1))) w1).
  split.
  - unfold updateSceneData. unfold get at 1. unfold mbind at 1, JS_bind at 1.
    erewrite bind_Normal by exact Hrun.
    unfold putCamera, putModel, deref. js_unfold. unfold modify. js_simpl.
    destruct newModel as [| |m].
    + by destruct newCamera.
    + rewrite <- Hclean. by destruct (model (sceneData w1)), newCamera.
    + by destruct newCamera.
  - js_simpl. done.
Qed.

(** X8. [updateSceneData] with a model that is null, or with no camera,
    stores both as given, after deleting the textures of the model that
    was there (those whose flag is set, when there is a context); a model
    that is the scene's own object is stored as the deletion left it, its
    handles reset.  The call draws nothing, schedules no frame and does not
    throw, and the loop is idle from then on: a later call of [renderLoop]
    returns at once without a trace. *)
Theorem updateSceneData_without_model_or_camera
    (newModel : ModelRef) (newCamera : option Camera) (w : World) :
  storedModel newModel (sceneData w) = None ∨ newCamera = None →
  let w' := after (updateSceneData newModel newCamera) w in
  completion (updateSceneData newModel newCamera) w = Normal tt
  ∧ model (sceneData w') = storedModel newModel (sceneData w)
  ∧ camera (sceneData w') = newCamera
  ∧ issued (updateSceneData newModel newCamera) w = cleanUpCalls (sceneData w)
  ∧ animationFrames w' = animationFrames w
  ∧ renderLoop w' = (Normal tt, w')
  ∧ (∀ g m, newModel = SceneModel →
       glContext (sceneData w) = Some g → model (sceneData w) = Some m →
       ∃ m', model (sceneData w') = Some m'
         ∧ diffuseTexture m' = (if hasDiffuseMap m then None else diffuseTexture m)
         ∧ normalTexture m' = (if hasNormalMap m then None else normalTexture m)
         ∧ forgetHandles m' = forgetHandles m).
Proof.
  intros Hnull. cbv zeta.
  destruct (updateSceneData_swap newModel newCamera w)
    as (w2 & Hrun & Hcalls & Hm & Hc & _ & Hanim & _).
  assert (Hrun' : updateSceneData newModel newCamera w = (Normal tt, w2)).
  { rewrite Hrun.
    by destruct Hnull as [-> | ->]; [|destruct (storedModel _ _)]. }
  unfold completion, after, issued, after. rewrite Hrun'. cbn [fst snd].
  rewrite Hcalls, drop_app_length.
  do 5 (split; [done|]). split.
  - unfold renderLoop, get. unfold mbind at 1, JS_bind at 1.
    rewrite Hm, Hc.
    destruct (glContext (sceneData w2)); [|done].
    by destruct Hnull as [-> | ->]; [|destruct (storedModel _ _)].
  - intros g m -> Hg Hmodel. exists (cleaned m).
    rewrite Hm. cbn [storedModel]. rewrite Hg, Hmodel.
    split; [done|]. apply cleaned_handles.
Qed.

(** The page takes the camera away and hands the scene its own model back:
    the texture that the model held is deleted, and the model stored no
    longer holds it. *)
Lemma updateSceneData_without_model_or_camera_witness :
  let shown := set_diffuseTexture (Some 3%nat) Sample.quad in
  let w := Sample.world Sample.willing shown Sample.ortho Sample.warm 0 in
  let w' := after (updateSceneData SceneModel None) w in
  issued (updateSceneData SceneModel None) w = [DeleteTexture 3%nat]
  ∧ model (sceneData w') = Some Sample.quad
  ∧ camera (sceneData w') = None.
Proof.
  cbv zeta.
  pose proof (updateSceneData_without_model_or_camera SceneModel None
                (Sample.world Sample.willing
                   (set_diffuseTexture (Some 3%nat) Sample.quad)
                   Sample.ortho Sample.warm 0)
                (or_intror eq_refl)) as H.
  cbv zeta in H. destruct H as (_ & Hm & Hc & Hi & _).
  split; [exact Hi|]. split; [exact Hm | exact Hc].
Defined.

(** A set-up of the textures that completes has made a texture for each
    map whose handle was null. *)
Lemma setUpTextures_creates g p w m w' :
  model (sceneData w) = Some m →
  setUpTextures (Some g) p w = (Normal true, w') →
  ∃ l, glCalls w' = glCalls w ++ l
    ∧ (hasDiffuseMap m = true → diffuseTexture m = None →
       ∃ t, CreateTexture (Some t) ∈ l)
    ∧ (hasNormalMap m = true → normalTexture m = None →
       ∃ t, CreateTexture (Some t) ∈ l).
Proof.
  intros Hm Hrun. revert Hrun. unfold setUpTextures.
  unfold getModel, mbind at 1, JS_bind at 1. rewrite Hm. intros Hrun.
  apply bind_Normal_inv in Hrun as ([] & w1 & Hdiffuse & Hrun).
  apply bind_Normal_inv in Hrun as ([] & w2 & Hnormal & Hrun).
  injection Hrun as <-.
  destruct (drawsNothing_run _ _ _ _ (setUpTextures_diffuse_drawsNothing _ _ _) Hdiffuse)
    as (l1 & Hl1).
  destruct (drawsNothing_run _ _ _ _ (setUpTextures_normal_drawsNothing _ _ _) Hnormal)
    as (l2 & Hl2).
  destruct (setUpTextures_diffuse_fields g p w m _ w1 Hm Hdiffuse)
    as (m1 & Hm1 & _).
  exists (l1 ++ l2). split; [by rewrite Hl2, Hl1, <- app_assoc|]. split.
  - intros Hflag Hd.
    destruct (setUpTextures_diffuse_create g p m w _ _ Hm Hflag Hd Hdiffuse)
      as (Hok & _).
    destruct (Hok eq_refl) as (t & _ & Hin).
    rewrite Hl1, drop_app_length in Hin. exists t. rewrite elem_of_app. by left.
  - intros Hflag Hd.
    destruct (setUpTextures_normal_create g p m m1 w1 _ _ Hm1 Hflag Hd Hnormal)
      as (Hok & _).
    destruct (Hok eq_refl) as (t & _ & Hin).
    rewrite Hl2, drop_app_length in Hin. exists t. rewrite elem_of_app. by right.
Qed.

(** So has a frame that runs to its end. *)
Lemma renderLoop_creates_textures w gl m c :
  ready w gl m c → rescheduled renderLoop w →
  (hasDiffuseMap m = true → diffuseTexture m = None →
   ∃ t, CreateTexture (Some t) ∈ issued renderLoop w)
  ∧ (hasNormalMap m = true → normalTexture m = None →
     ∃ t, CreateTexture (Some t) ∈ issued renderLoop w).
Proof.
  intros Hready Hresched. frame_trace Hready Hresched.
  pose proof (respects_run _ _ _ _ _ (compileProgram_compileFrame _) Hcompile) as C1.
  pose proof (glCall_compileFrame (UseProgram p) compiled) as C2.
  pose proof (respects_run _ _ _ _ _ (setUpVertexBuffer_compileFrame _) Hbuffer) as C3.
  pose proof (respects_run _ _ _ _ _ (setUpLights_compileFrame _ _) Hlights) as C4.
  assert (C : stable compileFrame w lit).
  { unfold after, glCall, modify in C2. cbn [snd] in C2.
    eauto using stable_trans. }
  destruct (compileFrame_fields w lit gl m c Hready C)
    as (m2 & (_ & Hm2 & _) & Hfix & _).
  destruct (forgetProgram_fields _ _ Hfix) as (_ & Hfd & Hfn & Hd & Hn & _).
  destruct (setUpTextures_creates gl p lit m2 textured Hm2 Htextures)
    as (l & Hl & Hcd & Hcn).
  rewrite Hlt in Hl. apply app_inv_head in Hl as <-.
  rewrite Hfd, Hd in Hcd. rewrite Hfn, Hn in Hcn.
  rewrite Hissued.
  split; intros Hflag Hnull;
    [destruct (Hcd Hflag Hnull) as (t & Hin) | destruct (Hcn Hflag Hnull) as (t & Hin)];
    exists t; rewrite !elem_of_app; auto 10.
Qed.

(** X9. [updateSceneData] with a model and a camera, on a scene that has a
    context: when the frame it starts runs to its end, the calls made are the
    deletions of the textures of the model that was there, then the calls of
    one frame of the new scene, among which no texture is deleted and the
    draw calls are those of the model stored under the new camera.  A model
    that is the scene's own object is stored with the handles of its maps
    reset, and the frame makes a texture for every map whose handle is
    null. *)
Theorem updateSceneData_draws_new_model
    (newModel : ModelRef) (shown : ModelGL) (newCamera : Camera) (w : World)
    (gl : WebGLRenderingContext) :
  glContext (sceneData w) = Some gl →
  storedModel newModel (sceneData w) = Some shown →
  rescheduled (updateSceneData newModel (Some newCamera)) w →
  completion (updateSceneData newModel (Some newCamera)) w = Normal tt
  ∧ (newModel = SceneModel →
       (hasDiffuseMap shown = true → diffuseTexture shown = None)
       ∧ (hasNormalMap shown = true → normalTexture shown = None))
  ∧ ∃ frame,
      issued (updateSceneData newModel (Some newCamera)) w
        = cleanUpCalls (sceneData w) ++ frame
      ∧ filter isDeleteTexture frame = []
      ∧ filter isDraw frame = frameDraws newCamera shown
      ∧ (hasDiffuseMap shown = true → diffuseTexture shown = None →
         ∃ t, CreateTexture (Some t) ∈ frame)
      ∧ (hasNormalMap shown = true → normalTexture shown = None →
         ∃ t, CreateTexture (Some t) ∈ frame).
Proof.
  intros Hgl Hshown Hresched.
  destruct (updateSceneData_swap newModel (Some newCamera) w)
    as (w2 & Hrun & Hcalls & Hm & Hc & Hgl2 & Hanim & Hdrv).
  rewrite Hshown in Hrun, Hm.
  assert (Hready : ready w2 gl shown newCamera).
  { split; [by rewrite Hgl2|done]. }
  unfold rescheduled, after in Hresched. rewrite Hrun, <- Hanim in Hresched.
  destruct (renderLoop_rescheduled w2 gl shown newCamera Hready Hresched)
    as (ws & pre & _ & _ & Hpre & Hdone & Hissued & _).
  destruct (issuesOnly_issued _ renderLoop w2 (renderLoop_keepsCanvasAndTextures w2))
    as [Hlog Hall].
  destruct (renderLoop_creates_textures w2 gl shown newCamera Hready Hresched)
    as [Hcd Hcn].
  split; [unfold completion in *; by rewrite Hrun|].
  split.
  { intros ->. cbn [storedModel] in Hshown. rewrite Hgl in Hshown.
    destruct (model (sceneData w)) as [m|]; [|discriminate].
    injection Hshown as <-.
    destruct (cleaned_handles m) as (Hd & Hn & Hf).
    rewrite Hd, Hn.
    rewrite (f_equal hasDiffuseMap Hf : hasDiffuseMap (cleaned m) = hasDiffuseMap m).
    rewrite (f_equal hasNormalMap Hf : hasNormalMap (cleaned m) = hasNormalMap m).
    split; by intros ->. }
  exists (issued renderLoop w2). split; [|split; [|split; [|split]]].
  - unfold issued at 1. unfold after at 1. rewrite Hrun.
    fold (after renderLoop w2). rewrite Hlog, Hcalls, <- app_assoc.
    by rewrite drop_app_length.
  - revert Hall. apply forallb_filter_nil. by intros [].
  - rewrite Hissued. by apply filter_isDraw_frame.
  - exact Hcd.
  - exact Hcn.
Qed.

(** The page hands the scene its own model back, under another camera: the
    texture that the model held is deleted, and the frame makes both
    textures anew. *)
Lemma updateSceneData_draws_new_model_witness :
  let shown := set_diffuseTexture (Some 3%nat) Sample.quad in
  let w := Sample.world Sample.willing shown Sample.ortho Sample.warm 0 in
  let new := issued (updateSceneData SceneModel (Some Sample.wire)) w in
  filter isDeleteTexture new = [DeleteTexture 3%nat]
  ∧ filter isCreateTexture new = [CreateTexture (Some 5%nat); CreateTexture (Some 6%nat)]
  ∧ filter isDraw new = [DrawElements LINE_LOOP 3 UNSIGNED_SHORT 0;
                         DrawElements LINE_LOOP 3 UNSIGNED_SHORT 6].
Proof.
  cbv zeta.
  assert (Hresched :
    rescheduled (updateSceneData SceneModel (Some Sample.wire))
      (Sample.world Sample.willing (set_diffuseTexture (Some 3%nat) Sample.quad)
         Sample.ortho Sample.warm 0)) by (vm_compute; reflexivity).
  pose proof (updateSceneData_draws_new_model SceneModel Sample.quad Sample.wire
                (Sample.world Sample.willing
                   (set_diffuseTexture (Some 3%nat) Sample.quad)
                   Sample.ortho Sample.warm 0)
                WebGL2 eq_refl eq_refl Hresched) as H.
  clear Hresched. destruct H as (_ & _ & frame & Hnew & Hdel & Hdraw & _).
  split; [|split].
  - rewrite Hnew, filter_app, Hdel. clear. vm_compute. reflexivity.
  - clear. vm_compute. reflexivity.
  - rewrite Hnew, filter_app, Hdraw. clear. vm_compute. reflexivity.
Defined.

(** ** The invariant of the data model is kept

    Every entry point of the renderer that writes to the model of the
    scene leaves it with its texture handles under their flags: whatever
    the frames and the swaps, the model that [cleanUpTextures] finds in the
    scene is a model of the data model, as long as the models handed to
    [updateSceneData] are. *)

Lemma respects_forLoop (R : World → World → Prop) fuel i n body :
  (∀ w, R w w) → (∀ w1 w2 w3, R w1 w2 → R w2 w3 → R w1 w3) →
  (∀ j, respects R (body j)) → respects R (forLoop fuel i n body).
Proof.
  intros Hrefl Htrans Hbody. revert i.
  induction fuel as [|fuel IH]; intros i; cbn [forLoop].
  - by apply respects_ret.
  - destruct (i <? n)%nat; [|by apply respects_ret].
    apply respects_bind; [done | done | intros _; apply IH].
Qed.

Ltac keepsHandles_leaf :=
  lazymatch goal with
  | |- respects _ (compileProgram _) =>
      intros ?; apply compileFrame_keepsHandlesUnderFlags, compileProgram_compileFrame
  | |- respects _ (setUpVertexBuffer _) =>
      intros ?; apply compileFrame_keepsHandlesUnderFlags, setUpVertexBuffer_compileFrame
  | |- respects _ (setUpLights _ _) =>
      intros ?; apply compileFrame_keepsHandlesUnderFlags, setUpLights_compileFrame
  | |- respects _ (setUpTextures _ _) => apply setUpTextures_keepsHandlesUnderFlags
  | |- respects _ (cleanUpTextures _) => apply cleanUpTextures_keepsHandlesUnderFlags
  | |- respects _ (forLoop _ _ _ _) =>
      apply respects_forLoop;
      [apply keepsHandlesUnderFlags_refl | apply keepsHandlesUnderFlags_trans
      | intros ?; intros ?; apply stable_model_keepsHandlesUnderFlags; reflexivity]
  | |- respects _ _ =>
      let w := fresh "w" in
      intros w; apply stable_model_keepsHandlesUnderFlags; revert w; stable_leaf
  end.

Lemma renderLoop_keepsHandlesUnderFlags :
  respects keepsHandlesUnderFlags renderLoop.
Proof.
  unfold renderLoop, renderLoop_normal, renderLoop_matrices, renderLoop_clear,
    renderLoop_viewport, renderLoop_draw, renderLoop_fps.
  respects_walk keepsHandlesUnderFlags_refl keepsHandlesUnderFlags_trans
    ltac:(idtac; keepsHandles_leaf).
Qed.

Lemma cleaned_handlesUnderFlags m :
  handlesUnderFlags m → handlesUnderFlags (cleaned m).
Proof.
  intros [Hid Hin]. destruct (cleaned_handles m) as (Hd & Hn & Hf). split.
  - rewrite Hd, (f_equal hasDiffuseMap Hf : hasDiffuseMap (cleaned m) = hasDiffuseMap m).
    by destruct (hasDiffuseMap m).
  - rewrite Hn, (f_equal hasNormalMap Hf : hasNormalMap (cleaned m) = hasNormalMap m).
    by destruct (hasNormalMap m).
Qed.

(** A swap keeps it when the model handed over satisfies it. *)
Lemma updateSceneData_keepsHandlesUnderFlags
    (newModel : ModelRef) (newCamera : option Camera) :
  (∀ m, newModel = OtherModel m → handlesUnderFlags m) →
  respects keepsHandlesUnderFlags (updateSceneData newModel newCamera).
Proof.
  intros Hnew w Hinv.
  destruct (updateSceneData_swap newModel newCamera w)
    as (w2 & Hrun & _ & Hm & _).
  assert (Hinv2 : sceneHandlesUnderFlags w2).
  { intros m Hm2. rewrite Hm in Hm2. destruct newModel as [| |m0].
    - discriminate.
    - cbn [storedModel] in Hm2. destruct (glContext (sceneData w)).
      + destruct (model (sceneData w)) as [m1|] eqn:Hm1; [|discriminate].
        injection Hm2 as <-. by apply cleaned_handlesUnderFlags, Hinv.
      + by apply Hinv.
    - injection Hm2 as <-. by apply Hnew. }
  unfold after. rewrite Hrun.
  destruct (storedModel newModel (sceneData w)), newCamera; try done.
  by apply (renderLoop_keepsHandlesUnderFlags w2).
Qed.
